(** * Amstrad CPC container handlers: disk images, snapshots, pixel codec

    A shallow embedding of [cpcimage.py], [cpcdiskimage.py] and
    [cpcsnapshot.py].  Python integers are [Z]; a [bytearray] is a
    [list Z] whose writes are range-checked the way Python checks them;
    exceptions are a result type, and methods that mutate [self] are
    state-passing functions that hand back the object as it stands when
    the exception leaves the method. *)

From Stdlib Require Import Ascii String.
From Stdlib Require Import ZArith Lia.
From stdpp Require Import base decidable option list numbers.

Local Open Scope Z_scope.

(** ** Python values, exceptions and bytearrays *)
Module Py.

(** The exception classes raised by the three modules.  The two
    [FileFormatError] classes and the two [ListSizeError] classes are
    different Python classes and stay different constructors. *)
Inductive exn : Type :=
  | TypeError
  | ValueError
  | IndexError
  | MemoryError
  | ImageListSizeError
  | DiskFileFormatError
  | InvalidTrackError (track : Z)
  | TrackDataError (track : Z)
  | InvalidSectorError (track sector : Z)
  | SectorWriteError (track sector : Z)
  | SnaFileFormatError
  | InvalidZ80RegisterError
  | SnaListSizeError (min_length max_length : Z).

Inductive result (A : Type) : Type :=
  | Ok (a : A)
  | Raise (e : exn).
Arguments Ok {A} a.
Arguments Raise {A} e.

#[global] Instance exn_eq_dec : EqDecision exn.
Proof. solve_decision. Defined.

#[global] Instance result_eq_dec {A} `{EqDecision A} : EqDecision (result A).
Proof. solve_decision. Defined.

Definition rbind {A B} (r : result A) (k : A -> result B) : result B :=
  match r with
  | Ok a => k a
  | Raise e => Raise e
  end.

(** [x in range(lo, hi)] for an integer [x]. *)
Definition in_range (x lo hi : Z) : bool := (lo <=? x) && (x <? hi).

Definition len {A} (l : list A) : Z := Z.of_nat (length l).

Definition is_byte (v : Z) : bool := in_range v 0 256.

(** [b[i]]: a negative index counts from the end, anything outside
    the buffer raises [IndexError]. *)
Definition norm_index {A} (b : list A) (i : Z) : Z :=
  if i <? 0 then i + len b else i.

Definition getitem {A} (b : list A) (i : Z) : result A :=
  let j := norm_index b i in
  if in_range j 0 (len b) then
    match b !! Z.to_nat j with
    | Some v => Ok v
    | None => Raise IndexError
    end
  else Raise IndexError.

(** [b[i] = v] on a bytearray: the value must be a byte. *)
Definition setitem (b : list Z) (i v : Z) : result (list Z) :=
  let j := norm_index b i in
  if in_range j 0 (len b) then
    if is_byte v then Ok (<[Z.to_nat j := v]> b) else Raise ValueError
  else Raise IndexError.

(** Slice bounds are clamped to the buffer, as [slice.indices] does
    for a step of one. *)
Definition clamp_index (n i : Z) : Z :=
  if i <? 0 then Z.max (i + n) 0 else Z.min i n.

(** [b[lo:hi]] *)
Definition getslice {A} (b : list A) (lo hi : Z) : list A :=
  let lo' := clamp_index (len b) lo in
  let hi' := clamp_index (len b) hi in
  take (Z.to_nat (hi' - lo')) (drop (Z.to_nat lo') b).

(** [b[lo:hi] = data] on a bytearray: the slice is replaced by [data],
    whatever its length; an empty or inverted slice inserts at [lo]. *)
Definition setslice (b : list Z) (lo hi : Z) (data : list Z)
  : result (list Z) :=
  let lo' := clamp_index (len b) lo in
  let hi' := Z.max (clamp_index (len b) hi) lo' in
  if forallb is_byte data then
    Ok (take (Z.to_nat lo') b ++ data ++ drop (Z.to_nat hi') b)
  else Raise ValueError.

(** ['...'.encode('ascii')] on an ASCII literal. *)
Definition encode_ascii (s : String.string) : list Z :=
  map (fun c => Z.of_nat (Ascii.nat_of_ascii c)) (String.list_ascii_of_string s).

(** State and exception: a method that mutates [self] and may raise. *)
Definition M (S A : Type) : Type := S -> S * result A.

Definition ret {S A} (a : A) : M S A := fun s => (s, Ok a).
Definition raise {S A} (e : exn) : M S A := fun s => (s, Raise e).
Definition bind {S A B} (m : M S A) (k : A -> M S B) : M S B :=
  fun s =>
    match m s with
    | (s', Ok a) => k a s'
    | (s', Raise e) => (s', Raise e)
    end.
(** A call that only reads [self]. *)
Definition lift {S A} (f : S -> result A) : M S A := fun s => (s, f s).

End Py.
Export Py.

Declare Scope py_scope.
Delimit Scope py_scope with py.
Notation "'do' x <- m ;; k" := (bind m (fun x => k))
  (at level 10, x name, m at level 99, k at level 200) : py_scope.
Notation "'run' m ;; k" := (bind m (fun _ => k))
  (at level 10, m at level 99, k at level 200) : py_scope.
Notation "'let?' x := r 'in' k" := (rbind r (fun x => k))
  (at level 10, x name, r at level 100, k at level 200).

(** ** Python lists of integers *)
Module PyList.

(** [l[i] = v] on a list: any value is stored. *)
Definition list_setitem {A} (l : list A) (i : Z) (v : A) : result (list A) :=
  let j := norm_index l i in
  if in_range j 0 (len l) then Ok (<[Z.to_nat j := v]> l)
  else Raise IndexError.

(** [l[lo:hi] = data] on a list. *)
Definition list_setslice {A} (l : list A) (lo hi : Z) (data : list A)
  : list A :=
  let lo' := clamp_index (len l) lo in
  let hi' := Z.max (clamp_index (len l) hi) lo' in
  take (Z.to_nat lo') l ++ data ++ drop (Z.to_nat hi') l.

(** [l.index(v)] *)
Fixpoint list_index (l : list Z) (v : Z) : result Z :=
  match l with
  | [] => Raise ValueError
  | x :: r =>
      if x =? v then Ok 0 else let? i := list_index r v in Ok (i + 1)
  end.

End PyList.
Export PyList.

(** ** cpcimage.py: the pixel codec *)
Module cpcimage.

(** [encode_pixels(pixels)] *)
Definition encode_pixels (pixels : list Z) : result Z :=
  if negb ((len pixels =? 2) || (len pixels =? 4)) then
    Raise ImageListSizeError
  else
    let max_pixel_value := if len pixels =? 2 then 15 else 3 in
    if negb (forallb (fun p => in_range p 0 (max_pixel_value + 1)) pixels)
    then Raise ValueError
    else
      match pixels with
      | [p0; p1] =>
          let encoded_pixel :=
            Z.lor (Z.lor (Z.lor
              (Z.shiftr (Z.land p0 0x08) 2)
              (Z.shiftl (Z.land p0 0x04) 3))
              (Z.shiftl (Z.land p0 0x02) 2))
              (Z.shiftl (Z.land p0 0x01) 7) in
          Ok (Z.lor encoded_pixel
            (Z.lor (Z.lor (Z.lor
              (Z.shiftr (Z.land p1 0x08) 3)
              (Z.shiftl (Z.land p1 0x04) 2))
              (Z.shiftl (Z.land p1 0x02) 1))
              (Z.shiftl (Z.land p1 0x01) 6)))
      | [p0; p1; p2; p3] =>
          let e0 := Z.lor (Z.shiftl (Z.land p0 0x02) 2)
                          (Z.shiftl (Z.land p0 0x01) 7) in
          let e1 := Z.lor e0 (Z.lor (Z.shiftl (Z.land p1 0x02) 1)
                                    (Z.shiftl (Z.land p1 0x01) 6)) in
          let e2 := Z.lor e1 (Z.lor (Z.land p2 0x02)
                                    (Z.shiftl (Z.land p2 0x01) 5)) in
          Ok (Z.lor e2 (Z.lor (Z.shiftr (Z.land p3 0x02) 1)
                              (Z.shiftl (Z.land p3 0x01) 4)))
      | _ => Raise ImageListSizeError
      end.

(** [decode_pixels(byte, screen_mode)] *)
Definition decode_pixels (byte screen_mode : Z) : result (list Z) :=
  if negb (in_range byte 0 256) then Raise ValueError
  else if negb ((screen_mode =? 0) || (screen_mode =? 1)) then Raise ValueError
  else if screen_mode =? 0 then
    Ok [ Z.lor (Z.lor (Z.lor
           (Z.shiftl (Z.land byte 0x02) 2)
           (Z.shiftr (Z.land byte 0x20) 3))
           (Z.shiftr (Z.land byte 0x08) 2))
           (Z.shiftr (Z.land byte 0x80) 7);
         Z.lor (Z.lor (Z.lor
           (Z.shiftl (Z.land byte 0x01) 3)
           (Z.shiftr (Z.land byte 0x10) 2))
           (Z.shiftr (Z.land byte 0x04) 1))
           (Z.shiftr (Z.land byte 0x40) 6) ]
  else
    Ok [ Z.lor (Z.shiftr (Z.land byte 0x08) 2) (Z.shiftr (Z.land byte 0x80) 7);
         Z.lor (Z.shiftr (Z.land byte 0x04) 1) (Z.shiftr (Z.land byte 0x40) 6);
         Z.lor (Z.land byte 0x02) (Z.shiftr (Z.land byte 0x20) 5);
         Z.lor (Z.shiftl (Z.land byte 0x01) 1) (Z.shiftr (Z.land byte 0x10) 4) ].

(** [decode_pixels(encode_pixels(pixels), screen_mode)] *)
Definition roundtrip (pixels : list Z) (screen_mode : Z) : result (list Z) :=
  let? byte := encode_pixels pixels in decode_pixels byte screen_mode.

(** [encode_pixels(decode_pixels(byte, screen_mode))] *)
Definition decode_then_encode (byte screen_mode : Z) : result Z :=
  let? pixels := decode_pixels byte screen_mode in encode_pixels pixels.

(** The three-way test [<= 85], [<= 170], else, which the source writes
    out once per colour channel. *)
Definition quantize_channel (rgb : Z) : Z :=
  if rgb <=? 85 then 0 else if rgb <=? 170 then 1 else 2.

(** The loop [for palette_index in range(0, len(palette)//3)] of
    [convert_rgb_palette_to_cpc]. *)
Fixpoint convert_rgb_loop (palette cpc_palette : list Z) (indices : list Z)
  : result (list Z) :=
  match indices with
  | [] => Ok cpc_palette
  | palette_index :: rest =>
      let? rgb_red := getitem palette (palette_index * 3) in
      let cpc_red := quantize_channel rgb_red in
      let? rgb_green := getitem palette (palette_index * 3 + 1) in
      let cpc_green := quantize_channel rgb_green in
      let? rgb_blue := getitem palette (palette_index * 3 + 2) in
      let cpc_blue := quantize_channel rgb_blue in
      let? cpc_palette' :=
        list_setitem cpc_palette palette_index
          (cpc_blue + cpc_red * 3 + cpc_green * 9) in
      convert_rgb_loop palette cpc_palette' rest
  end.

(** [convert_rgb_palette_to_cpc(palette)] *)
Definition convert_rgb_palette_to_cpc (palette : list Z) : result (list Z) :=
  if negb (len palette mod 3 =? 0) then Raise ImageListSizeError
  else convert_rgb_loop palette (replicate 256 0) (seqZ 0 (len palette / 3)).

(** The test [== 0], [== 1], else, which the source writes out once
    per colour channel. *)
Definition channel_level (cpc : Z) : Z :=
  if cpc =? 0 then 0 else if cpc =? 1 then 128 else 255.

(** The loop [for palette_index in range(0, len(palette))] of
    [convert_cpc_palette_to_rgb]. *)
Fixpoint convert_cpc_loop (palette rgb_palette : list Z) (indices : list Z)
  : result (list Z) :=
  match indices with
  | [] => Ok rgb_palette
  | palette_index :: rest =>
      let? ink := getitem palette palette_index in
      let cpc_green := ink / 9 in
      let cpc_red := (ink - cpc_green * 9) / 3 in
      let cpc_blue := ink - cpc_green * 9 - cpc_red * 3 in
      let rgb_red := channel_level cpc_red in
      let rgb_green := channel_level cpc_green in
      let rgb_blue := channel_level cpc_blue in
      convert_cpc_loop palette
        (list_setslice rgb_palette (palette_index * 3)
           ((palette_index + 1) * 3) [rgb_red; rgb_green; rgb_blue])
        rest
  end.

(** [convert_cpc_palette_to_rgb(palette)] *)
Definition convert_cpc_palette_to_rgb (palette : list Z) : result (list Z) :=
  if negb (in_range (len palette) 1 17) then Raise ImageListSizeError
  else if negb (forallb (fun ink => in_range ink 0 27) palette) then
    Raise ValueError
  else
    convert_cpc_loop palette (replicate (Z.to_nat (len palette * 3)) 0)
      (seqZ 0 (len palette)).

End cpcimage.

(** ** Files, as the constructors read them *)
Module PyFile.

(** An open binary file: the bytes not yet read.  [read(n)] returns at
    most [n] bytes and advances; [read(-1)] reads to the end; any other
    negative [n] raises [ValueError] and reads nothing. *)
Definition file_read (n : Z) : M (list Z) (list Z) :=
  fun rest =>
    if n =? -1 then ([], Ok rest)
    else if n <? -1 then (rest, Raise ValueError)
    else (drop (Z.to_nat n) rest, Ok (take (Z.to_nat n) rest)).

(** [file.write(b)] appends to the bytes written so far. *)
Definition file_write (b : list Z) : M (list Z) unit :=
  fun written => (written ++ b, Ok tt).

End PyFile.
Export PyFile.

(** ** cpcdiskimage.py: extended DSK disk images *)
Module cpcdiskimage.

Record DiskImage : Type := mkDiskImage {
  header : list Z;
  track_info_block : list Z
}.

(** One entry of the list returned by [get_sector_info]: the tuple
    [(C, H, R, N, ST1, ST2, actual size)], fields 0 to 6. *)
Record SectorInfo : Type := mkSectorInfo {
  sec_C : Z;
  sec_H : Z;
  sec_R : Z;
  sec_N : Z;
  sec_ST1 : Z;
  sec_ST2 : Z;
  sec_size : Z
}.

Definition signature : list Z :=
  encode_ascii "EXTENDED CPC DSK File"%string ++ [13; 10].

(** [DiskImage(filepath)], on the contents of the file. *)
Definition init (file : list Z) : result DiskImage :=
  let st_size := len file in
  match file_read 256 file with
  | (_, Raise e) => Raise e
  | (dsk_file, Ok header) =>
      if negb (bool_decide (getslice header 0 23 = signature)) then
        Raise DiskFileFormatError
      else
        match file_read (st_size - 256) dsk_file with
        | (_, Raise e) => Raise e
        | (_, Ok track_info_block) =>
            Ok (mkDiskImage header track_info_block)
        end
  end.

(** The two [file.write] calls that store a disk image (patch.py). *)
Definition write (d : DiskImage) : list Z :=
  fst ((run file_write (header d) ;; file_write (track_info_block d))%py []).

Definition number_of_tracks (d : DiskImage) : result Z :=
  getitem (header d) 0x30.

Definition _validate_track_number (d : DiskImage) (track : Z) : result unit :=
  let? n := number_of_tracks d in
  if negb (in_range track 0 n) then Raise (InvalidTrackError track)
  else Ok tt.

Definition get_track_info_block_size (d : DiskImage) (track : Z) : result Z :=
  let? _ := _validate_track_number d track in
  let? b := getitem (header d) (0x34 + track) in
  Ok (b * 0x100).

(** The loop [for i in range(0, track)] that adds up the sizes. *)
Fixpoint sum_track_sizes (d : DiskImage) (tracks : list Z) (acc : Z)
  : result Z :=
  match tracks with
  | [] => Ok acc
  | i :: rest =>
      let? sz := get_track_info_block_size d i in
      sum_track_sizes d rest (acc + sz)
  end.

Definition get_track_info_block_offset (d : DiskImage) (track : Z)
  : result Z :=
  let? _ := _validate_track_number d track in
  let? sz := get_track_info_block_size d track in
  if sz =? 0 then Raise (TrackDataError track)
  else sum_track_sizes d (seqZ 0 track) 0.

(** The loop [for sector in range(0, number_of_sectors)] that reads the
    8-byte descriptors. *)
Fixpoint read_sector_infos (tib : list Z) (n : nat) (track_info_block_ptr : Z)
  : result (list SectorInfo) :=
  match n with
  | O => Ok []
  | S n' =>
      let? c := getitem tib track_info_block_ptr in
      let? h := getitem tib (track_info_block_ptr + 1) in
      let? r := getitem tib (track_info_block_ptr + 2) in
      let? n_ := getitem tib (track_info_block_ptr + 3) in
      let? st1 := getitem tib (track_info_block_ptr + 4) in
      let? st2 := getitem tib (track_info_block_ptr + 5) in
      let? lo := getitem tib (track_info_block_ptr + 6) in
      let? hi := getitem tib (track_info_block_ptr + 7) in
      let? rest := read_sector_infos tib n' (track_info_block_ptr + 8) in
      Ok (mkSectorInfo c h r n_ st1 st2 (lo + hi * 0x100) :: rest)
  end.

Definition get_sector_info (d : DiskImage) (track : Z)
  : result (list SectorInfo) :=
  let? _ := _validate_track_number d track in
  let? sz := get_track_info_block_size d track in
  if sz =? 0 then Ok []
  else
    let? off := get_track_info_block_offset d track in
    let? number_of_sectors := getitem (track_info_block d) (off + 0x15) in
    let? off' := get_track_info_block_offset d track in
    read_sector_infos (track_info_block d) (Z.to_nat number_of_sectors)
      (off' + 0x18).

(** The search loop of [read_sector]. *)
Fixpoint read_sector_loop (d : DiskImage) (track sector : Z)
    (sector_info : list SectorInfo) (sector_block_ptr : Z)
  : result (list Z) :=
  match sector_info with
  | [] => Raise (InvalidSectorError track sector)
  | si :: rest =>
      if sec_R si =? sector then
        Ok (getslice (track_info_block d) sector_block_ptr
              (sector_block_ptr + 128 * 2 ^ sec_N si))
      else read_sector_loop d track sector rest (sector_block_ptr + sec_size si)
  end.

Definition read_sector (d : DiskImage) (track sector : Z)
  : result (list Z) :=
  let? _ := _validate_track_number d track in
  let? sz := get_track_info_block_size d track in
  if sz =? 0 then Raise (TrackDataError track)
  else
    let? sector_info := get_sector_info d track in
    let? off := get_track_info_block_offset d track in
    read_sector_loop d track sector sector_info (off + 0x100).

(** [self.track_info_block[lo:hi] = data] *)
Definition set_track_info_block_slice (lo hi : Z) (data : list Z)
  : M DiskImage unit :=
  fun d =>
    match setslice (track_info_block d) lo hi data with
    | Ok tib => (mkDiskImage (header d) tib, Ok tt)
    | Raise e => (d, Raise e)
    end.

(** The search loop of [write_sector]. *)
Fixpoint write_sector_loop (track sector : Z) (data : list Z)
    (sector_info : list SectorInfo) (sector_block_ptr : Z)
  : M DiskImage unit :=
  match sector_info with
  | [] => raise (InvalidSectorError track sector)
  | si :: rest =>
      if sec_R si =? sector then
        if negb (len data =? sec_size si) then
          raise (SectorWriteError track sector)
        else
          set_track_info_block_slice sector_block_ptr
            (sector_block_ptr + len data) data
      else
        write_sector_loop track sector data rest
          (sector_block_ptr + sec_size si)
  end.

Definition write_sector (track sector : Z) (data : list Z)
  : M DiskImage unit :=
  (do _ <- lift (fun d => _validate_track_number d track) ;;
   do sz <- lift (fun d => get_track_info_block_size d track) ;;
   if sz =? 0 then raise (TrackDataError track)
   else
     do sector_info <- lift (fun d => get_sector_info d track) ;;
     do off <- lift (fun d => get_track_info_block_offset d track) ;;
     write_sector_loop track sector data sector_info (off + 0x100))%py.

End cpcdiskimage.

(** ** config.py: reading runs of sectors *)
Module config.
Import cpcdiskimage.

(** The loop [for i in range(0, number_of_sectors_to_read)] of
    [read_sectors]. *)
Fixpoint read_sectors_loop (dsk_image_file : DiskImage) (n : nat)
    (track sector : Z) (data : list Z) : result (list Z) :=
  match n with
  | O => Ok data
  | S n' =>
      let? payload := read_sector dsk_image_file track sector in
      let data := data ++ payload in
      let sector := sector + 1 in
      if 0x2f <? sector then
        read_sectors_loop dsk_image_file n' (track + 1) 0x21 data
      else read_sectors_loop dsk_image_file n' track sector data
  end.

(** [read_sectors(dsk_image_file, start_track, start_sector,
    number_of_sectors_to_read, reverse_data)] *)
Definition read_sectors (dsk_image_file : DiskImage)
    (start_track start_sector number_of_sectors_to_read : Z)
    (reverse_data : bool) : result (list Z) :=
  let? data :=
    read_sectors_loop dsk_image_file (Z.to_nat number_of_sectors_to_read)
      start_track start_sector [] in
  Ok (if reverse_data then rev data else data).

End config.

(** ** cpcsnapshot.py: version 2 snapshots *)
Module cpcsnapshot.

Record Snapshot : Type := mkSnapshot {
  header : list Z;
  memory : list Z
}.

(** Hardware ink value to firmware ink value. *)
Definition firmware_inks : list Z :=
  [13;27;19;25; 1; 7;10;16;28;29;24;26; 6; 8;15;17;
   30;31;18;20; 0; 2; 9;11; 4;22;21;23; 3; 5;12;14].

(** [self.header[i]] and [self.header[i] = v] *)
Definition header_get (i : Z) : M Snapshot Z :=
  lift (fun s => getitem (header s) i).

Definition header_set (i v : Z) : M Snapshot unit :=
  fun s =>
    match setitem (header s) i v with
    | Ok h => (mkSnapshot h (memory s), Ok tt)
    | Raise e => (s, Raise e)
    end.

Definition header_set_slice (lo hi : Z) (data : list Z) : M Snapshot unit :=
  fun s =>
    match setslice (header s) lo hi data with
    | Ok h => (mkSnapshot h (memory s), Ok tt)
    | Raise e => (s, Raise e)
    end.

Definition memory_set_slice (lo hi : Z) (data : list Z) : M Snapshot unit :=
  fun s =>
    match setslice (memory s) lo hi data with
    | Ok m => (mkSnapshot (header s) m, Ok tt)
    | Raise e => (s, Raise e)
    end.

Definition disable_interrupts : M Snapshot unit :=
  (do b <- header_get 0x1b ;;
   run header_set 0x1b (Z.land b 0xfe) ;;
   do b' <- header_get 0x1b ;;
   header_set 0x1c (Z.land b' 0xfe))%py.

Definition _validate_hardware_ink_colour (colour : Z) : bool :=
  if in_range colour 0 0x20 || in_range colour 0x40 0x60 then true else false.

Definition get_ink (ink : Z) : M Snapshot Z :=
  (do b <- header_get (ink + 0x2f) ;; ret (Z.land b 0x3f))%py.

Definition get_firmware_ink (ink : Z) : M Snapshot Z :=
  (do b <- header_get (ink + 0x2f) ;;
   lift (fun _ => getitem firmware_inks (Z.land b 0x3f)))%py.

(** [for x in xs: out[x] = f(x)], filling a list of the same length. *)
Fixpoint for_each {S A B} (f : A -> M S B) (xs : list A) : M S (list B) :=
  match xs with
  | [] => ret []
  | x :: rest =>
      (do y <- f x ;; do ys <- for_each f rest ;; ret (y :: ys))%py
  end.

Definition get_inks : M Snapshot (list Z) := for_each get_ink (seqZ 0 16).


Definition get_border : M Snapshot Z :=
  (do b <- header_get 0x3f ;; ret (Z.land b 0x3f))%py.

Definition set_ink (ink colour : Z) : M Snapshot unit :=
  if negb (in_range ink 0 16) then raise ValueError
  else if negb (in_range colour 0 32) then raise ValueError
  else header_set (ink + 0x2f) colour.

(** The loop [for ink in range(len(inks))] of [set_inks], from ink
    number [ink] on. *)
Fixpoint set_inks_loop (ink : Z) (inks : list Z) : M Snapshot unit :=
  match inks with
  | [] => ret tt
  | colour :: rest =>
      if negb (_validate_hardware_ink_colour colour) then raise ValueError
      else (run set_ink ink colour ;; set_inks_loop (ink + 1) rest)%py
  end.

Definition set_inks (inks : list Z) : M Snapshot unit :=
  if negb (in_range (len inks) 1 17) then raise (SnaListSizeError 1 16)
  else set_inks_loop 0 inks.

Definition set_border (colour : Z) : M Snapshot unit :=
  if negb (_validate_hardware_ink_colour colour) then raise ValueError
  else header_set 0x3f colour.

Definition set_screen_mode (screen_mode : Z) : M Snapshot unit :=
  if negb (in_range screen_mode 0 4) then raise ValueError
  else
    (do b <- header_get 0x40 ;;
     header_set 0x40 (Z.lor (Z.land b 0xfc) screen_mode))%py.

Definition disable_lower_rom : M Snapshot unit :=
  (do b <- header_get 0x40 ;;
   header_set 0x40 (Z.lor (Z.land b 0xfb) 0x04))%py.

Definition disable_upper_rom : M Snapshot unit :=
  (do b <- header_get 0x40 ;;
   header_set 0x40 (Z.lor (Z.land b 0xf7) 0x08))%py.

Definition get_crtc_register (register : Z) : M Snapshot Z :=
  if negb (in_range register 0 18) then raise ValueError
  else header_get (register + 0x43).

Definition set_crtc_register (register value : Z) : M Snapshot unit :=
  if negb (in_range register 0 18) then raise ValueError
  else if negb (in_range value 0 256) then raise ValueError
  else header_set (register + 0x43) value.

(** The loop [for register in range(len(registers))] of
    [set_crtc_registers], from register number [register] on. *)
Fixpoint set_crtc_registers_loop (register : Z) (registers : list Z)
  : M Snapshot unit :=
  match registers with
  | [] => ret tt
  | value :: rest =>
      if negb (in_range value 0 256) then raise ValueError
      else
        (run set_crtc_register register value ;;
         set_crtc_registers_loop (register + 1) rest)%py
  end.

Definition set_crtc_registers (registers : list Z) : M Snapshot unit :=
  if negb (in_range (len registers) 1 18) then raise (SnaListSizeError 1 18)
  else set_crtc_registers_loop 0 registers.

Definition get_ram_size : M Snapshot Z := header_get 0x6b.

Definition insert_bytes (bytes : list Z) (start_offset : Z)
  : M Snapshot unit :=
  fun s =>
    let end_offset := len bytes + start_offset - 1 in
    if (start_offset <? 0x10000) && (0x10000 <=? end_offset) then
      (s, Raise MemoryError)
    else if (0x10000 <=? start_offset) && (len (memory s) <=? end_offset) then
      (s, Raise MemoryError)
    else
      memory_set_slice start_offset (start_offset + len bytes) bytes s.

(** The body of [__init__] for a blank snapshot, run on the zeroed
    header and memory. *)
Definition init_blank (ram_size : Z) : M Snapshot unit :=
  (run header_set 0x10 2 ;;
   run header_set 0x6b ram_size ;;
   run header_set_slice 0 8 (encode_ascii "MV - SNA"%string) ;;
   run set_crtc_registers [63;40;46;142;38;0;25;30;0;7;0;0;48;0;192;0] ;;
   run set_inks (replicate 16 20) ;;
   run set_border 20 ;;
   run set_screen_mode 1 ;;
   run disable_lower_rom ;;
   run disable_upper_rom ;;
   run disable_interrupts ;;
   header_set 0x59 0x82)%py.

Definition zeroed (ram_size : Z) : Snapshot :=
  mkSnapshot (replicate 256 0) (replicate (Z.to_nat (ram_size * 1024)) 0).

(** [Snapshot(filepath, ram_size)]; [filepath] is [None] or the contents
    of the file. *)
Definition init (filepath : option (list Z)) (ram_size : Z)
  : result Snapshot :=
  if negb ((ram_size =? 64) || (ram_size =? 128)) then Raise ValueError
  else
    match filepath with
    | None =>
        match init_blank ram_size (zeroed ram_size) with
        | (s, Ok _) => Ok s
        | (_, Raise e) => Raise e
        end
    | Some file =>
        match file_read 256 file with
        | (_, Raise e) => Raise e
        | (sna_file, Ok header) =>
            if negb (bool_decide (getslice header 0 8
                                  = encode_ascii "MV - SNA"%string))
            then Raise SnaFileFormatError
            else
              let? version := getitem header 0x10 in
              if negb (version =? 2) then Raise SnaFileFormatError
              else
                match file_read (len file - 256) sna_file with
                | (_, Raise e) => Raise e
                | (_, Ok memory) => Ok (mkSnapshot header memory)
                end
        end
    end.

(** *** Z80 registers *)

Definition z80_registers_8bit : list string :=
  ["F"; "A"; "C"; "B"; "E"; "D"; "L"; "H"; "R"; "I";
   "F'"; "A'"; "C'"; "B'"; "E'"; "D'"; "L'"; "H'"]%string.

Definition z80_registers_16bit : list string :=
  ["AF"; "BC"; "DE"; "HL"; "IX"; "IY"; "SP"; "PC";
   "AF'"; "BC'"; "DE'"; "HL'"]%string.

(** [names.index(register)] and [register in names] *)
Fixpoint str_index (names : list string) (register : string) : result Z :=
  match names with
  | [] => Raise ValueError
  | x :: r =>
      if String.eqb x register then Ok 0
      else let? i := str_index r register in Ok (i + 1)
  end.

Definition str_in (register : string) (names : list string) : bool :=
  existsb (String.eqb register) names.

Definition _get_z80_register_offset (register : string) : result Z :=
  match str_index z80_registers_8bit register with
  | Ok register_index =>
      Ok (if register_index <=? 9 then register_index + 0x11
          else register_index + 0x1c)
  | Raise _ =>
      match str_index z80_registers_16bit register with
      | Ok register_index =>
          Ok (if register_index <=? 3 then register_index * 2 + 0x11
              else if register_index <=? 7 then register_index * 2 + 0x15
              else register_index * 2 + 0x16)
      | Raise _ => Raise InvalidZ80RegisterError
      end
  end.

Definition get_z80_register (register : string) : M Snapshot Z :=
  if str_in register z80_registers_8bit then
    (do offset <- lift (fun _ => _get_z80_register_offset register) ;;
     header_get offset)%py
  else if str_in register z80_registers_16bit then
    (do offset <- lift (fun _ => _get_z80_register_offset register) ;;
     do lo <- header_get offset ;;
     do hi <- header_get (offset + 1) ;;
     ret (lo + 256 * hi))%py
  else raise InvalidZ80RegisterError.

Definition set_z80_register (register : string) (value : Z)
  : M Snapshot unit :=
  fun s =>
    match _get_z80_register_offset register with
    | Raise _ => (s, Raise InvalidZ80RegisterError)
    | Ok offset =>
        if str_in register z80_registers_8bit then
          if negb (in_range value 0 256) then (s, Raise ValueError)
          else header_set offset value s
        else
          if negb (in_range value 0 65536) then (s, Raise ValueError)
          else
            (run header_set offset (value mod 256) ;;
             header_set (offset + 1) (value / 256))%py s
    end.

(** *** Interrupts *)

Definition enable_interrupts : M Snapshot unit :=
  (do b <- header_get 0x1b ;;
   run header_set 0x1b (Z.lor (Z.land b 0xfe) 0x01) ;;
   do b' <- header_get 0x1b ;;
   header_set 0x1c (Z.lor (Z.land b' 0xfe) 0x01))%py.

(** *** Firmware colours *)

Definition get_firmware_border : M Snapshot Z :=
  (do colour <- get_border ;;
   lift (fun _ => getitem firmware_inks colour))%py.

(** The source assigns the table index to the same header byte twice,
    in one chained assignment. *)
Definition set_firmware_ink (ink colour : Z) : M Snapshot unit :=
  if negb (in_range ink 0 16) then raise ValueError
  else if negb (in_range colour 0 32) then raise ValueError
  else
    (do hw <- lift (fun _ => list_index firmware_inks colour) ;;
     run header_set (ink + 0x2f) hw ;;
     header_set (ink + 0x2f) hw)%py.

(** The loop [for ink in range(len(inks))] of [set_firmware_inks]. *)
Fixpoint set_firmware_inks_loop (ink : Z) (inks : list Z) : M Snapshot unit :=
  match inks with
  | [] => ret tt
  | colour :: rest =>
      if negb (in_range colour 0 32) then raise ValueError
      else
        (do hw <- lift (fun _ => list_index firmware_inks colour) ;;
         run header_set (ink + 0x2f) hw ;;
         set_firmware_inks_loop (ink + 1) rest)%py
  end.

Definition set_firmware_inks (inks : list Z) : M Snapshot unit :=
  if negb (in_range (len inks) 1 17) then raise (SnaListSizeError 1 16)
  else set_firmware_inks_loop 0 inks.

Definition set_firmware_border (colour : Z) : M Snapshot unit :=
  if negb (_validate_hardware_ink_colour colour) then raise ValueError
  else
    (do hw <- lift (fun _ => list_index firmware_inks colour) ;;
     header_set 0x3f hw)%py.

(** *** Screen mode, ROMs, machine type *)

Definition get_screen_mode : M Snapshot Z :=
  (do b <- header_get 0x40 ;; ret (Z.land b 0x03))%py.

(** Truth of an integer used as a condition. *)
Definition truthy (v : Z) : bool := negb (v =? 0).

Definition get_rom_status : M Snapshot (bool * bool) :=
  (do b <- header_get 0x40 ;;
   let lower_rom_enabled := if truthy (Z.land b 0x04) then false else true in
   do b' <- header_get 0x40 ;;
   let upper_rom_enabled := if truthy (Z.land b' 0x08) then false else true in
   ret (lower_rom_enabled, upper_rom_enabled))%py.

Definition enable_lower_rom : M Snapshot unit :=
  (do b <- header_get 0x40 ;; header_set 0x40 (Z.land b 0xfb))%py.

Definition enable_upper_rom : M Snapshot unit :=
  (do b <- header_get 0x40 ;; header_set 0x40 (Z.land b 0xf7))%py.

Definition get_upper_rom_number : M Snapshot Z := header_get 0x55.

Definition set_upper_rom_number (upper_rom_number : Z) : M Snapshot unit :=
  if negb (in_range upper_rom_number 0 256) then raise ValueError
  else header_set 0x55 upper_rom_number.

Definition get_machine_type : M Snapshot Z := header_get 0x6d.

Definition set_machine_type (machine_type : Z) : M Snapshot unit :=
  if negb (in_range machine_type 0 3) then raise ValueError
  else header_set 0x6d machine_type.

Definition get_crtc_registers : M Snapshot (list Z) :=
  for_each get_crtc_register (seqZ 0 18).

(** *** Files *)

(** [insert_file(filepath, start_offset)], on the contents of the file. *)
Definition insert_file (file : list Z) (start_offset : Z) : M Snapshot unit :=
  fun s =>
    let file_size := len file in
    let end_offset := file_size + start_offset - 1 in
    if len (memory s) <=? end_offset then (s, Raise MemoryError)
    else if (start_offset <? 0x10000) && (0x10000 <=? end_offset)
            && (0x10000 <=? len (memory s)) then (s, Raise MemoryError)
    else
      let end_offset := start_offset + file_size - 1 in
      match file_read file_size file with
      | (_, Raise e) => (s, Raise e)
      | (_, Ok contents) =>
          memory_set_slice start_offset (end_offset + 1) contents s
      end.

(** [write(filepath)]: the bytes written to the file. *)
Definition write (s : Snapshot) : list Z :=
  fst ((run file_write (header s) ;; file_write (memory s))%py []).

End cpcsnapshot.

(** ** Layout helpers and sample containers used to state the results *)
Module Samples.
Import cpcdiskimage.

(** Bytes of sector data that lie before the data of the sector whose
    descriptor follows [pre]: the sum of the sizes declared by [pre]. *)
Definition sizes_before (pre : list SectorInfo) : Z :=
  foldr (fun si acc => sec_size si + acc) 0 pre.

(** A disk information block with the given track count and per-track
    size bytes. *)
Definition disk_header (tracks : Z) (sizes : list Z) : list Z :=
  take 256 (signature ++ replicate (0x30 - 23) 0 ++ [tracks; 0; 0; 0]
            ++ sizes ++ replicate 256 0).

(** A track information block header announcing the given sector
    descriptors, each [C; H; R; N; ST1; ST2; size_lo; size_hi]. *)
Definition track_header (descriptors : list (list Z)) : list Z :=
  take 0x100 (replicate 0x15 0 ++ [len descriptors; 0; 0]
              ++ concat descriptors ++ replicate 0x100 0).

(** One track without data. *)
Definition file_empty_track : list Z := disk_header 1 [0].

(** Track 0 without data; track 1 with sectors 0x21 and 0x22 of 256
    bytes each. *)
Definition file_two_sectors : list Z :=
  disk_header 2 [0; 3]
  ++ track_header [[1; 0; 0x21; 1; 0; 0; 0x00; 0x01];
                   [1; 0; 0x22; 1; 0; 0; 0x00; 0x01]]
  ++ replicate 0x100 0x11 ++ replicate 0x100 0x22.

(** One track whose only sector has size code 6 (8192 bytes) and
    0x1800 bytes of stored data, as the extended format stores such
    sectors. *)
Definition file_size6_sector : list Z :=
  disk_header 1 [0x19]
  ++ track_header [[0; 0; 0xC1; 6; 0; 0; 0x00; 0x18]]
  ++ replicate 0x1800 0xE5.

(** One track with two sectors of 256 stored bytes each; the first
    carries size code 2 (512 bytes), the second size code 1. *)
Definition file_size_code_mismatch : list Z :=
  disk_header 1 [3]
  ++ track_header [[0; 0; 0x41; 2; 0; 0; 0x00; 0x01];
                   [0; 0; 0x42; 1; 0; 0; 0x00; 0x01]]
  ++ replicate 0x100 0xAA ++ replicate 0x100 0xBB.

(** Track 0 without data; track 1 with the sector 0x2f, the last of a
    track, and track 2 with the sector 0x21, the first of a track, of
    256 bytes each. *)
Definition file_track_boundary : list Z :=
  disk_header 3 [0; 2; 2]
  ++ track_header [[1; 0; 0x2f; 1; 0; 0; 0x00; 0x01]]
  ++ replicate 0x100 0x2f
  ++ track_header [[2; 0; 0x21; 1; 0; 0; 0x00; 0x01]]
  ++ replicate 0x100 0x21.

Definition image_of (file : list Z) : DiskImage :=
  mkDiskImage (take 256 file) (drop 256 file).

(** The blank 64 KiB snapshot, [Snapshot(ram_size=64)]. *)
Definition blank64 : cpcsnapshot.Snapshot :=
  fst (cpcsnapshot.init_blank 64 (cpcsnapshot.zeroed 64)).

(** The buffer [b] with the bytes from offset [off] on replaced by
    [data]. *)
Definition overwrite (b : list Z) (off : Z) (data : list Z) : list Z :=
  take (Z.to_nat off) b ++ data ++ drop (Z.to_nat (off + len data)) b.

(** The red, green and blue values that [convert_cpc_palette_to_rgb]
    stores for one firmware ink. *)
Definition ink_rgb (ink : Z) : list Z :=
  let cpc_green := ink / 9 in
  let cpc_red := (ink - cpc_green * 9) / 3 in
  let cpc_blue := ink - cpc_green * 9 - cpc_red * 3 in
  [cpcimage.channel_level cpc_red; cpcimage.channel_level cpc_green;
   cpcimage.channel_level cpc_blue].

(** The 16-bit register pairs that share their two header bytes with
    8-bit registers: pair, low half, high half. *)
Definition z80_register_pairs : list (string * string * string) :=
  [("AF", "F", "A"); ("BC", "C", "B"); ("DE", "E", "D"); ("HL", "L", "H");
   ("AF'", "F'", "A'"); ("BC'", "C'", "B'"); ("DE'", "E'", "D'");
   ("HL'", "L'", "H'")]%string.

(** The track and sector id that [read_sectors] reaches after [k]
    sectors, for sector ids 0x21 to 0x2f, fifteen to a track. *)
Definition sector_position (track sector k : Z) : Z * Z :=
  (track + (sector - 0x21 + k) / 15, 0x21 + (sector - 0x21 + k) mod 15).

End Samples.
Export Samples.

(** * Verification *)

(** ** Ranges and bytearray facts shared by the proofs *)
Section PyFacts.

Lemma in_range_spec (x lo hi : Z) :
  in_range x lo hi = true <-> lo <= x < hi.
Proof. unfold in_range. rewrite andb_true_iff, Z.leb_le, Z.ltb_lt. tauto. Qed.

Lemma in_range_false (x lo hi : Z) :
  in_range x lo hi = false <-> ~ (lo <= x < hi).
Proof. rewrite <- in_range_spec. destruct (in_range x lo hi); intuition congruence. Qed.

Lemma in_seqZ_range (x lo n : Z) :
  lo <= x < lo + n -> In x (seqZ lo n).
Proof. intros H. apply list_elem_of_In, elem_of_seqZ. lia. Qed.

End PyFacts.

(** ** Pixel codec *)
Section PixelCodec.
Import cpcimage.

Lemma roundtrip_mode0_table :
  forallb (fun l => forallb (fun r =>
    bool_decide (roundtrip [l; r] 0 = Ok [l; r])) (seqZ 0 16)) (seqZ 0 16)
  = true.
Proof. vm_compute. reflexivity. Qed.

Lemma roundtrip_mode1_table :
  forallb (fun p0 => forallb (fun p1 => forallb (fun p2 => forallb (fun p3 =>
    bool_decide (roundtrip [p0; p1; p2; p3] 1 = Ok [p0; p1; p2; p3]))
    (seqZ 0 4)) (seqZ 0 4)) (seqZ 0 4)) (seqZ 0 4)
  = true.
Proof. vm_compute. reflexivity. Qed.

Lemma roundtrip_mode0 (l r : Z) :
  0 <= l <= 15 -> 0 <= r <= 15 -> roundtrip [l; r] 0 = Ok [l; r].
Proof.
  intros Hl Hr.
  pose proof roundtrip_mode0_table as T.
  rewrite forallb_forall in T.
  specialize (T l (in_seqZ_range l 0 16 ltac:(lia))).
  rewrite forallb_forall in T.
  specialize (T r (in_seqZ_range r 0 16 ltac:(lia))).
  now apply bool_decide_eq_true in T.
Qed.

Lemma roundtrip_mode1 (p0 p1 p2 p3 : Z) :
  0 <= p0 <= 3 -> 0 <= p1 <= 3 -> 0 <= p2 <= 3 -> 0 <= p3 <= 3 ->
  roundtrip [p0; p1; p2; p3] 1 = Ok [p0; p1; p2; p3].
Proof.
  intros H0 H1 H2 H3.
  pose proof roundtrip_mode1_table as T.
  rewrite forallb_forall in T.
  specialize (T p0 (in_seqZ_range p0 0 4 ltac:(lia))).
  rewrite forallb_forall in T.
  specialize (T p1 (in_seqZ_range p1 0 4 ltac:(lia))).
  rewrite forallb_forall in T.
  specialize (T p2 (in_seqZ_range p2 0 4 ltac:(lia))).
  rewrite forallb_forall in T.
  specialize (T p3 (in_seqZ_range p3 0 4 ltac:(lia))).
  now apply bool_decide_eq_true in T.
Qed.

(** C3: decoding an encoded pixel list gives the list back, for two
    pixels in 0..15 in mode 0 and for four pixels in 0..3 in mode 1. *)
Theorem encode_decode_roundtrip :
  (forall pixels : list Z,
      length pixels = 2%nat -> Forall (fun p => 0 <= p <= 15) pixels ->
      roundtrip pixels 0 = Ok pixels)
  /\
  (forall pixels : list Z,
      length pixels = 4%nat -> Forall (fun p => 0 <= p <= 3) pixels ->
      roundtrip pixels 1 = Ok pixels).
Proof.
  split; intros pixels Hlen Hall.
  - destruct pixels as [|l [|r [|? ?]]]; try discriminate.
    inversion_clear Hall as [|? ? Hl Hall']. inversion_clear Hall' as [|? ? Hr _].
    now apply roundtrip_mode0.
  - destruct pixels as [|p0 [|p1 [|p2 [|p3 [|? ?]]]]]; try discriminate.
    repeat match goal with
           | H : Forall _ (_ :: _) |- _ => inversion_clear H
           end.
    now apply roundtrip_mode1.
Qed.

Lemma encode_decode_roundtrip_witness :
  roundtrip [9; 6] 0 = Ok [9; 6] /\ roundtrip [2; 0; 3; 1] 1 = Ok [2; 0; 3; 1].
Proof.
  split.
  - apply (proj1 encode_decode_roundtrip [9; 6]); [reflexivity|].
    repeat constructor; lia.
  - apply (proj2 encode_decode_roundtrip [2; 0; 3; 1]); [reflexivity|].
    repeat constructor; lia.
Defined.

End PixelCodec.

(** ** Slices of a buffer *)
Section Slices.

Lemma len_nonneg {A} (b : list A) : 0 <= len b.
Proof. unfold len. lia. Qed.

Lemma len_app {A} (a b : list A) : len (a ++ b) = len a + len b.
Proof. unfold len. rewrite length_app. lia. Qed.

Lemma getslice_nonneg {A} (b : list A) (lo hi : Z) :
  0 <= lo <= hi ->
  getslice b lo hi = take (Z.to_nat (hi - lo)) (drop (Z.to_nat lo) b).
Proof.
  intros H. unfold getslice, clamp_index, len.
  destruct (Z.ltb_spec lo 0); [lia|]. destruct (Z.ltb_spec hi 0); [lia|].
  destruct (Z.le_gt_cases (Z.of_nat (length b)) lo) as [Hge|Hlt].
  - rewrite (drop_ge b (Z.to_nat lo)) by lia.
    rewrite (drop_ge b (Z.to_nat (lo `min` _))) by lia.
    now rewrite !take_nil.
  - rewrite (Z.min_l lo) by lia.
    destruct (Z.le_gt_cases hi (Z.of_nat (length b))).
    + now rewrite (Z.min_l hi) by lia.
    + rewrite (Z.min_r hi) by lia.
      rewrite !take_ge; [reflexivity| |]; rewrite length_drop; lia.
Qed.

Lemma getslice_len {A} (b : list A) (lo hi : Z) :
  0 <= lo <= hi ->
  len (getslice b lo hi) = Z.min (hi - lo) (Z.max 0 (len b - lo)).
Proof.
  intros H. rewrite getslice_nonneg by done. unfold len.
  rewrite length_take, length_drop. lia.
Qed.

Lemma setslice_nonneg (b data : list Z) (lo hi : Z) :
  0 <= lo <= hi -> forallb is_byte data = true ->
  setslice b lo hi data
  = Ok (take (Z.to_nat lo) b ++ data ++ drop (Z.to_nat hi) b).
Proof.
  intros H Hb. unfold setslice, clamp_index, len. rewrite Hb.
  destruct (Z.ltb_spec lo 0); [lia|]. destruct (Z.ltb_spec hi 0); [lia|].
  f_equal. f_equal; [|f_equal].
  - destruct (Z.le_gt_cases (Z.of_nat (length b)) lo).
    + rewrite !take_ge; [reflexivity|lia|lia].
    + now rewrite Z.min_l by lia.
  - destruct (Z.le_gt_cases hi (Z.of_nat (length b))).
    + f_equal. lia.
    + rewrite !drop_ge; [reflexivity|lia|lia].
Qed.

(** Writing [data] over a slice of its own length that lies inside the
    buffer keeps the length of the buffer. *)
Lemma overwrite_len (b data : list Z) (lo : Z) :
  0 <= lo -> lo + len data <= len b ->
  len (take (Z.to_nat lo) b ++ data ++ drop (Z.to_nat (lo + len data)) b)
  = len b.
Proof.
  intros H0 H1. unfold len in *.
  rewrite !length_app, length_take, length_drop. lia.
Qed.

End Slices.

(** ** Disk images: construction and serialisation *)
Section DiskImageFile.
Import cpcdiskimage.

Lemma file_read_all (file : list Z) :
  255 <= len file ->
  snd (file_read (len file - 256) (drop 256 file)) = Ok (drop 256 file).
Proof.
  intros Hlen. unfold file_read, len in *.
  destruct (Z.eqb_spec (Z.of_nat (length file) - 256) (-1)) as [He|Hne];
    [reflexivity|].
  destruct (Z.ltb_spec (Z.of_nat (length file) - 256) (-1)); [lia|].
  cbn [snd]. f_equal. apply take_ge. rewrite length_drop. lia.
Qed.

Lemma file_read_too_short (file : list Z) :
  len file < 255 ->
  snd (file_read (len file - 256) (drop 256 file)) = Raise ValueError.
Proof.
  intros Hlen. unfold file_read, len in *.
  destruct (Z.eqb_spec (Z.of_nat (length file) - 256) (-1)); [lia|].
  destruct (Z.ltb_spec (Z.of_nat (length file) - 256) (-1)); [|lia].
  reflexivity.
Qed.

Lemma file_read_header (file : list Z) :
  file_read 256 file = (drop 256 file, Ok (take 256 file)).
Proof. reflexivity. Qed.

Lemma header_signature (file : list Z) :
  getslice (take 256 file) 0 23 = take 23 file.
Proof.
  rewrite getslice_nonneg by lia. change (Z.to_nat (23 - 0)) with 23%nat.
  change (Z.to_nat 0) with 0%nat. now rewrite drop_0, take_take.
Qed.

(** What the constructor does with a stream, by signature and length. *)
Lemma init_cases (file : list Z) :
  init file
  = if negb (bool_decide (take 23 file = signature)) then
      Raise DiskFileFormatError
    else if len file <? 255 then Raise ValueError
    else Ok (mkDiskImage (take 256 file) (drop 256 file)).
Proof.
  unfold init. rewrite file_read_header, header_signature.
  destruct (negb _); [reflexivity|].
  destruct (Z.ltb_spec (len file) 255) as [Hshort|Hlong].
  - pose proof (file_read_too_short file Hshort) as R.
    destruct (file_read _ _) as [rest [tib|e]]; cbn [snd] in R; congruence.
  - pose proof (file_read_all file Hlong) as R.
    destruct (file_read _ _) as [rest [tib|e]]; cbn [snd] in R; congruence.
Qed.

Lemma init_inv (file : list Z) (d : DiskImage) :
  init file = Ok d ->
  take 23 file = signature /\ 255 <= len file
  /\ d = mkDiskImage (take 256 file) (drop 256 file).
Proof.
  rewrite init_cases.
  destruct (bool_decide (take 23 file = signature)) eqn:E;
    cbn [negb]; [|discriminate].
  apply bool_decide_eq_true in E.
  destruct (Z.ltb_spec (len file) 255); [discriminate|].
  intros [= <-]. auto.
Qed.

Lemma write_header_then_tracks (d : DiskImage) :
  write d = header d ++ track_info_block d.
Proof. reflexivity. Qed.

(** C4: a stream the constructor accepts is given back byte for byte
    by writing the header and then the track information block of the
    freshly built image, the header being the first 256 bytes of the
    stream and the track information block the rest.  The constructor
    accepts the streams that start with the 23-byte signature and are
    at least 255 bytes long; a shorter stream with the signature makes
    the second [read] raise [ValueError], a stream without it raises
    the file format error. *)
Theorem parse_then_write_is_identity :
  (forall (file : list Z) (d : DiskImage),
      init file = Ok d ->
      header d = take 256 file
      /\ track_info_block d = drop 256 file
      /\ write d = file)
  /\
  (forall file : list Z,
      take 23 file = signature -> 255 <= len file ->
      exists d, init file = Ok d /\ write d = file)
  /\
  (forall (file : list Z) (d : DiskImage),
      init file = Ok d -> take 23 file = signature /\ 255 <= len file)
  /\
  (forall file : list Z,
      take 23 file = signature -> len file < 255 ->
      init file = Raise ValueError)
  /\
  (forall file : list Z,
      take 23 file <> signature -> init file = Raise DiskFileFormatError).
Proof.
  split; [|split; [|split; [|split]]].
  - intros file d H. apply init_inv in H as (_ & _ & ->).
    cbn [header track_info_block]. repeat split.
    rewrite write_header_then_tracks. apply take_drop.
  - intros file Hsig Hlen. eexists. split.
    + rewrite init_cases, bool_decide_eq_true_2 by exact Hsig. cbn [negb].
      destruct (Z.ltb_spec (len file) 255); [lia | reflexivity].
    + rewrite write_header_then_tracks. apply take_drop.
  - intros file d H. apply init_inv in H as (Hs & Hl & _). auto.
  - intros file Hsig Hlen.
    rewrite init_cases, bool_decide_eq_true_2 by exact Hsig. cbn [negb].
    destruct (Z.ltb_spec (len file) 255); [reflexivity | lia].
  - intros file Hsig.
    now rewrite init_cases, bool_decide_eq_false_2 by exact Hsig.
Qed.

End DiskImageFile.

Lemma parse_then_write_is_identity_witness :
  (cpcdiskimage.header (image_of file_two_sectors) = take 256 file_two_sectors
   /\ cpcdiskimage.track_info_block (image_of file_two_sectors)
      = drop 256 file_two_sectors
   /\ cpcdiskimage.write (image_of file_two_sectors) = file_two_sectors)
  /\ cpcdiskimage.init cpcdiskimage.signature = Raise ValueError.
Proof.
  split.
  - apply (proj1 parse_then_write_is_identity file_two_sectors).
    vm_compute. reflexivity.
  - apply (proj1 (proj2 (proj2 (proj2 parse_then_write_is_identity)))).
    + reflexivity.
    + vm_compute. reflexivity.
Defined.

(** ** Disk images: tracks with and without data *)
Section DiskImageTracks.
Import cpcdiskimage.
Context (d : DiskImage) (track n : Z).
Hypothesis Hcount : number_of_tracks d = Ok n.

Lemma validate_in_range :
  0 <= track < n -> _validate_track_number d track = Ok tt.
Proof.
  intros H. unfold _validate_track_number. rewrite Hcount. simpl.
  apply in_range_spec in H. now rewrite H.
Qed.

Lemma validate_out_of_range :
  ~ (0 <= track < n) ->
  _validate_track_number d track = Raise (InvalidTrackError track).
Proof.
  intros H. unfold _validate_track_number. rewrite Hcount. simpl.
  apply in_range_false in H. now rewrite H.
Qed.

Lemma size_in_range (b : Z) :
  0 <= track < n -> getitem (header d) (0x34 + track) = Ok b ->
  get_track_info_block_size d track = Ok (b * 0x100).
Proof.
  intros H Hb. unfold get_track_info_block_size.
  rewrite validate_in_range by done. simpl. now rewrite Hb.
Qed.

Lemma no_data_sector_info :
  0 <= track < n -> getitem (header d) (0x34 + track) = Ok 0 ->
  get_sector_info d track = Ok [].
Proof.
  intros H Hb. unfold get_sector_info.
  rewrite validate_in_range, (size_in_range 0) by done. reflexivity.
Qed.

Lemma no_data_read_sector (sector : Z) :
  0 <= track < n -> getitem (header d) (0x34 + track) = Ok 0 ->
  read_sector d track sector = Raise (TrackDataError track).
Proof.
  intros H Hb. unfold read_sector.
  rewrite validate_in_range, (size_in_range 0) by done. reflexivity.
Qed.

Lemma invalid_track_sector_info :
  ~ (0 <= track < n) ->
  get_sector_info d track = Raise (InvalidTrackError track).
Proof.
  intros H. unfold get_sector_info. now rewrite validate_out_of_range.
Qed.

Lemma invalid_track_read_sector (sector : Z) :
  ~ (0 <= track < n) ->
  read_sector d track sector = Raise (InvalidTrackError track).
Proof.
  intros H. unfold read_sector. now rewrite validate_out_of_range.
Qed.

End DiskImageTracks.

(** C8: on a track inside the track count whose size byte is zero the
    sector list is empty and every read fails with "track has no data";
    a track outside the track count fails with "invalid track" in both
    operations. *)
Theorem empty_track_is_not_an_error
    (d : cpcdiskimage.DiskImage) (track n : Z) :
  cpcdiskimage.number_of_tracks d = Ok n ->
  (0 <= track < n ->
   getitem (cpcdiskimage.header d) (0x34 + track) = Ok 0 ->
   cpcdiskimage.get_sector_info d track = Ok []
   /\ forall sector,
        cpcdiskimage.read_sector d track sector
        = Raise (TrackDataError track))
  /\
  (~ (0 <= track < n) ->
   cpcdiskimage.get_sector_info d track = Raise (InvalidTrackError track)
   /\ forall sector,
        cpcdiskimage.read_sector d track sector
        = Raise (InvalidTrackError track)).
Proof.
  intros Hcount. split.
  - intros H Hb. split.
    + eapply no_data_sector_info; eauto.
    + intros sector. eapply no_data_read_sector; eauto.
  - intros H. split.
    + eapply invalid_track_sector_info; eauto.
    + intros sector. eapply invalid_track_read_sector; eauto.
Qed.

Lemma empty_track_is_not_an_error_witness :
  (cpcdiskimage.get_sector_info (image_of file_empty_track) 0 = Ok []
   /\ forall sector,
        cpcdiskimage.read_sector (image_of file_empty_track) 0 sector
        = Raise (TrackDataError 0))
  /\
  (cpcdiskimage.get_sector_info (image_of file_empty_track) 1
   = Raise (InvalidTrackError 1)
   /\ forall sector,
        cpcdiskimage.read_sector (image_of file_empty_track) 1 sector
        = Raise (InvalidTrackError 1)).
Proof.
  split.
  - apply (proj1 (empty_track_is_not_an_error
                    (image_of file_empty_track) 0 1 eq_refl));
      [lia | reflexivity].
  - apply (proj2 (empty_track_is_not_an_error
                    (image_of file_empty_track) 1 1 eq_refl)).
    lia.
Defined.

(** ** Disk images: reading and writing a sector *)
Section DiskImageSectors.
Import cpcdiskimage.
Context (track sector : Z).

Lemma size_ok_validate (d : DiskImage) (sz : Z) :
  get_track_info_block_size d track = Ok sz ->
  _validate_track_number d track = Ok tt.
Proof.
  unfold get_track_info_block_size.
  destruct (_validate_track_number d track) as [[]|e]; simpl;
    [reflexivity | discriminate].
Qed.

Lemma sector_info_ok_offset (d : DiskImage) (sz : Z) infos :
  get_track_info_block_size d track = Ok sz -> sz <> 0 ->
  get_sector_info d track = Ok infos ->
  exists off, get_track_info_block_offset d track = Ok off.
Proof.
  intros Hsz Hnz. unfold get_sector_info.
  rewrite (size_ok_validate d sz Hsz), Hsz. simpl.
  apply Z.eqb_neq in Hnz. rewrite Hnz.
  destruct (get_track_info_block_offset d track) as [off|e]; simpl;
    [eauto | discriminate].
Qed.

Lemma read_sector_loop_found (d : DiskImage) pre si post :
  Forall (fun x => sec_R x <> sector) pre -> sec_R si = sector ->
  forall ptr,
    read_sector_loop d track sector (pre ++ si :: post) ptr
    = Ok (getslice (track_info_block d) (ptr + sizes_before pre)
            (ptr + sizes_before pre + 128 * 2 ^ sec_N si)).
Proof.
  intros Hpre Hsi. induction Hpre as [|x pre Hx _ IH]; intros ptr; simpl.
  - apply Z.eqb_eq in Hsi. rewrite Hsi, Z.add_0_r. reflexivity.
  - apply Z.eqb_neq in Hx. rewrite Hx, IH.
    now rewrite (Z.add_assoc ptr).
Qed.

Lemma write_sector_loop_found (data : list Z) pre si post :
  Forall (fun x => sec_R x <> sector) pre -> sec_R si = sector ->
  forall ptr d,
    write_sector_loop track sector data (pre ++ si :: post) ptr d
    = if len data =? sec_size si then
        set_track_info_block_slice (ptr + sizes_before pre)
          (ptr + sizes_before pre + len data) data d
      else (d, Raise (SectorWriteError track sector)).
Proof.
  intros Hpre Hsi. induction Hpre as [|x pre Hx _ IH]; intros ptr d; simpl.
  - apply Z.eqb_eq in Hsi. rewrite Hsi, Z.add_0_r.
    now destruct (len data =? sec_size si).
  - apply Z.eqb_neq in Hx. rewrite Hx, IH.
    now rewrite (Z.add_assoc ptr).
Qed.

Lemma set_slice_failure_unchanged lo hi data (d d' : DiskImage) e :
  set_track_info_block_slice lo hi data d = (d', Raise e) -> d' = d.
Proof.
  unfold set_track_info_block_slice.
  destruct (setslice _ _ _ _); intros [= ]; congruence.
Qed.

Lemma write_sector_loop_failure_unchanged (data : list Z) infos :
  forall ptr d d' e,
    write_sector_loop track sector data infos ptr d = (d', Raise e) ->
    d' = d.
Proof.
  induction infos as [|si infos IH]; intros ptr d d' e; simpl.
  - unfold raise. congruence.
  - destruct (sec_R si =? sector); [|apply IH].
    destruct (negb _).
    + unfold raise. congruence.
    + apply set_slice_failure_unchanged.
Qed.

(** A call that fails leaves the image as it was, whatever the track,
    the sector and the data. *)
Lemma write_sector_failure_unchanged (data : list Z) (d d' : DiskImage) e :
  write_sector track sector data d = (d', Raise e) -> d' = d.
Proof.
  unfold write_sector, bind, lift.
  destruct (_validate_track_number d track); [|congruence].
  destruct (get_track_info_block_size d track) as [sz|]; [|congruence].
  destruct (sz =? 0); [unfold raise; congruence|].
  destruct (get_sector_info d track); [|congruence].
  destruct (get_track_info_block_offset d track); [|congruence].
  apply write_sector_loop_failure_unchanged.
Qed.

Lemma read_sector_found (d : DiskImage) sz off pre si post :
  get_track_info_block_size d track = Ok sz -> sz <> 0 ->
  get_sector_info d track = Ok (pre ++ si :: post) ->
  get_track_info_block_offset d track = Ok off ->
  Forall (fun x => sec_R x <> sector) pre -> sec_R si = sector ->
  read_sector d track sector
  = Ok (getslice (track_info_block d) (off + 0x100 + sizes_before pre)
          (off + 0x100 + sizes_before pre + 128 * 2 ^ sec_N si)).
Proof.
  intros Hsz Hnz Hinfo Hoff Hpre Hsi. unfold read_sector.
  rewrite (size_ok_validate d sz Hsz), Hsz. simpl.
  apply Z.eqb_neq in Hnz. rewrite Hnz, Hinfo, Hoff. simpl.
  now apply read_sector_loop_found.
Qed.

Lemma write_sector_found (data : list Z) (d : DiskImage) sz off pre si post :
  get_track_info_block_size d track = Ok sz -> sz <> 0 ->
  get_sector_info d track = Ok (pre ++ si :: post) ->
  get_track_info_block_offset d track = Ok off ->
  Forall (fun x => sec_R x <> sector) pre -> sec_R si = sector ->
  write_sector track sector data d
  = if len data =? sec_size si then
      set_track_info_block_slice (off + 0x100 + sizes_before pre)
        (off + 0x100 + sizes_before pre + len data) data d
    else (d, Raise (SectorWriteError track sector)).
Proof.
  intros Hsz Hnz Hinfo Hoff Hpre Hsi. unfold write_sector, bind, lift.
  rewrite (size_ok_validate d sz Hsz), Hsz.
  apply Z.eqb_neq in Hnz. rewrite Hnz, Hinfo, Hoff.
  now apply write_sector_loop_found.
Qed.

End DiskImageSectors.

(** C6: on a track with data, for the first descriptor that carries the
    sector id, [write_sector] fails with the write-size error whenever
    the data length differs from the declared length; a failed call
    leaves the image unchanged; the call succeeds only for equal
    lengths, and then replaces exactly the bytes of that sector, in
    place. *)
Theorem write_sector_checks_length
    (d : cpcdiskimage.DiskImage) (track sector : Z) (data : list Z)
    (sz : Z) (pre post : list cpcdiskimage.SectorInfo)
    (si : cpcdiskimage.SectorInfo) :
  cpcdiskimage.get_track_info_block_size d track = Ok sz -> sz <> 0 ->
  cpcdiskimage.get_sector_info d track = Ok (pre ++ si :: post) ->
  Forall (fun x => cpcdiskimage.sec_R x <> sector) pre ->
  cpcdiskimage.sec_R si = sector ->
  exists off,
    cpcdiskimage.get_track_info_block_offset d track = Ok off
    /\ let tib := cpcdiskimage.track_info_block d in
       let ptr := off + 0x100 + sizes_before pre in
       (len data <> cpcdiskimage.sec_size si ->
        cpcdiskimage.write_sector track sector data d
        = (d, Raise (SectorWriteError track sector)))
       /\ (forall d' e,
            cpcdiskimage.write_sector track sector data d = (d', Raise e) ->
            d' = d)
       /\ (forall d',
            cpcdiskimage.write_sector track sector data d = (d', Ok tt) ->
            len data = cpcdiskimage.sec_size si)
       /\ (len data = cpcdiskimage.sec_size si ->
           forallb is_byte data = true -> 0 <= ptr ->
           cpcdiskimage.write_sector track sector data d
           = (cpcdiskimage.mkDiskImage (cpcdiskimage.header d)
                (take (Z.to_nat ptr) tib ++ data
                 ++ drop (Z.to_nat (ptr + len data)) tib), Ok tt)
           /\ (ptr + len data <= len tib ->
               len (take (Z.to_nat ptr) tib ++ data
                    ++ drop (Z.to_nat (ptr + len data)) tib) = len tib)).
Proof.
  intros Hsz Hnz Hinfo Hpre Hsi.
  destruct (sector_info_ok_offset track d sz _ Hsz Hnz Hinfo) as [off Hoff].
  exists off. split; [exact Hoff|]. cbv zeta.
  pose proof (write_sector_found track sector data d sz off pre si post
                Hsz Hnz Hinfo Hoff Hpre Hsi) as W.
  split; [|split; [|split]].
  - intros Hne. apply Z.eqb_neq in Hne. now rewrite W, Hne.
  - intros d' e. apply write_sector_failure_unchanged.
  - intros d' Hok. rewrite W in Hok.
    destruct (Z.eqb_spec (len data) (cpcdiskimage.sec_size si));
      [assumption | discriminate].
  - intros Heq Hbytes Hptr. split.
    + apply Z.eqb_eq in Heq. rewrite W, Heq.
      unfold cpcdiskimage.set_track_info_block_slice.
      rewrite setslice_nonneg; [reflexivity | | assumption].
      pose proof (len_nonneg data). lia.
    + intros Hfit. now apply overwrite_len.
Qed.

Lemma write_sector_checks_length_witness :
  let d := image_of file_two_sectors in
  cpcdiskimage.write_sector 1 0x22 [1; 2; 3] d
  = (d, Raise (SectorWriteError 1 0x22))
  /\ exists d',
       cpcdiskimage.write_sector 1 0x22 (replicate 0x100 9) d = (d', Ok tt)
       /\ len (cpcdiskimage.track_info_block d')
          = len (cpcdiskimage.track_info_block d).
Proof.
  intros d.
  destruct (write_sector_checks_length d 1 0x22 [1; 2; 3] 0x300
              [cpcdiskimage.mkSectorInfo 1 0 0x21 1 0 0 0x100] []
              (cpcdiskimage.mkSectorInfo 1 0 0x22 1 0 0 0x100))
    as (off & Hoff & Hbad & _);
    [reflexivity | lia | reflexivity | repeat constructor; simpl; lia
    | reflexivity |].
  destruct (write_sector_checks_length d 1 0x22 (replicate 0x100 9) 0x300
              [cpcdiskimage.mkSectorInfo 1 0 0x21 1 0 0 0x100] []
              (cpcdiskimage.mkSectorInfo 1 0 0x22 1 0 0 0x100))
    as (off' & Hoff' & _ & _ & _ & Hgood);
    [reflexivity | lia | reflexivity | repeat constructor; simpl; lia
    | reflexivity |].
  split.
  - apply Hbad. vm_compute. discriminate.
  - assert (off' = 0) as -> by (vm_compute in Hoff'; congruence).
    destruct Hgood as [Hw Hl];
      [reflexivity | reflexivity | vm_compute; discriminate |].
    eexists. split; [exact Hw|]. apply Hl. vm_compute. discriminate.
Defined.

(** C10, against the claim as stated: in an image whose only sector has
    size code 6 and 0x1800 stored bytes the two fields disagree, yet
    [read_sector] returns 0x1800 bytes, not 128 * 2^6, because the
    slice ends with the buffer. *)
Lemma read_sector_length_counterexample :
  let d := image_of file_size6_sector in
  cpcdiskimage.init file_size6_sector = Ok d
  /\ cpcdiskimage.get_sector_info d 0
     = Ok [cpcdiskimage.mkSectorInfo 0 0 0xC1 6 0 0 0x1800]
  /\ 128 * 2 ^ 6 <> 0x1800
  /\ exists payload,
       cpcdiskimage.read_sector d 0 0xC1 = Ok payload
       /\ len payload <> 128 * 2 ^ 6
       /\ len payload = 0x1800.
Proof.
  intros d. split; [reflexivity|]. split; [vm_compute; reflexivity|].
  split; [lia|]. exists (replicate 0x1800 0xE5).
  split; [vm_compute; reflexivity|]. split; [vm_compute; discriminate|].
  vm_compute. reflexivity.
Qed.

(** C10, amended: on a track with data, for the first descriptor that
    carries the sector id, [read_sector] returns the slice that starts
    where the declared sizes of the earlier descriptors end and spans
    128 * 2^N bytes, N being the size code, cut short where the buffer
    ends.  When the buffer holds all of these bytes the payload is
    128 * 2^N bytes long, hence of another length than the declared size
    whenever the two disagree, and its bytes beyond the declared size
    are the bytes stored from where the next sector's data begins. *)
Theorem read_sector_uses_size_code
    (d : cpcdiskimage.DiskImage) (track sector : Z)
    (sz : Z) (pre post : list cpcdiskimage.SectorInfo)
    (si : cpcdiskimage.SectorInfo) :
  cpcdiskimage.get_track_info_block_size d track = Ok sz -> sz <> 0 ->
  cpcdiskimage.get_sector_info d track = Ok (pre ++ si :: post) ->
  Forall (fun x => cpcdiskimage.sec_R x <> sector) pre ->
  cpcdiskimage.sec_R si = sector ->
  exists off,
    cpcdiskimage.get_track_info_block_offset d track = Ok off
    /\ let tib := cpcdiskimage.track_info_block d in
       let ptr := off + 0x100 + sizes_before pre in
       let coded := 128 * 2 ^ cpcdiskimage.sec_N si in
       let payload := getslice tib ptr (ptr + coded) in
       cpcdiskimage.read_sector d track sector = Ok payload
       /\ (0 <= ptr ->
           len payload = Z.min coded (Z.max 0 (len tib - ptr))
           /\ (ptr + coded <= len tib ->
               len payload = coded
               /\ (coded <> cpcdiskimage.sec_size si ->
                   len payload <> cpcdiskimage.sec_size si))
           /\ (0 <= cpcdiskimage.sec_size si <= coded ->
               drop (Z.to_nat (cpcdiskimage.sec_size si)) payload
               = getslice tib (ptr + cpcdiskimage.sec_size si)
                   (ptr + coded))).
Proof.
  intros Hsz Hnz Hinfo Hpre Hsi.
  destruct (sector_info_ok_offset track d sz _ Hsz Hnz Hinfo) as [off Hoff].
  exists off. split; [exact Hoff|]. cbv zeta.
  set (tib := cpcdiskimage.track_info_block d).
  set (ptr := off + 0x100 + sizes_before pre).
  set (coded := 128 * 2 ^ cpcdiskimage.sec_N si).
  assert (0 <= coded) as Hcoded.
  { unfold coded. pose proof (Z.pow_nonneg 2 (cpcdiskimage.sec_N si)). lia. }
  split.
  - now apply (read_sector_found track sector d sz off pre si post).
  - intros Hptr.
    assert (len (getslice tib ptr (ptr + coded))
            = Z.min coded (Z.max 0 (len tib - ptr))) as Hlen.
    { rewrite getslice_len by lia. f_equal. lia. }
    split; [exact Hlen|]. split.
    + intros Hfit. rewrite Hlen. split; [lia|]. intros Hne. lia.
    + intros Hsize. rewrite !getslice_nonneg by lia.
      rewrite skipn_firstn_comm, drop_drop. f_equal; [lia|]. f_equal. lia.
Qed.

Lemma read_sector_uses_size_code_witness :
  let d := image_of file_size_code_mismatch in
  let tib := cpcdiskimage.track_info_block d in
  let si := cpcdiskimage.mkSectorInfo 0 0 0x41 2 0 0 0x100 in
  let payload := getslice tib 0x100 (0x100 + 128 * 2 ^ 2) in
  128 * 2 ^ cpcdiskimage.sec_N si <> cpcdiskimage.sec_size si
  /\ cpcdiskimage.read_sector d 0 0x41 = Ok payload
  /\ payload = replicate 0x100 0xAA ++ replicate 0x100 0xBB
  /\ len payload = 128 * 2 ^ 2
  /\ len payload <> cpcdiskimage.sec_size si
  /\ drop (Z.to_nat (cpcdiskimage.sec_size si)) payload
     = getslice tib (0x100 + 0x100) (0x100 + 128 * 2 ^ 2)
  /\ cpcdiskimage.read_sector d 0 0x42
     = Ok (getslice tib (0x100 + 0x100) (0x100 + 128 * 2 ^ 2)).
Proof.
  intros d tib si payload.
  assert (128 * 2 ^ cpcdiskimage.sec_N si <> cpcdiskimage.sec_size si)
    as Hne by (vm_compute; discriminate).
  destruct (read_sector_uses_size_code d 0 0x41 0x300 []
              [cpcdiskimage.mkSectorInfo 0 0 0x42 1 0 0 0x100] si)
    as (off & Hoff & Hread & Hrest);
    [reflexivity | lia | reflexivity | constructor | reflexivity |].
  assert (off = 0) as -> by (vm_compute in Hoff; congruence).
  destruct Hrest as (_ & Hfit & Hdrop); [vm_compute; discriminate|].
  destruct Hfit as [Hlen Hdiff]; [vm_compute; discriminate|].
  split; [exact Hne|]. split; [exact Hread|].
  split; [vm_compute; reflexivity|]. split; [exact Hlen|].
  split; [exact (Hdiff Hne)|].
  split; [apply Hdrop; vm_compute; split; discriminate|].
  vm_compute. reflexivity.
Defined.

(** ** Snapshots: header bytes *)
Section SnapshotHeader.
Import cpcsnapshot.

Lemma init_blank64_ok : snd (init_blank 64 (zeroed 64)) = Ok tt.
Proof. vm_compute. reflexivity. Qed.

Lemma blank64_is_new : init None 64 = Ok blank64.
Proof.
  unfold init, blank64. pose proof init_blank64_ok as H.
  destruct (init_blank 64 (zeroed 64)) as [s r]. simpl in *.
  now rewrite H.
Qed.

Lemma blank64_memory_len : len (memory blank64) = 0x10000.
Proof. vm_compute. reflexivity. Qed.

Lemma blank64_header_len : len (header blank64) = 256.
Proof. vm_compute. reflexivity. Qed.

Lemma getitem_nonneg {A} (b : list A) (i : Z) (v : A) :
  0 <= i -> b !! Z.to_nat i = Some v -> getitem b i = Ok v.
Proof.
  intros Hi Hv. unfold getitem, norm_index.
  destruct (Z.ltb_spec i 0); [lia|].
  apply lookup_lt_Some in Hv as Hlt.
  assert (in_range i 0 (len b) = true) as ->
    by (apply in_range_spec; unfold len; lia).
  now rewrite Hv.
Qed.

Lemma getitem_inv {A} (b : list A) (i : Z) (v : A) :
  0 <= i -> getitem b i = Ok v -> b !! Z.to_nat i = Some v /\ i < len b.
Proof.
  intros Hi. unfold getitem, norm_index.
  destruct (Z.ltb_spec i 0); [lia|].
  destruct (in_range i 0 (len b)) eqn:E; [|discriminate].
  apply in_range_spec in E.
  destruct (b !! Z.to_nat i); [|discriminate].
  intros [= ->]. split; [reflexivity|lia].
Qed.

Lemma setitem_nonneg (b : list Z) (i v : Z) :
  0 <= i < len b -> 0 <= v < 256 ->
  setitem b i v = Ok (<[Z.to_nat i := v]> b).
Proof.
  intros Hi Hv. unfold setitem, norm_index, is_byte.
  destruct (Z.ltb_spec i 0); [lia|].
  apply in_range_spec in Hi, Hv. now rewrite Hi, Hv.
Qed.

Lemma header_set_nonneg (s : Snapshot) (i v : Z) :
  0 <= i < len (header s) -> 0 <= v < 256 ->
  header_set i v s
  = (mkSnapshot (<[Z.to_nat i := v]> (header s)) (memory s), Ok tt).
Proof.
  intros Hi Hv. unfold header_set. now rewrite setitem_nonneg.
Qed.

Lemma overwrite_nil (b : list Z) (off : Z) : overwrite b off [] = b.
Proof.
  unfold overwrite. change (len (@nil Z)) with 0. rewrite Z.add_0_r.
  apply take_drop.
Qed.

Lemma overwrite_cons (b : list Z) (k c : Z) (data : list Z) :
  0 <= k < len b ->
  overwrite (<[Z.to_nat k := c]> b) (k + 1) data = overwrite b k (c :: data).
Proof.
  intros Hk. unfold overwrite, len in *.
  replace (Z.to_nat (k + 1)) with (S (Z.to_nat k)) by lia.
  rewrite (take_S_r _ _ c) by (apply list_lookup_insert_eq; lia).
  rewrite take_insert_ge by lia.
  rewrite drop_insert_lt by lia.
  rewrite <- app_assoc. simpl. do 3 f_equal.
  f_equal. lia.
Qed.

End SnapshotHeader.

(** ** Snapshots: inks and CRTC registers *)
Section SnapshotSetters.
Import cpcsnapshot.

Lemma set_ink_stores (s : Snapshot) (ink colour : Z) :
  0 <= ink < 16 -> 0 <= colour < 32 -> ink + 0x2f < len (header s) ->
  set_ink ink colour s
  = (mkSnapshot (<[Z.to_nat (ink + 0x2f) := colour]> (header s)) (memory s),
     Ok tt).
Proof.
  intros Hi Hc Hh. unfold set_ink.
  rewrite (proj2 (in_range_spec ink 0 16) Hi).
  rewrite (proj2 (in_range_spec colour 0 32) Hc).
  simpl. apply header_set_nonneg; lia.
Qed.

Lemma set_ink_rejects (s : Snapshot) (ink colour : Z) :
  ~ (0 <= colour < 32) -> set_ink ink colour s = (s, Raise ValueError).
Proof.
  intros Hc. unfold set_ink. apply in_range_false in Hc as ->.
  now destruct (in_range ink 0 16).
Qed.

Lemma set_crtc_register_stores (s : Snapshot) (register value : Z) :
  0 <= register < 18 -> 0 <= value < 256 ->
  register + 0x43 < len (header s) ->
  set_crtc_register register value s
  = (mkSnapshot (<[Z.to_nat (register + 0x43) := value]> (header s))
       (memory s), Ok tt).
Proof.
  intros Hi Hc Hh. unfold set_crtc_register.
  rewrite (proj2 (in_range_spec register 0 18) Hi).
  rewrite (proj2 (in_range_spec value 0 256) Hc).
  simpl. apply header_set_nonneg; lia.
Qed.

(** The ink loop stores the colours it accepts one by one, then goes on
    with the rest of the list on the updated header. *)
Lemma set_inks_loop_app (pre rest : list Z) :
  Forall (fun c => 0 <= c < 32) pre ->
  forall ink s,
    0 <= ink -> ink + len pre <= 16 ->
    0x2f + ink + len pre <= len (header s) ->
    set_inks_loop ink (pre ++ rest) s
    = set_inks_loop (ink + len pre) rest
        (mkSnapshot (overwrite (header s) (0x2f + ink) pre) (memory s)).
Proof.
  induction 1 as [|c pre Hc _ IH]; intros ink s Hi Hn Hh.
  - rewrite overwrite_nil. change (len (@nil Z)) with 0.
    rewrite Z.add_0_r. now destruct s.
  - change (len (c :: pre)) with (Z.of_nat (S (length pre))) in *.
    assert (Z.of_nat (S (length pre)) = 1 + len pre) as E
      by (unfold len; lia).
    rewrite E in *. pose proof (len_nonneg pre).
    simpl. unfold _validate_hardware_ink_colour.
    assert (in_range c 0 32 = true) as -> by now apply in_range_spec.
    simpl. unfold bind at 1. rewrite set_ink_stores by lia.
    rewrite IH; simpl; [| lia | lia | unfold len in *; rewrite length_insert; lia].
    replace (ink + 0x2f) with (0x2f + ink) by lia.
    replace (0x2f + (ink + 1)) with (0x2f + ink + 1) by lia.
    rewrite overwrite_cons by lia.
    now replace (ink + 1 + len pre) with (ink + (1 + len pre)) by lia.
Qed.

Lemma set_crtc_registers_loop_app (pre rest : list Z) :
  Forall (fun c => 0 <= c < 256) pre ->
  forall register s,
    0 <= register -> register + len pre <= 18 ->
    0x43 + register + len pre <= len (header s) ->
    set_crtc_registers_loop register (pre ++ rest) s
    = set_crtc_registers_loop (register + len pre) rest
        (mkSnapshot (overwrite (header s) (0x43 + register) pre) (memory s)).
Proof.
  induction 1 as [|c pre Hc _ IH]; intros register s Hi Hn Hh.
  - rewrite overwrite_nil. change (len (@nil Z)) with 0.
    rewrite Z.add_0_r. now destruct s.
  - change (len (c :: pre)) with (Z.of_nat (S (length pre))) in *.
    assert (Z.of_nat (S (length pre)) = 1 + len pre) as E
      by (unfold len; lia).
    rewrite E in *. pose proof (len_nonneg pre).
    simpl.
    assert (in_range c 0 256 = true) as -> by now apply in_range_spec.
    simpl. unfold bind at 1. rewrite set_crtc_register_stores by lia.
    rewrite IH; simpl; [| lia | lia | unfold len in *; rewrite length_insert; lia].
    replace (register + 0x43) with (0x43 + register) by lia.
    replace (0x43 + (register + 1)) with (0x43 + register + 1) by lia.
    rewrite overwrite_cons by lia.
    now replace (register + 1 + len pre)
      with (register + (1 + len pre)) by lia.
Qed.

Lemma set_inks_loop_stops (x : Z) (post : list Z) (ink : Z) (s : Snapshot) :
  ~ (0 <= x < 32) ->
  set_inks_loop ink (x :: post) s = (s, Raise ValueError).
Proof.
  intros Hx. simpl. destruct (negb _); [reflexivity|].
  unfold bind. now rewrite set_ink_rejects.
Qed.

Lemma set_crtc_registers_loop_stops (x : Z) (post : list Z) (register : Z)
    (s : Snapshot) :
  ~ (0 <= x < 256) ->
  set_crtc_registers_loop register (x :: post) s = (s, Raise ValueError).
Proof.
  intros Hx. simpl. apply in_range_false in Hx as ->. reflexivity.
Qed.

End SnapshotSetters.

(** C1, at the failing input: a colour in the alternate 0x40-0x5F form,
    which the validation of hardware colours accepts, is refused by
    [set_ink] itself, so neither [set_ink 5 0x45] nor [set_inks [0x45]]
    stores anything, while [set_ink 5 0x05] stores 5 in ink 5. *)
Theorem set_ink_refuses_alternate_encoding :
  cpcsnapshot._validate_hardware_ink_colour 0x45 = true
  /\ (forall s, cpcsnapshot.set_ink 5 0x45 s = (s, Raise ValueError))
  /\ (forall s, cpcsnapshot.set_inks [0x45] s = (s, Raise ValueError))
  /\ snd (cpcsnapshot.set_ink 5 0x05 blank64) = Ok tt
  /\ snd (cpcsnapshot.get_ink 5
            (fst (cpcsnapshot.set_ink 5 0x05 blank64))) = Ok 5.
Proof.
  split; [reflexivity|]. split; [|split; [|split]].
  - intros s. apply set_ink_rejects. lia.
  - intros s. unfold cpcsnapshot.set_inks.
    change (negb (in_range (len [0x45]) 1 17)) with false. cbv iota.
    apply set_inks_loop_stops. lia.
  - vm_compute. reflexivity.
  - vm_compute. reflexivity.
Qed.

(** Lists of 1 to 17 byte values are stored, from register 0 on. *)
Lemma set_crtc_registers_accepts_up_to_17 (s : cpcsnapshot.Snapshot)
    (registers : list Z) :
  1 <= len registers <= 17 -> Forall (fun c => 0 <= c < 256) registers ->
  0x43 + len registers <= len (cpcsnapshot.header s) ->
  cpcsnapshot.set_crtc_registers registers s
  = (cpcsnapshot.mkSnapshot
       (overwrite (cpcsnapshot.header s) 0x43 registers)
       (cpcsnapshot.memory s), Ok tt).
Proof.
  intros Hlen Hall Hh. unfold cpcsnapshot.set_crtc_registers.
  assert (in_range (len registers) 1 18 = true) as ->
    by (apply in_range_spec; lia).
  cbn [negb]. rewrite <- (app_nil_r registers) at 1.
  rewrite set_crtc_registers_loop_app by (assumption || lia).
  reflexivity.
Qed.

Lemma set_crtc_registers_refuses_other_lengths (s : cpcsnapshot.Snapshot)
    (registers : list Z) :
  ~ (1 <= len registers <= 17) ->
  cpcsnapshot.set_crtc_registers registers s
  = (s, Raise (SnaListSizeError 1 18)).
Proof.
  intros Hlen. unfold cpcsnapshot.set_crtc_registers.
  assert (in_range (len registers) 1 18 = false) as ->
    by (apply in_range_false; lia).
  reflexivity.
Qed.

(** C5, at the failing input: a list of exactly 18 register values is
    refused with the list-size error, and no register is stored. *)
Theorem set_crtc_registers_refuses_18 (s : cpcsnapshot.Snapshot)
    (registers : list Z) :
  len registers = 18 ->
  cpcsnapshot.set_crtc_registers registers s
  = (s, Raise (SnaListSizeError 1 18)).
Proof.
  intros H. unfold cpcsnapshot.set_crtc_registers. rewrite H. reflexivity.
Qed.

Lemma set_crtc_registers_refuses_18_witness :
  cpcsnapshot.set_crtc_registers
    [63; 40; 46; 142; 38; 0; 25; 30; 0; 7; 0; 0; 48; 0; 192; 0; 0; 0] blank64
  = (blank64, Raise (SnaListSizeError 1 18)).
Proof. apply set_crtc_registers_refuses_18. reflexivity. Defined.

(** C2, against the claim as stated: with an invalid element in second
    place both bulk setters fail after they have stored the first
    element, so the header is no longer the one before the call. *)
Lemma bulk_setters_partial_counterexample :
  (snd (cpcsnapshot.set_inks [1; 99] blank64) = Raise ValueError
   /\ cpcsnapshot.header (fst (cpcsnapshot.set_inks [1; 99] blank64))
      <> cpcsnapshot.header blank64)
  /\
  (snd (cpcsnapshot.set_crtc_registers [1; 256] blank64) = Raise ValueError
   /\ cpcsnapshot.header
        (fst (cpcsnapshot.set_crtc_registers [1; 256] blank64))
      <> cpcsnapshot.header blank64).
Proof.
  split; (split; [vm_compute; reflexivity|]); intros H.
  - apply (f_equal (fun h => h !! 0x2f%nat)) in H. vm_compute in H.
    discriminate.
  - apply (f_equal (fun h => h !! 0x43%nat)) in H. vm_compute in H.
    discriminate.
Qed.

(** Overwriting a stretch of a buffer gives the buffer back exactly
    when the stretch already held the new bytes. *)
Lemma overwrite_same_iff (b data : list Z) (off : Z) :
  0 <= off -> off + len data <= len b ->
  overwrite b off data = b <-> getslice b off (off + len data) = data.
Proof.
  intros H0 Hfit. pose proof (len_nonneg data) as Hd.
  rewrite getslice_nonneg by lia.
  replace (Z.to_nat (off + len data - off)) with (length data)
    by (unfold len; lia).
  assert (b = take (Z.to_nat off) b
              ++ take (length data) (drop (Z.to_nat off) b)
              ++ drop (Z.to_nat (off + len data)) b) as Hb.
  { replace (Z.to_nat (off + len data))
      with (Z.to_nat off + length data)%nat by (unfold len; lia).
    rewrite <- drop_drop. now rewrite !take_drop. }
  unfold overwrite. split.
  - intros H. pose proof (eq_trans H Hb) as H'.
    apply app_inv_head in H'. apply app_inj_1 in H' as [H' _];
      [now symmetry|].
    rewrite length_take, length_drop. unfold len in *. lia.
  - intros E. etransitivity; [|symmetry; exact Hb]. now rewrite E.
Qed.

Lemma snapshot_same_iff (s : cpcsnapshot.Snapshot) (h : list Z) :
  cpcsnapshot.mkSnapshot h (cpcsnapshot.memory s) = s
  <-> h = cpcsnapshot.header s.
Proof.
  destruct s as [h0 m]. cbn. split; [intros [= ->] | intros ->]; reflexivity.
Qed.

(** C2, amended: when a list of accepted length holds an invalid
    element, and the elements before the first invalid one are
    hardware colours in 0..31 (inks) or bytes (registers), each bulk
    setter fails with a value error at that element, after it has
    stored the elements before it, in order from ink 0 or register 0
    on; no other header byte and no memory byte changes.  So the
    snapshot is unchanged exactly when the elements before the invalid
    one are the values already stored, as when the invalid element
    comes first. *)
Theorem bulk_setters_stop_at_first_invalid
    (s : cpcsnapshot.Snapshot) (pre post : list Z) (x : Z) :
  (Forall (fun c => 0 <= c < 32) pre ->
   ~ (0 <= x < 32) -> ~ (0x40 <= x < 0x60) ->
   len (pre ++ x :: post) <= 16 ->
   0x2f + len pre <= len (cpcsnapshot.header s) ->
   let s' := cpcsnapshot.mkSnapshot
               (overwrite (cpcsnapshot.header s) 0x2f pre)
               (cpcsnapshot.memory s) in
   cpcsnapshot.set_inks (pre ++ x :: post) s = (s', Raise ValueError)
   /\ (s' = s
       <-> getslice (cpcsnapshot.header s) 0x2f (0x2f + len pre) = pre))
  /\
  (Forall (fun c => 0 <= c < 256) pre ->
   ~ (0 <= x < 256) ->
   len (pre ++ x :: post) <= 17 ->
   0x43 + len pre <= len (cpcsnapshot.header s) ->
   let s' := cpcsnapshot.mkSnapshot
               (overwrite (cpcsnapshot.header s) 0x43 pre)
               (cpcsnapshot.memory s) in
   cpcsnapshot.set_crtc_registers (pre ++ x :: post) s
   = (s', Raise ValueError)
   /\ (s' = s
       <-> getslice (cpcsnapshot.header s) 0x43 (0x43 + len pre) = pre)).
Proof.
  assert (len (pre ++ x :: post) = len pre + 1 + len post) as E.
  { rewrite len_app. unfold len. rewrite length_cons. lia. }
  pose proof (len_nonneg pre). pose proof (len_nonneg post).
  split.
  - intros Hpre Hx _ Hlen Hh. cbv zeta. split.
    + unfold cpcsnapshot.set_inks.
      assert (in_range (len (pre ++ x :: post)) 1 17 = true) as ->
        by (apply in_range_spec; lia).
      cbn [negb]. rewrite set_inks_loop_app by (assumption || lia).
      apply set_inks_loop_stops. exact Hx.
    + rewrite snapshot_same_iff. apply overwrite_same_iff; lia.
  - intros Hpre Hx Hlen Hh. cbv zeta. split.
    + unfold cpcsnapshot.set_crtc_registers.
      assert (in_range (len (pre ++ x :: post)) 1 18 = true) as ->
        by (apply in_range_spec; lia).
      cbn [negb]. rewrite set_crtc_registers_loop_app by (assumption || lia).
      apply set_crtc_registers_loop_stops. exact Hx.
    + rewrite snapshot_same_iff. apply overwrite_same_iff; lia.
Qed.

Lemma bulk_setters_stop_at_first_invalid_witness :
  (cpcsnapshot.set_inks [1; 99] blank64
   = (cpcsnapshot.mkSnapshot
        (overwrite (cpcsnapshot.header blank64) 0x2f [1])
        (cpcsnapshot.memory blank64), Raise ValueError)
   /\ cpcsnapshot.set_inks [20; 99] blank64 = (blank64, Raise ValueError)
   /\ cpcsnapshot.set_inks [99; 1] blank64 = (blank64, Raise ValueError))
  /\
  (cpcsnapshot.set_crtc_registers [1; 256] blank64
   = (cpcsnapshot.mkSnapshot
        (overwrite (cpcsnapshot.header blank64) 0x43 [1])
        (cpcsnapshot.memory blank64), Raise ValueError)
   /\ cpcsnapshot.set_crtc_registers [63; 256] blank64
      = (blank64, Raise ValueError)).
Proof.
  split; [split; [|split]|split].
  - apply (proj1 (bulk_setters_stop_at_first_invalid blank64 [1] [] 99));
      [repeat constructor; lia | lia | lia | vm_compute; discriminate
      | vm_compute; discriminate].
  - destruct (proj1 (bulk_setters_stop_at_first_invalid blank64 [20] [] 99))
      as [Hrun Hsame];
      [repeat constructor; lia | lia | lia | vm_compute; discriminate
      | vm_compute; discriminate |].
    cbn [app] in Hrun. rewrite Hrun.
    rewrite (proj2 Hsame); [reflexivity | vm_compute; reflexivity].
  - destruct (proj1 (bulk_setters_stop_at_first_invalid blank64 [] [1] 99))
      as [Hrun Hsame];
      [constructor | lia | lia | vm_compute; discriminate
      | vm_compute; discriminate |].
    cbn [app] in Hrun. rewrite Hrun.
    rewrite (proj2 Hsame); [reflexivity | vm_compute; reflexivity].
  - apply (proj2 (bulk_setters_stop_at_first_invalid blank64 [1] [] 256));
      [repeat constructor; lia | lia | vm_compute; discriminate
      | vm_compute; discriminate].
  - destruct (proj2 (bulk_setters_stop_at_first_invalid blank64 [63] [] 256))
      as [Hrun Hsame];
      [repeat constructor; lia | lia | vm_compute; discriminate
      | vm_compute; discriminate |].
    cbn [app] in Hrun. rewrite Hrun.
    rewrite (proj2 Hsame); [reflexivity | vm_compute; reflexivity].
Defined.

(** ** Snapshots: firmware colours *)
Section FirmwareInks.
Import cpcsnapshot.





End FirmwareInks.




(** ** Snapshots: inserting bytes into memory *)
Section InsertBytes.
Import cpcsnapshot.

Lemma overwrite_readback (b data : list Z) (off : Z) :
  0 <= off -> off + len data <= len b ->
  getslice (overwrite b off data) off (off + len data) = data.
Proof.
  intros H0 H1. pose proof (len_nonneg data).
  rewrite getslice_nonneg by lia. unfold overwrite, len in *.
  rewrite drop_app_length' by (rewrite length_take; lia).
  apply take_app_length'. lia.
Qed.

Lemma overwrite_before (b data : list Z) (off : Z) :
  0 <= off -> off + len data <= len b ->
  take (Z.to_nat off) (overwrite b off data) = take (Z.to_nat off) b.
Proof.
  intros H0 H1. pose proof (len_nonneg data). unfold overwrite, len in *.
  apply take_app_length'. rewrite length_take. lia.
Qed.

Lemma overwrite_after (b data : list Z) (off : Z) :
  0 <= off -> off + len data <= len b ->
  drop (Z.to_nat (off + len data)) (overwrite b off data)
  = drop (Z.to_nat (off + len data)) b.
Proof.
  intros H0 H1. unfold overwrite, len in *. rewrite app_assoc.
  apply drop_app_length'. rewrite length_app, length_take. lia.
Qed.

Lemma insert_bytes_fails (s : Snapshot) (bytes : list Z) (start_offset : Z) :
  0x10000 <= len (memory s) ->
  (start_offset < 0x10000 /\ 0x10000 <= start_offset + len bytes - 1)
  \/ len (memory s) <= start_offset + len bytes - 1 ->
  insert_bytes bytes start_offset s = (s, Raise MemoryError).
Proof.
  intros Hm Hbad. unfold insert_bytes.
  replace (len bytes + start_offset - 1)
    with (start_offset + len bytes - 1) by lia.
  destruct (Z.ltb_spec start_offset 0x10000);
    destruct (Z.leb_spec 0x10000 (start_offset + len bytes - 1));
    destruct (Z.leb_spec 0x10000 start_offset);
    destruct (Z.leb_spec (len (memory s)) (start_offset + len bytes - 1));
    simpl; try reflexivity; lia.
Qed.

Lemma insert_bytes_stores (s : Snapshot) (bytes : list Z) (start_offset : Z) :
  0 <= start_offset -> forallb is_byte bytes = true ->
  ~ (start_offset < 0x10000 /\ 0x10000 <= start_offset + len bytes - 1) ->
  start_offset + len bytes - 1 < len (memory s) ->
  insert_bytes bytes start_offset s
  = (mkSnapshot (header s) (overwrite (memory s) start_offset bytes), Ok tt).
Proof.
  intros H0 Hb Hcross Hfit. unfold insert_bytes.
  replace (len bytes + start_offset - 1)
    with (start_offset + len bytes - 1) by lia.
  pose proof (len_nonneg bytes).
  destruct (Z.ltb_spec start_offset 0x10000);
    destruct (Z.leb_spec 0x10000 (start_offset + len bytes - 1));
    destruct (Z.leb_spec 0x10000 start_offset);
    destruct (Z.leb_spec (len (memory s)) (start_offset + len bytes - 1));
    simpl; try lia;
    unfold memory_set_slice; rewrite setslice_nonneg by (lia || assumption);
    reflexivity.
Qed.

(** The bound on the memory matters: with less than 64 KiB of memory,
    as in a snapshot read from a truncated file, a range that ends
    below 0x10000 is not compared with the memory length, and the slice
    assignment makes the memory longer. *)
Lemma insert_bytes_short_memory_example :
  insert_bytes [1; 2; 3; 4] 14 (mkSnapshot (header blank64) (replicate 16 0))
  = (mkSnapshot (header blank64) (replicate 14 0 ++ [1; 2; 3; 4]), Ok tt).
Proof. vm_compute. reflexivity. Qed.

End InsertBytes.

(** C7, against the claim as stated: in the snapshot read from a file of
    256 + 16 bytes, four bytes at offset 14 end beyond the memory, yet
    [insert_bytes] accepts them and the memory grows from 16 to 18
    bytes; and in the blank 64 KiB snapshot three bytes at offset -1
    neither cross 0x10000 nor end beyond the memory, yet the memory
    grows by three bytes and its first two bytes are not written. *)
Lemma insert_bytes_unchecked_counterexample :
  (let file := cpcsnapshot.header blank64 ++ replicate 16 0 in
   exists s,
     cpcsnapshot.init (Some file) 64 = Ok s
     /\ len (cpcsnapshot.memory s) = 16
     /\ len (cpcsnapshot.memory s) <= 14 + len [1; 2; 3; 4] - 1
     /\ snd (cpcsnapshot.insert_bytes [1; 2; 3; 4] 14 s) = Ok tt
     /\ len (cpcsnapshot.memory
               (fst (cpcsnapshot.insert_bytes [1; 2; 3; 4] 14 s))) = 18)
  /\
  (~ (-1 < 0x10000 /\ 0x10000 <= -1 + len [1; 2; 3] - 1)
   /\ ~ (len (cpcsnapshot.memory blank64) <= -1 + len [1; 2; 3] - 1)
   /\ snd (cpcsnapshot.insert_bytes [1; 2; 3] (-1) blank64) = Ok tt
   /\ len (cpcsnapshot.memory
             (fst (cpcsnapshot.insert_bytes [1; 2; 3] (-1) blank64)))
      = 0x10000 + 3
   /\ getslice (cpcsnapshot.memory
                  (fst (cpcsnapshot.insert_bytes [1; 2; 3] (-1) blank64)))
               0 2 = [0; 0]).
Proof.
  split.
  - cbv zeta.
    exists (cpcsnapshot.mkSnapshot (cpcsnapshot.header blank64)
              (replicate 16 0)).
    split; [vm_compute; reflexivity|].
    split; [reflexivity|].
    split; [vm_compute; discriminate|].
    split; vm_compute; reflexivity.
  - rewrite blank64_memory_len.
    split; [intros [_ H]; vm_compute in H; now apply H|].
    split; [intros H; vm_compute in H; now apply H|].
    split; [vm_compute; reflexivity|].
    split; vm_compute; reflexivity.
Qed.

(** C7, amended: in a snapshot with at least 64 KiB of memory, for a
    buffer of bytes and an offset that is not negative, [insert_bytes]
    fails with the memory error and changes nothing when the range
    starts below 0x10000 and ends at or above it, or ends beyond the
    memory; otherwise it replaces exactly the bytes of the range, in
    place.  In the blank 64 KiB snapshot ten bytes at 0xFFFC are refused
    and ten bytes at 0xFFF0 are stored and read back. *)
Theorem insert_bytes_bounds :
  (forall (s : cpcsnapshot.Snapshot) (bytes : list Z) (start_offset : Z),
      0x10000 <= len (cpcsnapshot.memory s) -> 0 <= start_offset ->
      forallb is_byte bytes = true ->
      let last := start_offset + len bytes - 1 in
      let crosses := start_offset < 0x10000 /\ 0x10000 <= last in
      let exceeds := len (cpcsnapshot.memory s) <= last in
      (crosses \/ exceeds ->
       cpcsnapshot.insert_bytes bytes start_offset s = (s, Raise MemoryError))
      /\
      (~ (crosses \/ exceeds) ->
       let memory' := overwrite (cpcsnapshot.memory s) start_offset bytes in
       cpcsnapshot.insert_bytes bytes start_offset s
       = (cpcsnapshot.mkSnapshot (cpcsnapshot.header s) memory', Ok tt)
       /\ len memory' = len (cpcsnapshot.memory s)
       /\ getslice memory' start_offset (start_offset + len bytes) = bytes
       /\ take (Z.to_nat start_offset) memory'
          = take (Z.to_nat start_offset) (cpcsnapshot.memory s)
       /\ drop (Z.to_nat (start_offset + len bytes)) memory'
          = drop (Z.to_nat (start_offset + len bytes))
              (cpcsnapshot.memory s)))
  /\
  (forall ten : list Z,
      len ten = 10 -> forallb is_byte ten = true ->
      cpcsnapshot.insert_bytes ten 0xFFFC blank64
      = (blank64, Raise MemoryError)
      /\ exists s',
           cpcsnapshot.insert_bytes ten 0xFFF0 blank64 = (s', Ok tt)
           /\ getslice (cpcsnapshot.memory s') 0xFFF0 (0xFFF0 + 10) = ten
           /\ len (cpcsnapshot.memory s') = 0x10000).
Proof.
  split.
  - intros s bytes start_offset Hm H0 Hb last crosses exceeds.
    subst last crosses exceeds. split.
    + intros Hbad. now apply insert_bytes_fails.
    + intros Hgood. cbv zeta. pose proof (len_nonneg bytes).
      split; [apply insert_bytes_stores; (assumption || lia)|].
      split; [apply overwrite_len; lia|].
      split; [apply overwrite_readback; lia|].
      split; [apply overwrite_before; lia | apply overwrite_after; lia].
  - intros ten Hlen Hb. pose proof blank64_memory_len as Hm. split.
    + apply insert_bytes_fails; rewrite ?Hm, ?Hlen; lia.
    + eexists. split; [apply insert_bytes_stores; rewrite ?Hm, ?Hlen;
                        (assumption || lia)|].
      cbn [cpcsnapshot.memory]. rewrite <- Hlen. split.
      * apply overwrite_readback; rewrite ?Hm, ?Hlen; lia.
      * unfold overwrite. rewrite overwrite_len; rewrite ?Hm, ?Hlen; lia.
Qed.

Lemma insert_bytes_bounds_witness :
  cpcsnapshot.insert_bytes [1; 2; 3; 4; 5; 6; 7; 8; 9; 10] 0xFFFC blank64
  = (blank64, Raise MemoryError)
  /\ exists s',
       cpcsnapshot.insert_bytes [1; 2; 3; 4; 5; 6; 7; 8; 9; 10] 0xFFF0 blank64
       = (s', Ok tt)
       /\ getslice (cpcsnapshot.memory s') 0xFFF0 (0xFFF0 + 10)
          = [1; 2; 3; 4; 5; 6; 7; 8; 9; 10].
Proof.
  destruct (proj1 insert_bytes_bounds blank64 [1; 2; 3; 4; 5; 6; 7; 8; 9; 10]
              0xFFFC) as [Hfail _];
    [vm_compute; discriminate | lia | reflexivity |].
  destruct (proj1 insert_bytes_bounds blank64 [1; 2; 3; 4; 5; 6; 7; 8; 9; 10]
              0xFFF0) as [_ Hok];
    [vm_compute; discriminate | lia | reflexivity |].
  split.
  - apply Hfail. left. vm_compute. split; [reflexivity | discriminate].
  - destruct Hok as (Hins & _ & Hread & _).
    + intros [[_ Hc] | He].
      * vm_compute in Hc. now apply Hc.
      * vm_compute in He. now apply He.
    + eexists. split; [exact Hins | exact Hread].
Defined.

(** * Further properties of the code *)

(** ** Pixel codec: bytes, errors, decoding *)
Section PixelCodecMore.
Import cpcimage.

Lemma decode_then_encode_table :
  forallb (fun b =>
    bool_decide (decode_then_encode b 0 = Ok b)
    && bool_decide (decode_then_encode b 1 = Ok b)) (seqZ 0 256) = true.
Proof. vm_compute. reflexivity. Qed.

(** X1: every byte is the encoding of the pixels it decodes to, in
    mode 0 and in mode 1. *)
Theorem decode_encode_roundtrip (byte : Z) :
  0 <= byte <= 255 ->
  decode_then_encode byte 0 = Ok byte /\ decode_then_encode byte 1 = Ok byte.
Proof.
  intros Hb. pose proof decode_then_encode_table as T.
  rewrite forallb_forall in T.
  specialize (T byte (in_seqZ_range byte 0 256 ltac:(lia))).
  apply andb_true_iff in T as [T0 T1].
  split; now apply bool_decide_eq_true in T0, T1.
Qed.

Lemma decode_encode_roundtrip_witness :
  decode_then_encode 0xA5 0 = Ok 0xA5 /\ decode_then_encode 0xA5 1 = Ok 0xA5.
Proof. apply decode_encode_roundtrip. lia. Defined.

Lemma decode_pixels_table :
  forallb (fun b =>
    match decode_pixels b 0, decode_pixels b 1 with
    | Ok [l; r], Ok [p0; p1; p2; p3] =>
        in_range l 0 16 && in_range r 0 16 && in_range p0 0 4
        && in_range p1 0 4 && in_range p2 0 4 && in_range p3 0 4
    | _, _ => false
    end) (seqZ 0 256) = true.
Proof. vm_compute. reflexivity. Qed.

(** X2: [decode_pixels] gives two pixels in 0..15 in mode 0 and four
    pixels in 0..3 in mode 1 for every byte, and raises [ValueError]
    for a value that is not a byte or a mode other than 0 and 1. *)
Theorem decode_pixels_total (byte screen_mode : Z) :
  (0 <= byte <= 255 ->
   (exists l r, decode_pixels byte 0 = Ok [l; r]
                /\ 0 <= l <= 15 /\ 0 <= r <= 15)
   /\ (exists p0 p1 p2 p3,
         decode_pixels byte 1 = Ok [p0; p1; p2; p3]
         /\ 0 <= p0 <= 3 /\ 0 <= p1 <= 3 /\ 0 <= p2 <= 3 /\ 0 <= p3 <= 3))
  /\ (~ (0 <= byte <= 255) ->
      decode_pixels byte screen_mode = Raise ValueError)
  /\ (screen_mode <> 0 -> screen_mode <> 1 ->
      decode_pixels byte screen_mode = Raise ValueError).
Proof.
  split; [|split].
  - intros Hb. pose proof decode_pixels_table as T.
    rewrite forallb_forall in T.
    specialize (T byte (in_seqZ_range byte 0 256 ltac:(lia))).
    destruct (decode_pixels byte 0) as [[|l [|r [|? ?]]]|]; try discriminate.
    destruct (decode_pixels byte 1) as [[|p0 [|p1 [|p2 [|p3 [|? ?]]]]]|];
      try discriminate.
    rewrite !andb_true_iff, !in_range_spec in T.
    split; [exists l, r | exists p0, p1, p2, p3]; repeat split; lia.
  - intros Hb. unfold decode_pixels.
    assert (in_range byte 0 256 = false) as ->
      by (apply in_range_false; lia).
    reflexivity.
  - intros H0 H1. unfold decode_pixels.
    destruct (in_range byte 0 256); [|reflexivity].
    apply Z.eqb_neq in H0, H1. now rewrite H0, H1.
Qed.

Lemma decode_pixels_total_witness :
  (exists l r, decode_pixels 0xC3 0 = Ok [l; r]
               /\ 0 <= l <= 15 /\ 0 <= r <= 15)
  /\ decode_pixels 256 0 = Raise ValueError
  /\ decode_pixels 0xC3 2 = Raise ValueError.
Proof.
  split; [|split].
  - apply (proj1 (decode_pixels_total 0xC3 0)). lia.
  - apply (proj1 (proj2 (decode_pixels_total 256 0))). lia.
  - apply (proj2 (proj2 (decode_pixels_total 0xC3 2))); lia.
Defined.

Lemma roundtrip_ok_byte (pixels : list Z) (screen_mode : Z) :
  roundtrip pixels screen_mode = Ok pixels ->
  exists byte, encode_pixels pixels = Ok byte /\ 0 <= byte <= 255.
Proof.
  unfold roundtrip, rbind. intros R.
  destruct (encode_pixels pixels) as [byte|]; [|discriminate].
  exists byte. split; [reflexivity|]. unfold decode_pixels in R.
  destruct (in_range byte 0 256) eqn:E; [|discriminate].
  apply in_range_spec in E. lia.
Qed.

(** X3: [encode_pixels] raises [ListSizeError] unless it is given two or
    four pixels, raises [ValueError] when a pixel is outside 0..15 (two
    pixels) or 0..3 (four pixels), and otherwise returns a byte. *)
Theorem encode_pixels_checks (pixels : list Z) :
  (length pixels <> 2%nat -> length pixels <> 4%nat ->
   encode_pixels pixels = Raise ImageListSizeError)
  /\ (length pixels = 2%nat -> ~ Forall (fun p => 0 <= p <= 15) pixels ->
      encode_pixels pixels = Raise ValueError)
  /\ (length pixels = 4%nat -> ~ Forall (fun p => 0 <= p <= 3) pixels ->
      encode_pixels pixels = Raise ValueError)
  /\ ((length pixels = 2%nat /\ Forall (fun p => 0 <= p <= 15) pixels)
      \/ (length pixels = 4%nat /\ Forall (fun p => 0 <= p <= 3) pixels) ->
      exists byte, encode_pixels pixels = Ok byte /\ 0 <= byte <= 255).
Proof.
  assert (forall m, ~ Forall (fun p => 0 <= p <= m) pixels ->
            forallb (fun p => in_range p 0 (m + 1)) pixels = false) as Hneg.
  { intros m Hn. destruct (forallb _ pixels) eqn:E; [|reflexivity].
    exfalso. apply Hn. rewrite forallb_forall in E. apply Forall_forall.
    intros p Hp. specialize (E p Hp).
    apply in_range_spec in E. lia. }
  split; [|split; [|split]].
  - intros H2 H4. unfold encode_pixels, len.
    destruct (Z.eqb_spec (Z.of_nat (length pixels)) 2); [lia|].
    destruct (Z.eqb_spec (Z.of_nat (length pixels)) 4); [lia|].
    reflexivity.
  - intros H2 Hn. assert (len pixels = 2) as E by (unfold len; lia).
    unfold encode_pixels. rewrite E. change (2 =? 2) with true.
    cbn [orb negb]. cbv beta iota zeta. now rewrite (Hneg 15 Hn).
  - intros H4 Hn. assert (len pixels = 4) as E by (unfold len; lia).
    unfold encode_pixels. rewrite E. change (4 =? 4) with true.
    change (4 =? 2) with false.
    cbn [orb negb]. cbv beta iota zeta. now rewrite (Hneg 3 Hn).
  - intros [[Hlen Hall]|[Hlen Hall]].
    + destruct pixels as [|l [|r [|? ?]]]; try discriminate.
      inversion_clear Hall as [|? ? Hl Hall'].
      inversion_clear Hall' as [|? ? Hr _].
      apply (roundtrip_ok_byte _ 0). now apply roundtrip_mode0.
    + destruct pixels as [|p0 [|p1 [|p2 [|p3 [|? ?]]]]]; try discriminate.
      repeat match goal with
             | H : Forall _ (_ :: _) |- _ => inversion_clear H
             end.
      apply (roundtrip_ok_byte _ 1). now apply roundtrip_mode1.
Qed.

Lemma encode_pixels_checks_witness :
  encode_pixels [1; 2; 3] = Raise ImageListSizeError
  /\ encode_pixels [16; 0] = Raise ValueError
  /\ encode_pixels [0; 1; 2; 4] = Raise ValueError
  /\ exists byte, encode_pixels [15; 15] = Ok byte /\ 0 <= byte <= 255.
Proof.
  split; [|split; [|split]].
  - apply (proj1 (encode_pixels_checks [1; 2; 3])); simpl; lia.
  - apply (proj1 (proj2 (encode_pixels_checks [16; 0]))); [reflexivity|].
    intros H. inversion_clear H. lia.
  - apply (proj1 (proj2 (proj2 (encode_pixels_checks [0; 1; 2; 4]))));
      [reflexivity|].
    intros H. do 3 (inversion_clear H as [|? ? _ H']; rename H' into H).
    inversion_clear H. lia.
  - apply (proj2 (proj2 (proj2 (encode_pixels_checks [15; 15])))).
    left. split; [reflexivity|]. repeat constructor; lia.
Defined.

End PixelCodecMore.

(** ** Palette conversion *)
Section Palettes.
Import cpcimage.

Lemma getitem_app_at {A} (a b : list A) (j : Z) (v : A) :
  0 <= j -> b !! Z.to_nat j = Some v -> getitem (a ++ b) (len a + j) = Ok v.
Proof.
  intros Hj Hv. apply getitem_nonneg; [pose proof (len_nonneg a); lia|].
  unfold len. replace (Z.to_nat (Z.of_nat (length a) + j))
    with (length a + Z.to_nat j)%nat by lia.
  now rewrite lookup_app_r, Nat.add_comm, Nat.add_sub by lia.
Qed.

Lemma list_setslice_at {A} (a old new b : list A) :
  list_setslice (a ++ old ++ b) (len a) (len a + len old) new
  = a ++ new ++ b.
Proof.
  unfold list_setslice, clamp_index, len.
  rewrite !length_app.
  destruct (Z.ltb_spec (Z.of_nat (length a)) 0); [lia|].
  destruct (Z.ltb_spec (Z.of_nat (length a) + Z.of_nat (length old)) 0);
    [lia|].
  rewrite !Z.min_l, Z.max_l by lia.
  rewrite take_app_length' by lia.
  rewrite (app_assoc a old b), drop_app_length'; [reflexivity|].
  rewrite length_app. lia.
Qed.

Lemma seqZ_cons_len (k n : Z) :
  0 <= n -> seqZ k (1 + n) = k :: seqZ (k + 1) n.
Proof.
  intros Hn. rewrite seqZ_cons by lia. do 2 f_equal; lia.
Qed.

Lemma len_cons {A} (x : A) (l : list A) : len (x :: l) = 1 + len l.
Proof. unfold len. rewrite length_cons. lia. Qed.

Lemma flat_map_ink_rgb_len (p : list Z) : len (flat_map ink_rgb p) = 3 * len p.
Proof.
  induction p as [|x p IH]; [reflexivity|].
  change (flat_map ink_rgb (x :: p)) with (ink_rgb x ++ flat_map ink_rgb p).
  rewrite len_app, IH, len_cons. change (len (ink_rgb x)) with 3. lia.
Qed.

(** The loop of [convert_cpc_palette_to_rgb], once it has filled the
    slots of the inks [done], fills those of the inks [todo]. *)
Lemma convert_cpc_loop_fills (todo : list Z) :
  forall (done acc : list Z) (r : nat),
    len acc = 3 * len done ->
    convert_cpc_loop (done ++ todo)
      (acc ++ replicate (3 * length todo + r) 0)
      (seqZ (len done) (len todo))
    = Ok (acc ++ flat_map ink_rgb todo ++ replicate r 0).
Proof.
  induction todo as [|x todo IH]; intros done acc r Hacc.
  - reflexivity.
  - rewrite len_cons, seqZ_cons_len by apply len_nonneg.
    cbn [convert_cpc_loop].
    replace (len done) with (len done + 0) at 1 by lia.
    rewrite (getitem_app_at done (x :: todo) 0 x) by (reflexivity || lia).
    cbn [rbind].
    replace (3 * length (x :: todo) + r)%nat
      with (3 + (3 * length todo + r))%nat by (rewrite length_cons; lia).
    rewrite (replicate_add 3).
    change (replicate 3 0) with [0; 0; 0].
    replace (len done * 3) with (len acc) by lia.
    replace ((len done + 1) * 3) with (len acc + len [0; 0; 0])
      by (change (len [0; 0; 0]) with 3; lia).
    rewrite list_setslice_at.
    specialize (IH (done ++ [x]) (acc ++ ink_rgb x) r).
    rewrite <- !app_assoc in IH. cbn [app] in IH.
    replace (len (done ++ [x])) with (len done + 1) in IH
      by (rewrite len_app; reflexivity).
    change (flat_map ink_rgb (x :: todo))
      with (ink_rgb x ++ flat_map ink_rgb todo).
    rewrite <- app_assoc. apply IH.
    rewrite len_app. change (len (ink_rgb x)) with 3. lia.
Qed.

Lemma ink_rgb_table :
  forallb (fun ink =>
    match ink_rgb ink with
    | [r; g; b] =>
        (quantize_channel b + quantize_channel r * 3
         + quantize_channel g * 9 =? ink)
        && forallb (fun v => (v =? 0) || (v =? 128) || (v =? 255)) [r; g; b]
    | _ => false
    end) (seqZ 0 27) = true.
Proof. vm_compute. reflexivity. Qed.

Lemma ink_rgb_inverse (ink : Z) :
  0 <= ink <= 26 ->
  exists r g b, ink_rgb ink = [r; g; b]
    /\ quantize_channel b + quantize_channel r * 3 + quantize_channel g * 9
       = ink
    /\ Forall (fun v => v = 0 \/ v = 128 \/ v = 255) [r; g; b].
Proof.
  intros Hi. pose proof ink_rgb_table as T. rewrite forallb_forall in T.
  specialize (T ink (in_seqZ_range ink 0 27 ltac:(lia))).
  destruct (ink_rgb ink) as [|r [|g [|b [|? ?]]]]; try discriminate.
  apply andb_true_iff in T as [Tq Tv]. apply Z.eqb_eq in Tq.
  exists r, g, b. split; [reflexivity|]. split; [exact Tq|].
  rewrite forallb_forall in Tv. apply Forall_forall. intros v Hv.
  specialize (Tv v Hv). rewrite !orb_true_iff, !Z.eqb_eq in Tv. tauto.
Qed.

(** The loop of [convert_rgb_palette_to_cpc] on the colours of the inks
    [done ++ todo], once it has stored the inks [done], stores the inks
    [todo]. *)
Lemma convert_rgb_loop_restores (todo : list Z) :
  Forall (fun ink => 0 <= ink <= 26) todo ->
  forall (done : list Z) (r : nat),
    convert_rgb_loop (flat_map ink_rgb (done ++ todo))
      (done ++ replicate (length todo + r) 0)
      (seqZ (len done) (len todo))
    = Ok (done ++ todo ++ replicate r 0).
Proof.
  induction 1 as [|x todo Hx _ IH]; intros done r.
  - reflexivity.
  - rewrite len_cons, seqZ_cons_len by apply len_nonneg.
    destruct (ink_rgb_inverse x Hx) as (cr & cg & cb & Hrgb & Hq & _).
    rewrite flat_map_app. cbn [flat_map convert_rgb_loop]. rewrite Hrgb.
    pose proof (flat_map_ink_rgb_len done) as Hl.
    replace (len done * 3 + 1) with (len (flat_map ink_rgb done) + 1) by lia.
    replace (len done * 3 + 2) with (len (flat_map ink_rgb done) + 2) by lia.
    replace (len done * 3) with (len (flat_map ink_rgb done) + 0) by lia.
    rewrite (getitem_app_at _ _ 0 cr), (getitem_app_at _ _ 1 cg),
      (getitem_app_at _ _ 2 cb) by (reflexivity || lia).
    cbn [rbind]. rewrite Hq.
    unfold list_setitem, norm_index.
    destruct (Z.ltb_spec (len done) 0); [pose proof (len_nonneg done); lia|].
    assert (in_range (len done) 0
              (len (done ++ replicate (length (x :: todo) + r) 0)) = true)
      as ->.
    { apply in_range_spec. rewrite len_app. unfold len.
      rewrite length_replicate, length_cons. lia. }
    cbn [rbind].
    replace (<[Z.to_nat (len done) := x]>
               (done ++ replicate (length (x :: todo) + r) 0))
      with ((done ++ [x]) ++ replicate (length todo + r) 0).
    2:{ unfold len. rewrite Nat2Z.id, insert_app_r_alt by lia.
        rewrite Nat.sub_diag, <- app_assoc. reflexivity. }
    specialize (IH (done ++ [x]) r).
    rewrite <- !app_assoc in IH. cbn [app] in IH.
    rewrite flat_map_app in IH. cbn [flat_map] in IH. rewrite Hrgb in IH.
    replace (len (done ++ [x])) with (len done + 1) in IH
      by (rewrite len_app; reflexivity).
    rewrite <- !app_assoc. cbn [app]. exact IH.
Qed.

End Palettes.

Section PaletteTheorems.
Import cpcimage.

Lemma quantize_channel_range (v : Z) : 0 <= quantize_channel v <= 2.
Proof.
  unfold quantize_channel.
  destruct (v <=? 85); [lia|]. destruct (v <=? 170); lia.
Qed.

Lemma getitem_in_range {A} (l : list A) (i : Z) :
  0 <= i < len l -> exists v, getitem l i = Ok v.
Proof.
  intros Hi. unfold len in Hi.
  destruct (lookup_lt_is_Some_2 l (Z.to_nat i) ltac:(lia)) as [v Hv].
  exists v. apply getitem_nonneg; [lia | exact Hv].
Qed.

Lemma convert_rgb_loop_app (palette : list Z) (xs ys : list Z) :
  forall c,
    convert_rgb_loop palette c (xs ++ ys)
    = let? c' := convert_rgb_loop palette c xs in
      convert_rgb_loop palette c' ys.
Proof.
  induction xs as [|i xs IH]; intros c; [reflexivity|].
  cbn [app convert_rgb_loop].
  destruct (getitem palette (i * 3)); [|reflexivity].
  destruct (getitem palette (i * 3 + 1)); [|reflexivity].
  destruct (getitem palette (i * 3 + 2)); [|reflexivity].
  cbn [rbind]. destruct (list_setitem c i _); [|reflexivity].
  cbn [rbind]. apply IH.
Qed.

(** The loop of [convert_rgb_palette_to_cpc] over indices that lie in
    the palette and in the output keeps the length of the output,
    writes values in 0..26 and leaves the other entries alone. *)
Lemma convert_rgb_loop_inv (palette : list Z) (indices : list Z) :
  forall c,
    (forall i, In i indices -> 0 <= i /\ i * 3 + 2 < len palette /\ i < len c) ->
    exists c',
      convert_rgb_loop palette c indices = Ok c'
      /\ length c' = length c
      /\ (Forall (fun v => 0 <= v <= 26) c -> Forall (fun v => 0 <= v <= 26) c')
      /\ (forall j, ~ In (Z.of_nat j) indices -> c' !! j = c !! j).
Proof.
  induction indices as [|i indices IH]; intros c Hin.
  - exists c. repeat split; auto.
  - destruct (Hin i (or_introl eq_refl)) as (Hi0 & HiP & Hic).
    destruct (getitem_in_range palette (i * 3) ltac:(lia)) as [r Hr].
    destruct (getitem_in_range palette (i * 3 + 1) ltac:(lia)) as [g Hg].
    destruct (getitem_in_range palette (i * 3 + 2) ltac:(lia)) as [b Hb].
    cbn [convert_rgb_loop]. rewrite Hr, Hg, Hb. cbn [rbind].
    unfold list_setitem, norm_index.
    destruct (Z.ltb_spec i 0); [lia|].
    rewrite (proj2 (in_range_spec i 0 (len c))) by lia. cbn [rbind].
    set (v := quantize_channel b + quantize_channel r * 3
              + quantize_channel g * 9).
    destruct (IH (<[Z.to_nat i := v]> c)) as (c' & Hc' & Hlen & Hrange & Hframe).
    { intros k Hk. destruct (Hin k (or_intror Hk)) as (? & ? & ?).
      unfold len in *. rewrite length_insert. lia. }
    exists c'. split; [exact Hc'|]. split; [|split].
    + now rewrite Hlen, length_insert.
    + intros Hall. apply Hrange. apply Forall_insert; [exact Hall|].
      pose proof (quantize_channel_range r).
      pose proof (quantize_channel_range g).
      pose proof (quantize_channel_range b). subst v. lia.
    + intros j Hj. rewrite Hframe by (intros Hk; apply Hj; now right).
      apply list_lookup_insert_ne. intros E. apply Hj. left. lia.
Qed.

(** X4: for 1 to 16 firmware inks in 0..26, the palette conversion to
    red, green and blue gives three values out of 0, 128 and 255 per
    ink, and converting these back gives the inks again, followed by
    zeros up to 256 entries. *)
Theorem palette_roundtrip (palette : list Z) :
  1 <= len palette <= 16 -> Forall (fun ink => 0 <= ink <= 26) palette ->
  exists rgb,
    convert_cpc_palette_to_rgb palette = Ok rgb
    /\ rgb = flat_map ink_rgb palette
    /\ len rgb = 3 * len palette
    /\ Forall (fun v => v = 0 \/ v = 128 \/ v = 255) rgb
    /\ convert_rgb_palette_to_cpc rgb
       = Ok (palette ++ replicate (256 - length palette) 0).
Proof.
  intros Hlen Hall. exists (flat_map ink_rgb palette).
  split; [|split; [reflexivity|split; [apply flat_map_ink_rgb_len|split]]].
  - unfold convert_cpc_palette_to_rgb.
    rewrite (proj2 (in_range_spec (len palette) 1 17)) by lia.
    assert (forallb (fun ink => in_range ink 0 27) palette = true) as ->.
    { apply forallb_forall. intros ink Hin.
      rewrite Forall_forall in Hall. apply in_range_spec.
      specialize (Hall ink Hin). lia. }
    cbn [negb].
    replace (Z.to_nat (len palette * 3)) with (3 * length palette + 0)%nat
      by (unfold len; lia).
    pose proof (convert_cpc_loop_fills palette [] [] 0 eq_refl) as L.
    cbn [app] in L. change (len (@nil Z)) with 0 in L. rewrite L.
    now rewrite app_nil_r.
  - apply Forall_forall. intros v Hv. apply in_flat_map in Hv as (ink & Hi & Hv).
    rewrite Forall_forall in Hall.
    destruct (ink_rgb_inverse ink (Hall ink Hi)) as (r & g & b & E & _ & F).
    rewrite E in Hv. rewrite Forall_forall in F. now apply F.
  - unfold convert_rgb_palette_to_cpc. rewrite flat_map_ink_rgb_len.
    rewrite Z.mul_comm, Z_mod_mult, Z_div_mult by lia. cbn [Z.eqb negb].
    pose proof (convert_rgb_loop_restores palette Hall []
                  (256 - length palette)) as L.
    cbn [app] in L. change (len (@nil Z)) with 0 in L.
    replace (length palette + (256 - length palette))%nat with 256%nat in L
      by (unfold len in Hlen; lia).
    exact L.
Qed.

Lemma palette_roundtrip_witness :
  exists rgb,
    convert_cpc_palette_to_rgb [10; 15; 25; 0] = Ok rgb
    /\ rgb = flat_map ink_rgb [10; 15; 25; 0]
    /\ len rgb = 3 * len [10; 15; 25; 0]
    /\ Forall (fun v => v = 0 \/ v = 128 \/ v = 255) rgb
    /\ convert_rgb_palette_to_cpc rgb
       = Ok ([10; 15; 25; 0] ++ replicate (256 - 4) 0).
Proof.
  apply (palette_roundtrip [10; 15; 25; 0]).
  - vm_compute. split; discriminate.
  - repeat constructor; lia.
Defined.

End PaletteTheorems.

Section PaletteEdges.
Import cpcimage.

(** X5: [convert_rgb_palette_to_cpc] raises [ListSizeError] when the
    number of values is not a multiple of 3; for up to 256 colours it
    returns 256 entries, all in 0..26, those from the number of colours
    on being 0; for more than 256 colours it raises [IndexError]. *)
Theorem convert_rgb_palette_to_cpc_shape (palette : list Z) :
  (len palette mod 3 <> 0 ->
   convert_rgb_palette_to_cpc palette = Raise ImageListSizeError)
  /\ (len palette mod 3 = 0 -> len palette / 3 <= 256 ->
      exists cpc_palette,
        convert_rgb_palette_to_cpc palette = Ok cpc_palette
        /\ len cpc_palette = 256
        /\ Forall (fun v => 0 <= v <= 26) cpc_palette
        /\ forall j, len palette / 3 <= Z.of_nat j < 256 ->
                     cpc_palette !! j = Some 0)
  /\ (len palette mod 3 = 0 -> 256 < len palette / 3 ->
      convert_rgb_palette_to_cpc palette = Raise IndexError).
Proof.
  pose proof (len_nonneg palette) as Hnn.
  split; [|split].
  - intros Hmod. unfold convert_rgb_palette_to_cpc.
    apply Z.eqb_neq in Hmod. now rewrite Hmod.
  - intros Hmod Hn. unfold convert_rgb_palette_to_cpc.
    rewrite Hmod. cbn [Z.eqb negb].
    pose proof (Z.div_mod (len palette) 3 ltac:(lia)) as Hdm.
    destruct (convert_rgb_loop_inv palette (seqZ 0 (len palette / 3))
                (replicate 256 0)) as (c & Hc & Hlen & Hrange & Hframe).
    { intros i Hi. apply list_elem_of_In, elem_of_seqZ in Hi.
      change (len (replicate 256 0)) with 256. lia. }
    exists c. split; [exact Hc|]. split; [|split].
    + unfold len. rewrite Hlen. reflexivity.
    + apply Hrange. apply Forall_forall. intros v Hv.
      apply list_elem_of_In, elem_of_replicate in Hv. lia.
    + intros j Hj. rewrite Hframe.
      * apply lookup_replicate_2. lia.
      * intros Hi. apply list_elem_of_In, elem_of_seqZ in Hi. lia.
  - intros Hmod Hn. unfold convert_rgb_palette_to_cpc.
    rewrite Hmod. cbn [Z.eqb negb].
    pose proof (Z.div_mod (len palette) 3 ltac:(lia)) as Hdm.
    replace (len palette / 3) with (256 + (1 + (len palette / 3 - 257)))
      by lia.
    rewrite seqZ_app, seqZ_cons_len by lia.
    rewrite convert_rgb_loop_app.
    destruct (convert_rgb_loop_inv palette (seqZ 0 256) (replicate 256 0))
      as (c & Hc & Hlen & _).
    { intros i Hi. apply list_elem_of_In, elem_of_seqZ in Hi.
      change (len (replicate 256 0)) with 256. lia. }
    rewrite Hc. cbn [rbind convert_rgb_loop].
    change (0 + 256) with 256.
    destruct (getitem_in_range palette (256 * 3) ltac:(lia)) as [r ->].
    destruct (getitem_in_range palette (256 * 3 + 1) ltac:(lia)) as [g ->].
    destruct (getitem_in_range palette (256 * 3 + 2) ltac:(lia)) as [b ->].
    cbn [rbind]. unfold list_setitem, norm_index. change (256 <? 0) with false.
    cbv iota.
    rewrite (proj2 (in_range_false 256 0 (len c)))
      by (unfold len; rewrite Hlen, length_replicate; lia).
    reflexivity.
Qed.

Lemma convert_rgb_palette_to_cpc_shape_witness :
  convert_rgb_palette_to_cpc [0; 0] = Raise ImageListSizeError
  /\ (exists cpc_palette,
        convert_rgb_palette_to_cpc [0; 0; 0; 255; 255; 255] = Ok cpc_palette
        /\ len cpc_palette = 256
        /\ Forall (fun v => 0 <= v <= 26) cpc_palette
        /\ forall j, 2 <= Z.of_nat j < 256 -> cpc_palette !! j = Some 0)
  /\ convert_rgb_palette_to_cpc (replicate 771 0) = Raise IndexError.
Proof.
  split; [|split].
  - apply (proj1 (convert_rgb_palette_to_cpc_shape [0; 0])).
    vm_compute. discriminate.
  - apply (proj1 (proj2 (convert_rgb_palette_to_cpc_shape
                           [0; 0; 0; 255; 255; 255]))).
    + reflexivity.
    + vm_compute. discriminate.
  - apply (proj2 (proj2 (convert_rgb_palette_to_cpc_shape (replicate 771 0)))).
    + reflexivity.
    + vm_compute. reflexivity.
Defined.

(** [convert_cpc_palette_to_rgb] raises [ListSizeError] for an empty
    palette or one of more than 16 inks, and [ValueError] when a
    palette of 1 to 16 inks holds a value outside 0..26. *)
Lemma convert_cpc_palette_to_rgb_checks (palette : list Z) :
  (~ (1 <= len palette <= 16) ->
   convert_cpc_palette_to_rgb palette = Raise ImageListSizeError)
  /\ (1 <= len palette <= 16 ->
      ~ Forall (fun ink => 0 <= ink <= 26) palette ->
      convert_cpc_palette_to_rgb palette = Raise ValueError).
Proof.
  split.
  - intros Hlen. unfold convert_cpc_palette_to_rgb.
    rewrite (proj2 (in_range_false (len palette) 1 17)) by lia.
    reflexivity.
  - intros Hlen Hn. unfold convert_cpc_palette_to_rgb.
    rewrite (proj2 (in_range_spec (len palette) 1 17)) by lia. cbn [negb].
    destruct (forallb _ palette) eqn:E; [|reflexivity].
    exfalso. apply Hn. rewrite forallb_forall in E. apply Forall_forall.
    intros ink Hin. specialize (E ink Hin). apply in_range_spec in E. lia.
Qed.

Lemma convert_cpc_palette_to_rgb_checks_witness :
  convert_cpc_palette_to_rgb [] = Raise ImageListSizeError
  /\ convert_cpc_palette_to_rgb [26; 27] = Raise ValueError.
Proof.
  split.
  - apply (proj1 (convert_cpc_palette_to_rgb_checks [])).
    vm_compute. intros [H _]. now apply H.
  - apply (proj2 (convert_cpc_palette_to_rgb_checks [26; 27])).
    + vm_compute. split; discriminate.
    + intros H. inversion_clear H as [|? ? _ H']. inversion_clear H'. lia.
Defined.

End PaletteEdges.

(** ** Snapshots: reading back what was set *)
Section SnapshotAccessors.
Import cpcsnapshot.

Lemma header_get_ok (s : Snapshot) (i v : Z) :
  0 <= i -> header s !! Z.to_nat i = Some v -> header_get i s = (s, Ok v).
Proof.
  intros Hi Hv. unfold header_get, lift. now rewrite (getitem_nonneg _ _ v).
Qed.

Lemma header_get_in_range (s : Snapshot) (i : Z) :
  0 <= i < len (header s) -> exists v, header_get i s = (s, Ok v)
                                       /\ header s !! Z.to_nat i = Some v.
Proof.
  intros Hi. unfold len in Hi.
  destruct (lookup_lt_is_Some_2 (header s) (Z.to_nat i) ltac:(lia)) as [v Hv].
  exists v. split; [apply header_get_ok; (lia || assumption) | exact Hv].
Qed.

(** Reading a header byte after writing one: the written value at the
    same offset, the old value at any other. *)
Lemma header_get_set_same (s : Snapshot) (i v : Z) :
  0 <= i < len (header s) ->
  header_get i (mkSnapshot (<[Z.to_nat i := v]> (header s)) (memory s))
  = (mkSnapshot (<[Z.to_nat i := v]> (header s)) (memory s), Ok v).
Proof.
  intros Hi. apply header_get_ok; [lia|]. cbn [header].
  apply list_lookup_insert_eq. unfold len in Hi. lia.
Qed.

Lemma header_get_set_other (s : Snapshot) (i j v : Z) :
  0 <= i -> 0 <= j -> i <> j ->
  snd (header_get j (mkSnapshot (<[Z.to_nat i := v]> (header s)) (memory s)))
  = snd (header_get j s).
Proof.
  intros Hi Hj Hne. unfold header_get, lift, getitem, norm_index, len.
  cbn [snd header]. rewrite length_insert.
  destruct (Z.ltb_spec j 0); [lia|].
  destruct (in_range j 0 _); [|reflexivity].
  now rewrite list_lookup_insert_ne by lia.
Qed.

End SnapshotAccessors.

(** ** Snapshots: Z80 registers *)
Section Z80Registers.
Import cpcsnapshot.

Lemma z80_8bit_table :
  forallb (fun r =>
    match _get_z80_register_offset r with
    | Ok off => in_range off 0x11 0x2e && str_in r z80_registers_8bit
    | Raise _ => false
    end) z80_registers_8bit = true.
Proof. vm_compute. reflexivity. Qed.

Lemma z80_16bit_table :
  forallb (fun r =>
    match _get_z80_register_offset r with
    | Ok off => in_range off 0x11 0x2d && negb (str_in r z80_registers_8bit)
                && str_in r z80_registers_16bit
    | Raise _ => false
    end) z80_registers_16bit = true.
Proof. vm_compute. reflexivity. Qed.

Lemma z80_8bit_distinct_table :
  forallb (fun r1 => forallb (fun r2 =>
    String.eqb r1 r2
    || negb (bool_decide (_get_z80_register_offset r1
                          = _get_z80_register_offset r2)))
    z80_registers_8bit) z80_registers_8bit = true.
Proof. vm_compute. reflexivity. Qed.

Lemma z80_pairs_table :
  forallb (fun '(rpair, lo, hi) =>
    match _get_z80_register_offset rpair, _get_z80_register_offset lo,
          _get_z80_register_offset hi with
    | Ok p, Ok l, Ok h =>
        (p =? l) && (h =? l + 1) && in_range l 0x11 0x2d
        && str_in lo z80_registers_8bit && str_in hi z80_registers_8bit
        && negb (str_in rpair z80_registers_8bit)
        && str_in rpair z80_registers_16bit
    | _, _, _ => false
    end) z80_register_pairs = true.
Proof. vm_compute. reflexivity. Qed.

Lemma z80_8bit_offset (register : string) :
  In register z80_registers_8bit ->
  exists off, _get_z80_register_offset register = Ok off
              /\ 0x11 <= off < 0x2e
              /\ str_in register z80_registers_8bit = true.
Proof.
  intros Hin. pose proof z80_8bit_table as T. rewrite forallb_forall in T.
  specialize (T register Hin).
  destruct (_get_z80_register_offset register) as [off|]; [|discriminate].
  apply andb_true_iff in T as [T1 T2]. apply in_range_spec in T1. eauto.
Qed.

Lemma z80_16bit_offset (register : string) :
  In register z80_registers_16bit ->
  exists off, _get_z80_register_offset register = Ok off
              /\ 0x11 <= off < 0x2d
              /\ str_in register z80_registers_8bit = false
              /\ str_in register z80_registers_16bit = true.
Proof.
  intros Hin. pose proof z80_16bit_table as T. rewrite forallb_forall in T.
  specialize (T register Hin).
  destruct (_get_z80_register_offset register) as [off|]; [|discriminate].
  rewrite !andb_true_iff, negb_true_iff, in_range_spec in T.
  exists off. tauto.
Qed.

Lemma z80_8bit_distinct (r1 r2 : string) :
  In r1 z80_registers_8bit -> In r2 z80_registers_8bit -> r1 <> r2 ->
  _get_z80_register_offset r1 <> _get_z80_register_offset r2.
Proof.
  intros H1 H2 Hne. pose proof z80_8bit_distinct_table as T.
  rewrite forallb_forall in T. specialize (T r1 H1).
  rewrite forallb_forall in T. specialize (T r2 H2).
  apply orb_true_iff in T as [T|T].
  - apply String.eqb_eq in T. contradiction.
  - apply negb_true_iff, bool_decide_eq_false in T. exact T.
Qed.

Lemma get_z80_register_8bit (s : Snapshot) (register : string) (off : Z) :
  _get_z80_register_offset register = Ok off ->
  str_in register z80_registers_8bit = true ->
  get_z80_register register s = header_get off s.
Proof.
  intros Hoff Hin. unfold get_z80_register, bind, lift.
  now rewrite Hin, Hoff.
Qed.

(** X7: setting an 8-bit register to a byte succeeds, the register
    reads back as that byte, every other 8-bit register reads as
    before, and the memory is untouched. *)
Theorem z80_8bit_set_then_get (s : Snapshot) (register : string) (value : Z) :
  In register z80_registers_8bit -> 0 <= value <= 255 ->
  0x2e <= len (header s) ->
  exists s',
    set_z80_register register value s = (s', Ok tt)
    /\ memory s' = memory s
    /\ snd (get_z80_register register s') = Ok value
    /\ forall other,
         In other z80_registers_8bit -> other <> register ->
         snd (get_z80_register other s') = snd (get_z80_register other s).
Proof.
  intros Hin Hv Hlen.
  destruct (z80_8bit_offset register Hin) as (off & Hoff & Hr & Hstr).
  eexists. split; [|split; [|split]].
  - unfold set_z80_register. rewrite Hoff, Hstr.
    rewrite (proj2 (in_range_spec value 0 256)) by lia. cbn [negb].
    apply header_set_nonneg; lia.
  - reflexivity.
  - rewrite (get_z80_register_8bit _ register off Hoff Hstr).
    rewrite header_get_set_same by lia. reflexivity.
  - intros other Hother Hne.
    destruct (z80_8bit_offset other Hother) as (off' & Hoff' & Hr' & Hstr').
    rewrite !(get_z80_register_8bit _ other off' Hoff' Hstr').
    apply header_get_set_other; [lia | lia |].
    intros ->. apply (z80_8bit_distinct other register Hother Hin Hne).
    congruence.
Qed.

Lemma z80_8bit_set_then_get_witness :
  exists s',
    set_z80_register "A" 0x7f blank64 = (s', Ok tt)
    /\ memory s' = memory blank64
    /\ snd (get_z80_register "A" s') = Ok 0x7f
    /\ forall other,
         In other z80_registers_8bit -> other <> "A"%string ->
         snd (get_z80_register other s')
         = snd (get_z80_register other blank64).
Proof.
  apply z80_8bit_set_then_get.
  - right. left. reflexivity.
  - lia.
  - vm_compute. discriminate.
Defined.

(** X8: setting a 16-bit register to a value below 65536 succeeds and
    the register reads back as that value; the memory is untouched. *)
Theorem z80_16bit_set_then_get (s : Snapshot) (register : string) (value : Z) :
  In register z80_registers_16bit -> 0 <= value <= 65535 ->
  0x2e <= len (header s) ->
  exists s',
    set_z80_register register value s = (s', Ok tt)
    /\ memory s' = memory s
    /\ snd (get_z80_register register s') = Ok value.
Proof.
  intros Hin Hv Hlen.
  destruct (z80_16bit_offset register Hin) as (off & Hoff & Hr & H8 & H16).
  assert (0 <= value mod 256 < 256) by (apply Z.mod_pos_bound; lia).
  assert (0 <= value / 256 < 256)
    by (split; [apply Z.div_pos; lia | apply Z.div_lt_upper_bound; lia]).
  set (h1 := <[Z.to_nat off := value mod 256]> (header s)).
  set (h2 := <[Z.to_nat (off + 1) := value / 256]> h1).
  exists (mkSnapshot h2 (memory s)). split; [|split].
  - unfold set_z80_register. rewrite Hoff, H8.
    rewrite (proj2 (in_range_spec value 0 65536)) by lia. cbn [negb].
    unfold bind. rewrite header_set_nonneg by lia.
    rewrite header_set_nonneg; [reflexivity | | lia].
    cbn [header]. unfold len in *. rewrite length_insert. lia.
  - reflexivity.
  - unfold get_z80_register, bind, lift. rewrite H8, H16, Hoff.
    rewrite (header_get_ok _ off (value mod 256)); [|lia|].
    2:{ cbn [header]. subst h2. rewrite list_lookup_insert_ne by lia.
        apply list_lookup_insert_eq. unfold len in *. lia. }
    rewrite (header_get_ok _ (off + 1) (value / 256)); [|lia|].
    2:{ cbn [header]. subst h2. apply list_lookup_insert_eq.
        subst h1. unfold len in *. rewrite length_insert. lia. }
    unfold ret. cbn [snd]. f_equal.
    pose proof (Z.div_mod value 256 ltac:(lia)). lia.
Qed.

Lemma z80_16bit_set_then_get_witness :
  exists s',
    set_z80_register "PC" 0x0400 blank64 = (s', Ok tt)
    /\ memory s' = memory blank64
    /\ snd (get_z80_register "PC" s') = Ok 0x0400.
Proof.
  apply z80_16bit_set_then_get.
  - do 7 right. left. reflexivity.
  - lia.
  - vm_compute. discriminate.
Defined.

(** X9: a register pair reads as its low half plus 256 times its high
    half, for AF, BC, DE, HL and their shadow pairs: the pair and its
    halves are the same two header bytes. *)
Theorem z80_pair_is_its_halves (s : Snapshot) (rpair lo hi : string) :
  In (rpair, lo, hi) z80_register_pairs -> 0x2e <= len (header s) ->
  exists l h,
    snd (get_z80_register lo s) = Ok l
    /\ snd (get_z80_register hi s) = Ok h
    /\ snd (get_z80_register rpair s) = Ok (l + 256 * h).
Proof.
  intros Hin Hlen. pose proof z80_pairs_table as T.
  rewrite forallb_forall in T. specialize (T _ Hin). cbv beta iota in T.
  destruct (_get_z80_register_offset rpair) as [p|] eqn:Hp; [|discriminate].
  destruct (_get_z80_register_offset lo) as [ol|] eqn:Hl; [|discriminate].
  destruct (_get_z80_register_offset hi) as [oh|] eqn:Hh; [|discriminate].
  rewrite !andb_true_iff, !Z.eqb_eq, negb_true_iff, in_range_spec in T.
  destruct T as ((((((-> & ->) & Hr) & Hlo) & Hhi) & Hp8) & Hp16).
  destruct (header_get_in_range s ol ltac:(lia)) as (l & Hgl & _).
  destruct (header_get_in_range s (ol + 1) ltac:(lia)) as (h & Hgh & _).
  exists l, h.
  rewrite (get_z80_register_8bit s lo ol Hl Hlo), Hgl.
  rewrite (get_z80_register_8bit s hi (ol + 1) Hh Hhi), Hgh.
  repeat split.
  unfold get_z80_register, bind, lift. rewrite Hp8, Hp16, Hp, Hgl, Hgh.
  reflexivity.
Qed.

Lemma z80_pair_is_its_halves_witness :
  exists l h,
    snd (get_z80_register "L'" blank64) = Ok l
    /\ snd (get_z80_register "H'" blank64) = Ok h
    /\ snd (get_z80_register "HL'" blank64) = Ok (l + 256 * h).
Proof.
  apply z80_pair_is_its_halves.
  - do 7 right. left. reflexivity.
  - vm_compute. discriminate.
Defined.

End Z80Registers.

Section Z80RegisterErrors.
Import cpcsnapshot.

Lemma str_index_not_in (names : list string) (register : string) :
  ~ In register names ->
  str_index names register = Raise ValueError
  /\ str_in register names = false.
Proof.
  induction names as [|x names IH]; intros Hn; [split; reflexivity|].
  assert (x <> register) as Hx by (intros ->; apply Hn; now left).
  destruct IH as [IH1 IH2]; [intros H; apply Hn; now right|].
  split.
  - cbn [str_index]. apply String.eqb_neq in Hx. now rewrite Hx, IH1.
  - unfold str_in in *. cbn [existsb]. rewrite IH2.
    assert (register <> x) as Hx' by congruence.
    apply String.eqb_neq in Hx'. now rewrite Hx'.
Qed.

(** X10: a name that is neither an 8-bit nor a 16-bit register makes
    [get_z80_register] and [set_z80_register] raise
    [InvalidZ80RegisterError]; a value outside the width of a known
    register makes [set_z80_register] raise [ValueError]; in each case
    the snapshot is unchanged. *)
Theorem z80_register_errors (s : Snapshot) (register : string) (value : Z) :
  (~ In register z80_registers_8bit -> ~ In register z80_registers_16bit ->
   get_z80_register register s = (s, Raise InvalidZ80RegisterError)
   /\ set_z80_register register value s = (s, Raise InvalidZ80RegisterError))
  /\ (In register z80_registers_8bit -> ~ (0 <= value <= 255) ->
      set_z80_register register value s = (s, Raise ValueError))
  /\ (In register z80_registers_16bit -> ~ (0 <= value <= 65535) ->
      set_z80_register register value s = (s, Raise ValueError)).
Proof.
  split; [|split].
  - intros H8 H16.
    destruct (str_index_not_in _ _ H8) as [I8 S8].
    destruct (str_index_not_in _ _ H16) as [I16 S16].
    split.
    + unfold get_z80_register. now rewrite S8, S16.
    + unfold set_z80_register, _get_z80_register_offset. now rewrite I8, I16.
  - intros Hin Hv.
    destruct (z80_8bit_offset register Hin) as (off & Hoff & _ & Hstr).
    unfold set_z80_register. rewrite Hoff, Hstr.
    rewrite (proj2 (in_range_false value 0 256)) by lia. reflexivity.
  - intros Hin Hv.
    destruct (z80_16bit_offset register Hin) as (off & Hoff & _ & H8 & _).
    unfold set_z80_register. rewrite Hoff, H8.
    rewrite (proj2 (in_range_false value 0 65536)) by lia. reflexivity.
Qed.

Lemma z80_register_errors_witness :
  (get_z80_register "IZ" blank64 = (blank64, Raise InvalidZ80RegisterError)
   /\ set_z80_register "IZ" 0 blank64
      = (blank64, Raise InvalidZ80RegisterError))
  /\ set_z80_register "A" 256 blank64 = (blank64, Raise ValueError)
  /\ set_z80_register "SP" 65536 blank64 = (blank64, Raise ValueError).
Proof.
  split; [|split].
  - apply (proj1 (z80_register_errors blank64 "IZ" 0)).
    + intros H. repeat (destruct H as [H|H]; [discriminate H|]). exact H.
    + intros H. repeat (destruct H as [H|H]; [discriminate H|]). exact H.
  - apply (proj1 (proj2 (z80_register_errors blank64 "A" 256))); [|lia].
    right. left. reflexivity.
  - apply (proj2 (proj2 (z80_register_errors blank64 "SP" 65536))); [|lia].
    do 6 right. left. reflexivity.
Defined.

End Z80RegisterErrors.

(** ** Snapshots: the mode and ROM configuration byte *)
Section ModeAndRoms.
Import cpcsnapshot.

(** A mask of at most eight bits only sees the low byte. *)
Lemma land_low8 (b k : Z) :
  Z.land (Z.ones 8) k = k -> Z.land b k = Z.land (b mod 256) k.
Proof.
  intros Hk. rewrite <- Hk at 1. rewrite Z.land_assoc, Z.land_ones by lia.
  reflexivity.
Qed.

Lemma mode_byte_table :
  forallb (fun c =>
    forallb (fun m =>
      let v := Z.lor (Z.land c 0xfc) m in
      is_byte v && (Z.land v 0x03 =? m)
      && (Z.land v 0x04 =? Z.land c 0x04)
      && (Z.land v 0x08 =? Z.land c 0x08)) (seqZ 0 4)
    && forallb (fun v =>
         is_byte v && (Z.land v 0x03 =? Z.land c 0x03)) 
         [Z.lor (Z.land c 0xfb) 0x04; Z.land c 0xfb;
          Z.lor (Z.land c 0xf7) 0x08; Z.land c 0xf7]
    && truthy (Z.land (Z.lor (Z.land c 0xfb) 0x04) 0x04)
    && negb (truthy (Z.land (Z.land c 0xfb) 0x04))
    && truthy (Z.land (Z.lor (Z.land c 0xf7) 0x08) 0x08)
    && negb (truthy (Z.land (Z.land c 0xf7) 0x08))
    && (Z.land (Z.lor (Z.land c 0xfb) 0x04) 0x08 =? Z.land c 0x08)
    && (Z.land (Z.land c 0xfb) 0x08 =? Z.land c 0x08)
    && (Z.land (Z.lor (Z.land c 0xf7) 0x08) 0x04 =? Z.land c 0x04)
    && (Z.land (Z.land c 0xf7) 0x04 =? Z.land c 0x04)) (seqZ 0 256) = true.
Proof. vm_compute. reflexivity. Qed.

(** Read, change and write back the byte at 0x40. *)
Lemma update_mode_byte (f : Z -> Z) (s : Snapshot) (b : Z) :
  header s !! 0x40%nat = Some b -> 0 <= f b < 256 ->
  (do x <- header_get 0x40 ;; header_set 0x40 (f x))%py s
  = (mkSnapshot (<[0x40%nat := f b]> (header s)) (memory s), Ok tt).
Proof.
  intros Hb Hf. apply lookup_lt_Some in Hb as Hlt.
  unfold bind. rewrite (header_get_ok s 0x40 b) by (lia || exact Hb).
  rewrite header_set_nonneg by (unfold len; lia). reflexivity.
Qed.

Lemma get_screen_mode_of (h m : list Z) (b : Z) :
  h !! 0x40%nat = Some b ->
  snd (get_screen_mode (mkSnapshot h m)) = Ok (Z.land b 0x03).
Proof.
  intros Hb. unfold get_screen_mode, bind.
  rewrite (header_get_ok _ 0x40 b) by (lia || exact Hb). reflexivity.
Qed.

Lemma get_rom_status_of (h m : list Z) (b : Z) :
  h !! 0x40%nat = Some b ->
  snd (get_rom_status (mkSnapshot h m))
  = Ok (negb (truthy (Z.land b 0x04)), negb (truthy (Z.land b 0x08))).
Proof.
  intros Hb. unfold get_rom_status, bind.
  rewrite !(header_get_ok _ 0x40 b) by (lia || exact Hb). cbn [snd ret].
  destruct (truthy (Z.land b 4)), (truthy (Z.land b 8)); reflexivity.
Qed.

(** X11: [set_screen_mode] accepts the modes 0 to 3, after which
    [get_screen_mode] returns the mode set and [get_rom_status] returns
    what it returned before; any other mode raises [ValueError] and
    changes nothing. *)
Theorem set_screen_mode_keeps_roms (s : Snapshot) (screen_mode : Z) :
  0x40 < len (header s) ->
  (0 <= screen_mode <= 3 ->
   exists s',
     set_screen_mode screen_mode s = (s', Ok tt)
     /\ memory s' = memory s
     /\ snd (get_screen_mode s') = Ok screen_mode
     /\ snd (get_rom_status s') = snd (get_rom_status s))
  /\ (~ (0 <= screen_mode <= 3) ->
      set_screen_mode screen_mode s = (s, Raise ValueError)).
Proof.
  intros Hlen. split.
  - intros Hm.
    destruct (lookup_lt_is_Some_2 (header s) 0x40%nat) as [b Hb];
      [unfold len in Hlen; lia|].
    pose proof mode_byte_table as T. rewrite forallb_forall in T.
    assert (0 <= b mod 256 < 0 + 256) as Hc
      by (pose proof (Z.mod_pos_bound b 256); lia).
    specialize (T (b mod 256) (in_seqZ_range _ 0 256 Hc)).
    rewrite !andb_true_iff in T. destruct T as [[[[[[[[[T _] _] _] _] _] _] _] _] _].
    rewrite forallb_forall in T.
    specialize (T screen_mode (in_seqZ_range screen_mode 0 4 ltac:(lia))).
    cbv zeta in T. rewrite <- !(land_low8 b) in T by reflexivity.
    rewrite !andb_true_iff, !Z.eqb_eq in T.
    destruct T as [[[Tb T3] T4] T8]. apply in_range_spec in Tb.
    exists (mkSnapshot (<[0x40%nat := Z.lor (Z.land b 0xfc) screen_mode]>
                          (header s)) (memory s)).
    split; [|split; [reflexivity|split]].
    + unfold set_screen_mode.
      rewrite (proj2 (in_range_spec screen_mode 0 4)) by lia. cbn [negb].
      now apply (update_mode_byte (fun x => Z.lor (Z.land x 0xfc) screen_mode)).
    + rewrite (get_screen_mode_of _ _ (Z.lor (Z.land b 0xfc) screen_mode))
        by (apply list_lookup_insert_eq; unfold len in Hlen; lia).
      now rewrite T3.
    + rewrite (get_rom_status_of _ _ (Z.lor (Z.land b 0xfc) screen_mode))
        by (apply list_lookup_insert_eq; unfold len in Hlen; lia).
      destruct s as [h m]. rewrite (get_rom_status_of h m b Hb).
      now rewrite T4, T8.
  - intros Hm. unfold set_screen_mode.
    rewrite (proj2 (in_range_false screen_mode 0 4)) by lia. reflexivity.
Qed.

Lemma set_screen_mode_keeps_roms_witness :
  (exists s',
     set_screen_mode 0 blank64 = (s', Ok tt)
     /\ memory s' = memory blank64
     /\ snd (get_screen_mode s') = Ok 0
     /\ snd (get_rom_status s') = snd (get_rom_status blank64))
  /\ set_screen_mode 4 blank64 = (blank64, Raise ValueError).
Proof.
  assert (0x40 < len (header blank64)) as H by (vm_compute; reflexivity).
  split.
  - apply (proj1 (set_screen_mode_keeps_roms blank64 0 H)). lia.
  - apply (proj2 (set_screen_mode_keeps_roms blank64 4 H)). lia.
Defined.

End ModeAndRoms.

Section RomSwitches.
Import cpcsnapshot.

(** X12: disabling or enabling one ROM succeeds, makes
    [get_rom_status] report that ROM as disabled or enabled and the
    other ROM as before, and changes neither the screen mode nor the
    memory. *)
Theorem rom_switches_are_independent (s : Snapshot) :
  0x40 < len (header s) ->
  exists lower upper,
    snd (get_rom_status s) = Ok (lower, upper)
    /\ forall op expected,
         In (op, expected)
            [(disable_lower_rom, (false, upper));
             (enable_lower_rom, (true, upper));
             (disable_upper_rom, (lower, false));
             (enable_upper_rom, (lower, true))] ->
         exists s',
           op s = (s', Ok tt)
           /\ memory s' = memory s
           /\ snd (get_rom_status s') = Ok expected
           /\ snd (get_screen_mode s') = snd (get_screen_mode s).
Proof.
  intros Hlen.
  destruct (lookup_lt_is_Some_2 (header s) 0x40%nat) as [b Hb];
    [unfold len in Hlen; lia|].
  assert (0 <= b mod 256 < 0 + 256) as Hc
    by (pose proof (Z.mod_pos_bound b 256); lia).
  pose proof mode_byte_table as T. rewrite forallb_forall in T.
  specialize (T (b mod 256) (in_seqZ_range _ 0 256 Hc)).
  rewrite <- !(land_low8 b) in T by reflexivity.
  rewrite !andb_true_iff, !negb_true_iff, !Z.eqb_eq in T.
  destruct T as [[[[[[[[[_ Tv] Tdl] Tel] Tdu] Teu] Tdl8] Tel8] Tdu4] Teu4].
  rewrite forallb_forall in Tv.
  assert (forall v,
            In v [Z.lor (Z.land b 0xfb) 0x04; Z.land b 0xfb;
                  Z.lor (Z.land b 0xf7) 0x08; Z.land b 0xf7] ->
            0 <= v < 256 /\ Z.land v 0x03 = Z.land b 0x03) as Hv.
  { intros v Hin. specialize (Tv v Hin).
    rewrite andb_true_iff, Z.eqb_eq in Tv. destruct Tv as [Tb T3].
    apply in_range_spec in Tb. split; [lia | exact T3]. }
  destruct s as [h m]. cbn [header memory] in *.
  exists (negb (truthy (Z.land b 0x04))), (negb (truthy (Z.land b 0x08))).
  split; [now apply get_rom_status_of|].
  assert (forall f : Z -> Z,
            In (f b) [Z.lor (Z.land b 0xfb) 0x04; Z.land b 0xfb;
                      Z.lor (Z.land b 0xf7) 0x08; Z.land b 0xf7] ->
            forall expected,
              (negb (truthy (Z.land (f b) 0x04)),
               negb (truthy (Z.land (f b) 0x08))) = expected ->
              exists s',
                (do x <- header_get 0x40 ;; header_set 0x40 (f x))%py
                  (mkSnapshot h m) = (s', Ok tt)
                /\ memory s' = m
                /\ snd (get_rom_status s') = Ok expected
                /\ snd (get_screen_mode s')
                   = snd (get_screen_mode (mkSnapshot h m))) as Hop.
  { intros f Hin expected <-. destruct (Hv _ Hin) as [Hbyte H3].
    eexists. split; [apply (update_mode_byte f _ b); [exact Hb | exact Hbyte]|].
    split; [reflexivity|]. cbn [header memory].
    assert (<[0x40%nat := f b]> h !! 0x40%nat = Some (f b)) as Hnew
      by (apply list_lookup_insert_eq; unfold len in Hlen; lia).
    split.
    - now apply get_rom_status_of.
    - rewrite (get_screen_mode_of _ _ _ Hnew), (get_screen_mode_of _ _ _ Hb).
      now rewrite H3. }
  intros op expected Hin.
  destruct Hin as [E|[E|[E|[E|[]]]]]; injection E as <- <-.
  - apply (Hop (fun x => Z.lor (Z.land x 0xfb) 0x04)); [now left|].
    now rewrite Tdl, Tdl8.
  - apply (Hop (fun x => Z.land x 0xfb)); [right; now left|].
    now rewrite Tel, Tel8.
  - apply (Hop (fun x => Z.lor (Z.land x 0xf7) 0x08)); [do 2 right; now left|].
    now rewrite Tdu, Tdu4.
  - apply (Hop (fun x => Z.land x 0xf7)); [do 3 right; now left|].
    now rewrite Teu, Teu4.
Qed.

Lemma rom_switches_are_independent_witness :
  exists lower upper,
    snd (get_rom_status blank64) = Ok (lower, upper)
    /\ forall op expected,
         In (op, expected)
            [(disable_lower_rom, (false, upper));
             (enable_lower_rom, (true, upper));
             (disable_upper_rom, (lower, false));
             (enable_upper_rom, (lower, true))] ->
         exists s',
           op blank64 = (s', Ok tt)
           /\ memory s' = memory blank64
           /\ snd (get_rom_status s') = Ok expected
           /\ snd (get_screen_mode s') = snd (get_screen_mode blank64).
Proof.
  apply rom_switches_are_independent. vm_compute. reflexivity.
Defined.

End RomSwitches.

(** ** Snapshots: border and firmware colours *)
Section BorderAndFirmware.
Import cpcsnapshot.

Lemma ink_mask_table :
  forallb (fun c => Z.land c 0x3f =? c) (seqZ 0 32)
  && forallb (fun c => Z.land c 0x3f =? c - 0x40) (seqZ 0x40 0x20) = true.
Proof. vm_compute. reflexivity. Qed.

Lemma ink_mask_plain (c : Z) : 0 <= c <= 31 -> Z.land c 0x3f = c.
Proof.
  intros Hc. pose proof ink_mask_table as T.
  apply andb_true_iff in T as [T _]. rewrite forallb_forall in T.
  apply Z.eqb_eq, T, in_seqZ_range. lia.
Qed.

Lemma ink_mask_alternate (c : Z) :
  0x40 <= c <= 0x5f -> Z.land c 0x3f = c - 0x40.
Proof.
  intros Hc. pose proof ink_mask_table as T.
  apply andb_true_iff in T as [_ T]. rewrite forallb_forall in T.
  apply Z.eqb_eq, T, in_seqZ_range. lia.
Qed.

Lemma firmware_index_table :
  forallb (fun c =>
    match list_index firmware_inks c with
    | Ok hw => in_range hw 0 32
               && bool_decide (getitem firmware_inks hw = Ok c)
    | Raise _ => false
    end) (seqZ 0 32)
  && forallb (fun c =>
       bool_decide (list_index firmware_inks c = Raise ValueError))
       (seqZ 0x40 0x20) = true.
Proof. vm_compute. reflexivity. Qed.

Lemma firmware_index (colour : Z) :
  0 <= colour <= 31 ->
  exists hw, list_index firmware_inks colour = Ok hw
             /\ 0 <= hw <= 31 /\ getitem firmware_inks hw = Ok colour.
Proof.
  intros Hc. pose proof firmware_index_table as T.
  apply andb_true_iff in T as [T _]. rewrite forallb_forall in T.
  specialize (T colour (in_seqZ_range colour 0 32 ltac:(lia))).
  destruct (list_index firmware_inks colour) as [hw|]; [|discriminate].
  apply andb_true_iff in T as [T1 T2]. apply in_range_spec in T1.
  apply bool_decide_eq_true in T2. exists hw. split; [reflexivity|].
  split; [lia | exact T2].
Qed.

Lemma get_border_of (h m : list Z) (b : Z) :
  h !! 0x3f%nat = Some b ->
  get_border (mkSnapshot h m) = (mkSnapshot h m, Ok (Z.land b 0x3f)).
Proof.
  intros Hb. unfold get_border, bind.
  rewrite (header_get_ok _ 0x3f b) by (lia || exact Hb). reflexivity.
Qed.

(** X13: [set_border] stores a hardware colour in either encoding as
    given; [get_border] then returns the colour itself for 0..31 and
    the colour minus 0x40 for 0x40..0x5F.  Any other value raises
    [ValueError] and changes nothing. *)
Theorem border_alternate_encoding_reads_normalised
    (s : Snapshot) (colour : Z) :
  0x3f < len (header s) ->
  (0 <= colour <= 31 \/ 0x40 <= colour <= 0x5f ->
   exists s',
     set_border colour s = (s', Ok tt)
     /\ memory s' = memory s
     /\ header s' = <[0x3f%nat := colour]> (header s)
     /\ snd (get_border s')
        = Ok (if colour <? 0x40 then colour else colour - 0x40))
  /\ (~ (0 <= colour <= 31) -> ~ (0x40 <= colour <= 0x5f) ->
      set_border colour s = (s, Raise ValueError)).
Proof.
  intros Hlen. split.
  - intros Hc.
    exists (mkSnapshot (<[0x3f%nat := colour]> (header s)) (memory s)).
    split; [|split; [reflexivity|split; [reflexivity|]]].
    + unfold set_border, _validate_hardware_ink_colour.
      assert (in_range colour 0 0x20 || in_range colour 0x40 0x60 = true)
        as -> by (rewrite orb_true_iff, !in_range_spec; lia).
      cbn [negb]. apply header_set_nonneg; lia.
    + rewrite (get_border_of _ _ colour)
        by (apply list_lookup_insert_eq; unfold len in Hlen; lia).
      cbn [snd]. f_equal. destruct Hc as [Hc|Hc].
      * destruct (Z.ltb_spec colour 0x40); [|lia]. now apply ink_mask_plain.
      * destruct (Z.ltb_spec colour 0x40); [lia|].
        now apply ink_mask_alternate.
  - intros H1 H2. unfold set_border, _validate_hardware_ink_colour.
    assert (in_range colour 0 0x20 || in_range colour 0x40 0x60 = false)
      as -> by (rewrite orb_false_iff, !in_range_false; lia).
    reflexivity.
Qed.

Lemma border_alternate_encoding_reads_normalised_witness :
  (exists s',
     set_border 0x54 blank64 = (s', Ok tt)
     /\ memory s' = memory blank64
     /\ header s' = <[0x3f%nat := 0x54]> (header blank64)
     /\ snd (get_border s') = Ok 0x14)
  /\ set_border 0x20 blank64 = (blank64, Raise ValueError).
Proof.
  assert (0x3f < len (header blank64)) as H by (vm_compute; reflexivity).
  split.
  - apply (proj1 (border_alternate_encoding_reads_normalised blank64 0x54 H)).
    lia.
  - apply (proj2 (border_alternate_encoding_reads_normalised blank64 0x20 H));
      lia.
Defined.

(** X14: for an ink number in 0..15 and a firmware colour in 0..31,
    [set_firmware_ink] succeeds, [get_firmware_ink] then returns that
    colour, and [get_ink] returns the hardware colour in 0..31 that the
    table maps to it. *)
Theorem firmware_ink_set_then_get (s : Snapshot) (ink colour : Z) :
  0 <= ink <= 15 -> 0 <= colour <= 31 -> 0x3e < len (header s) ->
  exists s' hw,
    set_firmware_ink ink colour s = (s', Ok tt)
    /\ memory s' = memory s
    /\ snd (get_firmware_ink ink s') = Ok colour
    /\ snd (get_ink ink s') = Ok hw
    /\ 0 <= hw <= 31
    /\ getitem firmware_inks hw = Ok colour.
Proof.
  intros Hi Hc Hlen.
  destruct (firmware_index colour Hc) as (hw & Hidx & Hhw & Htab).
  set (h' := <[Z.to_nat (ink + 0x2f) := hw]> (header s)).
  exists (mkSnapshot h' (memory s)), hw.
  assert (h' !! Z.to_nat (ink + 0x2f) = Some hw) as Hnew
    by (apply list_lookup_insert_eq; unfold len in Hlen; lia).
  split; [|split; [reflexivity|split; [|split; [|split; assumption]]]].
  - unfold set_firmware_ink.
    rewrite (proj2 (in_range_spec ink 0 16)) by lia.
    rewrite (proj2 (in_range_spec colour 0 32)) by lia. cbn [negb].
    unfold bind, lift. rewrite Hidx.
    rewrite header_set_nonneg by lia.
    rewrite header_set_nonneg; cbn [header memory].
    + now rewrite list_insert_insert_eq.
    + unfold len in *. rewrite length_insert. lia.
    + lia.
  - unfold get_firmware_ink, bind.
    rewrite (header_get_ok _ (ink + 0x2f) hw) by (lia || exact Hnew).
    unfold lift. cbn [snd]. now rewrite ink_mask_plain.
  - unfold get_ink, bind.
    rewrite (header_get_ok _ (ink + 0x2f) hw) by (lia || exact Hnew).
    unfold ret. cbn [snd]. now rewrite ink_mask_plain.
Qed.

Lemma firmware_ink_set_then_get_witness :
  exists s' hw,
    set_firmware_ink 3 26 blank64 = (s', Ok tt)
    /\ memory s' = memory blank64
    /\ snd (get_firmware_ink 3 s') = Ok 26
    /\ snd (get_ink 3 s') = Ok hw
    /\ 0 <= hw <= 31
    /\ getitem firmware_inks hw = Ok 26.
Proof.
  apply firmware_ink_set_then_get; [lia | lia | vm_compute; reflexivity].
Defined.

(** X15: [set_firmware_border] with a firmware colour in 0..31 succeeds
    and [get_firmware_border] returns that colour; a value in
    0x40..0x5F passes the validation, is not found in the table and
    raises [ValueError], as does any other value, with the snapshot
    unchanged. *)
Theorem firmware_border_set_then_get (s : Snapshot) (colour : Z) :
  0x3f < len (header s) ->
  (0 <= colour <= 31 ->
   exists s',
     set_firmware_border colour s = (s', Ok tt)
     /\ memory s' = memory s
     /\ snd (get_firmware_border s') = Ok colour)
  /\ (~ (0 <= colour <= 31) ->
      set_firmware_border colour s = (s, Raise ValueError)).
Proof.
  intros Hlen. split.
  - intros Hc.
    destruct (firmware_index colour Hc) as (hw & Hidx & Hhw & Htab).
    exists (mkSnapshot (<[0x3f%nat := hw]> (header s)) (memory s)).
    split; [|split; [reflexivity|]].
    + unfold set_firmware_border, _validate_hardware_ink_colour.
      rewrite (proj2 (in_range_spec colour 0 0x20)) by lia. cbn [orb negb].
      unfold bind, lift. rewrite Hidx. apply header_set_nonneg; lia.
    + unfold get_firmware_border, bind.
      rewrite (get_border_of _ _ hw)
        by (apply list_lookup_insert_eq; unfold len in Hlen; lia).
      unfold lift. cbn [snd]. now rewrite ink_mask_plain.
  - intros Hc. unfold set_firmware_border, _validate_hardware_ink_colour.
    rewrite (proj2 (in_range_false colour 0 0x20)) by lia. cbn [orb].
    destruct (in_range colour 0x40 0x60) eqn:E; [|reflexivity].
    apply in_range_spec in E. cbn [negb]. unfold bind, lift.
    pose proof firmware_index_table as T.
    apply andb_true_iff in T as [_ T]. rewrite forallb_forall in T.
    specialize (T colour (in_seqZ_range colour 0x40 0x20 ltac:(lia))).
    apply bool_decide_eq_true in T. now rewrite T.
Qed.

Lemma firmware_border_set_then_get_witness :
  (exists s',
     set_firmware_border 0 blank64 = (s', Ok tt)
     /\ memory s' = memory blank64
     /\ snd (get_firmware_border s') = Ok 0)
  /\ set_firmware_border 0x45 blank64 = (blank64, Raise ValueError).
Proof.
  assert (0x3f < len (header blank64)) as H by (vm_compute; reflexivity).
  split.
  - apply (proj1 (firmware_border_set_then_get blank64 0 H)). lia.
  - apply (proj2 (firmware_border_set_then_get blank64 0x45 H)). lia.
Defined.

End BorderAndFirmware.

(** ** Snapshots: bulk setters read back *)
Section BulkReadBack.
Import cpcsnapshot.

(** A loop of getters that each read one header byte at [base + i] and
    return [g] of it collects [g] of that stretch of the header. *)
Lemma for_each_header_bytes (get : Z -> M Snapshot Z) (base bound : Z)
    (g : Z -> Z) (s : Snapshot) :
  0 <= base ->
  (forall i b, 0 <= i < bound ->
     header s !! Z.to_nat (base + i) = Some b -> get i s = (s, Ok (g b))) ->
  forall (n : nat) (k : Z),
    0 <= k -> k + Z.of_nat n <= bound ->
    base + k + Z.of_nat n <= len (header s) ->
    for_each get (seqZ k (Z.of_nat n)) s
    = (s, Ok (map g (take n (drop (Z.to_nat (base + k)) (header s))))).
Proof.
  intros Hbase Hget. induction n as [|n IH]; intros k Hk Hb Hlen.
  - reflexivity.
  - replace (Z.of_nat (S n)) with (1 + Z.of_nat n) in * by lia.
    rewrite seqZ_cons_len by lia. cbn [for_each].
    unfold len in Hlen.
    destruct (lookup_lt_is_Some_2 (header s) (Z.to_nat (base + k))
                ltac:(lia)) as [b Hbk].
    unfold bind at 1. rewrite (Hget k b) by (lia || exact Hbk).
    unfold bind at 1. rewrite IH by (unfold len; lia).
    unfold ret. do 2 f_equal.
    rewrite (drop_S _ b _ Hbk). cbn [take map].
    now replace (Z.to_nat (base + (k + 1))) with (S (Z.to_nat (base + k)))
      by lia.
Qed.

Lemma get_inks_reads_header (s : Snapshot) :
  0x3f <= len (header s) ->
  get_inks s
  = (s, Ok (map (fun b => Z.land b 0x3f) (take 16 (drop 0x2f (header s))))).
Proof.
  intros Hlen. unfold get_inks.
  apply (for_each_header_bytes get_ink 0x2f 16 (fun b => Z.land b 0x3f) s
           ltac:(lia)) with (n := 16%nat) (k := 0); [|lia|lia|lia].
  intros i b Hi Hb. unfold get_ink, bind.
  replace (i + 0x2f) with (0x2f + i) by lia.
  rewrite (header_get_ok s (0x2f + i) b) by (lia || exact Hb). reflexivity.
Qed.

Lemma get_crtc_registers_reads_header (s : Snapshot) :
  0x55 <= len (header s) ->
  get_crtc_registers s = (s, Ok (take 18 (drop 0x43 (header s)))).
Proof.
  intros Hlen. unfold get_crtc_registers.
  rewrite <- (map_id (take 18 (drop 0x43 (header s)))).
  apply (for_each_header_bytes get_crtc_register 0x43 18 id s ltac:(lia))
    with (n := 18%nat) (k := 0); [|lia|lia|lia].
  intros i b Hi Hb. unfold get_crtc_register.
  rewrite (proj2 (in_range_spec i 0 18)) by lia. cbn [negb].
  replace (i + 0x43) with (0x43 + i) by lia.
  now apply header_get_ok; [lia|].
Qed.

(** The stretch of [n] bytes at [off] of a buffer overwritten at [off]
    with at most [n] bytes: the new bytes, then the old ones. *)
Lemma overwrite_stretch (h data : list Z) (off : Z) (n : nat) :
  0 <= off -> (length data <= n)%nat ->
  off + Z.of_nat n <= len h ->
  take n (drop (Z.to_nat off) (overwrite h off data))
  = data ++ drop (length data) (take n (drop (Z.to_nat off) h)).
Proof.
  intros Hoff Hn Hlen. unfold overwrite, len in *.
  rewrite drop_app_length' by (rewrite length_take; lia).
  rewrite take_app_ge by lia. f_equal.
  rewrite skipn_firstn_comm, drop_drop. do 2 f_equal. lia.
Qed.

Lemma map_ink_mask (inks : list Z) :
  Forall (fun c => 0 <= c <= 31) inks ->
  map (fun b => Z.land b 0x3f) inks = inks.
Proof.
  induction 1 as [|c inks Hc _ IH]; [reflexivity|].
  cbn [map]. now rewrite IH, ink_mask_plain.
Qed.

Lemma overwrite_keeps_len (h data : list Z) (off : Z) :
  0 <= off -> off + len data <= len h -> len (overwrite h off data) = len h.
Proof. intros. unfold overwrite. now apply overwrite_len. Qed.

(** X16: [set_inks] with 1 to 16 hardware colours in 0..31 succeeds, and
    [get_inks] then returns those colours followed by the inks it
    returned before for the remaining ink numbers. *)
Theorem set_inks_then_get_inks (s : Snapshot) (inks : list Z) :
  1 <= len inks <= 16 -> Forall (fun c => 0 <= c <= 31) inks ->
  0x3f <= len (header s) ->
  exists s' before,
    set_inks inks s = (s', Ok tt)
    /\ memory s' = memory s
    /\ snd (get_inks s) = Ok before
    /\ length before = 16%nat
    /\ snd (get_inks s') = Ok (inks ++ drop (length inks) before).
Proof.
  intros Hn Hall Hlen.
  exists (mkSnapshot (overwrite (header s) 0x2f inks) (memory s)),
         (map (fun b => Z.land b 0x3f) (take 16 (drop 0x2f (header s)))).
  split; [|split; [reflexivity|split; [|split]]].
  - unfold set_inks. rewrite (proj2 (in_range_spec (len inks) 1 17)) by lia.
    cbn [negb]. rewrite <- (app_nil_r inks) at 1.
    rewrite set_inks_loop_app; [reflexivity| |lia|lia|lia].
    eapply Forall_impl; [|exact Hall]. cbv beta. intros; lia.
  - now rewrite get_inks_reads_header.
  - rewrite length_map, length_take, length_drop. unfold len in Hlen. lia.
  - rewrite get_inks_reads_header
      by (cbn [header]; rewrite overwrite_keeps_len; lia).
    cbn [header snd]. f_equal. change 0x2f%nat with (Z.to_nat 0x2f).
    rewrite overwrite_stretch by (unfold len in *; lia).
    rewrite map_app, map_ink_mask by exact Hall. f_equal.
    symmetry. apply skipn_map.
Qed.

Lemma set_inks_then_get_inks_witness :
  exists s' before,
    set_inks [4; 10; 19] blank64 = (s', Ok tt)
    /\ memory s' = memory blank64
    /\ snd (get_inks blank64) = Ok before
    /\ length before = 16%nat
    /\ snd (get_inks s') = Ok ([4; 10; 19] ++ drop 3 before).
Proof.
  apply (set_inks_then_get_inks blank64 [4; 10; 19]).
  - vm_compute. split; discriminate.
  - repeat constructor; lia.
  - vm_compute. discriminate.
Defined.

(** X17: [set_crtc_registers] with 1 to 17 byte values succeeds, and
    [get_crtc_registers] then returns those values followed by the
    registers it returned before for the remaining register numbers. *)
Theorem set_crtc_registers_then_get (s : Snapshot) (registers : list Z) :
  1 <= len registers <= 17 -> Forall (fun c => 0 <= c <= 255) registers ->
  0x55 <= len (header s) ->
  exists s' before,
    set_crtc_registers registers s = (s', Ok tt)
    /\ memory s' = memory s
    /\ snd (get_crtc_registers s) = Ok before
    /\ length before = 18%nat
    /\ snd (get_crtc_registers s')
       = Ok (registers ++ drop (length registers) before).
Proof.
  intros Hn Hall Hlen.
  exists (mkSnapshot (overwrite (header s) 0x43 registers) (memory s)),
         (take 18 (drop 0x43 (header s))).
  split; [|split; [reflexivity|split; [|split]]].
  - apply set_crtc_registers_accepts_up_to_17; [lia| |lia].
    eapply Forall_impl; [|exact Hall]. cbv beta. intros; lia.
  - now rewrite get_crtc_registers_reads_header.
  - rewrite length_take, length_drop. unfold len in Hlen. lia.
  - rewrite get_crtc_registers_reads_header
      by (cbn [header]; rewrite overwrite_keeps_len; lia).
    cbn [header snd]. f_equal. change 0x43%nat with (Z.to_nat 0x43).
    apply overwrite_stretch; unfold len in *; lia.
Qed.

Lemma set_crtc_registers_then_get_witness :
  exists s' before,
    set_crtc_registers [1; 2] blank64 = (s', Ok tt)
    /\ memory s' = memory blank64
    /\ snd (get_crtc_registers blank64) = Ok before
    /\ length before = 18%nat
    /\ snd (get_crtc_registers s') = Ok ([1; 2] ++ drop 2 before).
Proof.
  apply (set_crtc_registers_then_get blank64 [1; 2]).
  - vm_compute. split; discriminate.
  - repeat constructor; lia.
  - vm_compute. discriminate.
Defined.

End BulkReadBack.

(** ** Snapshots: files *)
Section SnapshotFiles.
Import cpcsnapshot.

Lemma file_read_whole (file : list Z) :
  file_read (len file) file = ([], Ok file).
Proof.
  unfold file_read, len.
  destruct (Z.eqb_spec (Z.of_nat (length file)) (-1)); [lia|].
  destruct (Z.ltb_spec (Z.of_nat (length file)) (-1)); [lia|].
  rewrite Nat2Z.id, drop_all, firstn_all. reflexivity.
Qed.

Lemma insert_file_stores (s : Snapshot) (file : list Z) (start_offset : Z) :
  0 <= start_offset -> forallb is_byte file = true ->
  start_offset + len file <= len (memory s) ->
  ~ (start_offset < 0x10000 /\ 0x10000 <= start_offset + len file - 1) ->
  insert_file file start_offset s
  = (mkSnapshot (header s) (overwrite (memory s) start_offset file), Ok tt).
Proof.
  intros H0 Hb Hfit Hcross. unfold insert_file.
  replace (len file + start_offset - 1) with (start_offset + len file - 1)
    by lia.
  pose proof (len_nonneg file).
  destruct (Z.leb_spec (len (memory s)) (start_offset + len file - 1));
    [lia|].
  destruct (Z.ltb_spec start_offset 0x10000);
    destruct (Z.leb_spec 0x10000 (start_offset + len file - 1));
    destruct (Z.leb_spec 0x10000 (len (memory s)));
    cbn [andb]; try lia;
    rewrite file_read_whole; unfold memory_set_slice;
    replace (start_offset + len file - 1 + 1) with (start_offset + len file)
      by lia;
    rewrite setslice_nonneg by (lia || assumption); reflexivity.
Qed.

Lemma insert_file_fails (s : Snapshot) (file : list Z) (start_offset : Z) :
  len (memory s) <= start_offset + len file - 1
  \/ (start_offset < 0x10000 /\ 0x10000 <= start_offset + len file - 1) ->
  insert_file file start_offset s = (s, Raise MemoryError).
Proof.
  intros Hbad. unfold insert_file.
  replace (len file + start_offset - 1) with (start_offset + len file - 1)
    by lia.
  destruct (Z.leb_spec (len (memory s)) (start_offset + len file - 1));
    [reflexivity|].
  destruct (Z.ltb_spec start_offset 0x10000);
    destruct (Z.leb_spec 0x10000 (start_offset + len file - 1));
    destruct (Z.leb_spec 0x10000 (len (memory s)));
    cbn [andb]; try reflexivity; lia.
Qed.

(** X18: for an offset that is not negative, [insert_file] raises
    [MemoryError] and changes nothing when the file ends beyond the
    memory, whatever the memory length, or starts below 0x10000 and
    ends at or above it; otherwise it stores the file in place, the
    memory keeps its length and the file reads back.  With at least
    64 KiB of memory it does what [insert_bytes] does. *)
Theorem insert_file_stays_in_memory
    (s : Snapshot) (file : list Z) (start_offset : Z) :
  0 <= start_offset -> forallb is_byte file = true ->
  let last := start_offset + len file - 1 in
  let refused := len (memory s) <= last
                 \/ (start_offset < 0x10000 /\ 0x10000 <= last) in
  (refused -> insert_file file start_offset s = (s, Raise MemoryError))
  /\ (~ refused ->
      exists s',
        insert_file file start_offset s = (s', Ok tt)
        /\ header s' = header s
        /\ len (memory s') = len (memory s)
        /\ getslice (memory s') start_offset (start_offset + len file) = file)
  /\ (0x10000 <= len (memory s) ->
      insert_file file start_offset s = insert_bytes file start_offset s).
Proof.
  intros H0 Hb last refused. subst last refused.
  pose proof (len_nonneg file).
  split; [|split].
  - apply insert_file_fails.
  - intros Hok. eexists. split; [apply insert_file_stores; (assumption || lia)|].
    cbn [header memory]. split; [reflexivity|]. split.
    + apply overwrite_keeps_len; lia.
    + apply overwrite_readback; lia.
  - intros Hm.
    destruct (Z.le_gt_cases (len (memory s)) (start_offset + len file - 1));
      [|destruct (Z.lt_ge_cases start_offset 0x10000);
        [destruct (Z.le_gt_cases 0x10000 (start_offset + len file - 1))|]].
    + rewrite insert_file_fails, insert_bytes_fails by (assumption || lia).
      reflexivity.
    + rewrite insert_file_fails, insert_bytes_fails by (assumption || lia).
      reflexivity.
    + rewrite insert_file_stores, insert_bytes_stores by (assumption || lia).
      reflexivity.
    + rewrite insert_file_stores, insert_bytes_stores by (assumption || lia).
      reflexivity.
Qed.

Lemma insert_file_stays_in_memory_witness :
  let s := mkSnapshot (header blank64) (replicate 16 0) in
  insert_file [1; 2; 3; 4] 14 s = (s, Raise MemoryError)
  /\ exists s',
       insert_file [1; 2; 3; 4] 12 s = (s', Ok tt)
       /\ header s' = header s
       /\ len (memory s') = len (memory s)
       /\ getslice (memory s') 12 (12 + 4) = [1; 2; 3; 4].
Proof.
  intros s. split.
  - apply (proj1 (insert_file_stays_in_memory s [1; 2; 3; 4] 14
                    ltac:(lia) eq_refl)).
    left. vm_compute. discriminate.
  - apply (proj1 (proj2 (insert_file_stays_in_memory s [1; 2; 3; 4] 12
                           ltac:(lia) eq_refl))).
    vm_compute. intros [Hc|[_ Hc]]; now apply Hc.
Defined.

End SnapshotFiles.

Section SnapshotConstructor.
Import cpcsnapshot.

Lemma sna_file_read_header (file : list Z) :
  file_read 256 file = (drop 256 file, Ok (take 256 file)).
Proof. reflexivity. Qed.

Lemma getslice_header_signature (file : list Z) :
  getslice (take 256 file) 0 8 = take 8 file.
Proof.
  rewrite getslice_nonneg by lia. change (Z.to_nat (8 - 0)) with 8%nat.
  change (Z.to_nat 0) with 0%nat. now rewrite drop_0, take_take.
Qed.

(** X19: for a RAM size of 64 or 128, a snapshot file of at least 255
    bytes that starts with the eight signature bytes and has 2 in byte
    0x10 is accepted: the snapshot is the first 256 bytes and the rest
    of the file, and [write] gives the file back.  A shorter file with
    signature and version makes the second [read] raise [ValueError]; a
    wrong signature or version raises the file format error; any other
    RAM size raises [ValueError].  Every accepted file is at least 255
    bytes long. *)
Theorem snapshot_file_roundtrip (file : list Z) (ram_size : Z) :
  (ram_size <> 64 -> ram_size <> 128 ->
   init (Some file) ram_size = Raise ValueError)
  /\ (ram_size = 64 \/ ram_size = 128 ->
      (take 8 file <> encode_ascii "MV - SNA" ->
       init (Some file) ram_size = Raise SnaFileFormatError)
      /\ (forall version,
            take 8 file = encode_ascii "MV - SNA" ->
            file !! 0x10%nat = Some version -> version <> 2 ->
            init (Some file) ram_size = Raise SnaFileFormatError)
      /\ (take 8 file = encode_ascii "MV - SNA" ->
          file !! 0x10%nat = Some 2 -> 255 <= len file ->
          init (Some file) ram_size
          = Ok (mkSnapshot (take 256 file) (drop 256 file)))
      /\ (take 8 file = encode_ascii "MV - SNA" ->
          file !! 0x10%nat = Some 2 -> len file < 255 ->
          init (Some file) ram_size = Raise ValueError))
  /\ (forall s,
        init (Some file) ram_size = Ok s ->
        s = mkSnapshot (take 256 file) (drop 256 file)
        /\ 255 <= len file
        /\ write s = file).
Proof.
  assert (forall v, file !! 0x10%nat = Some v ->
                    getitem (take 256 file) 0x10 = Ok v) as Hver.
  { intros v Hv. apply getitem_nonneg; [lia|].
    change (Z.to_nat 0x10) with 0x10%nat.
    rewrite lookup_take_lt by lia. exact Hv. }
  split; [|split].
  - intros H64 H128. unfold init.
    apply Z.eqb_neq in H64, H128. now rewrite H64, H128.
  - intros Hram.
    assert (negb ((ram_size =? 64) || (ram_size =? 128)) = false) as Hr
      by (destruct Hram as [-> | ->]; reflexivity).
    unfold init. rewrite Hr, sna_file_read_header, getslice_header_signature.
    split; [|split; [|split]].
    + intros Hsig. now rewrite bool_decide_eq_false_2.
    + intros version Hsig Hv Hne.
      rewrite bool_decide_eq_true_2 by exact Hsig. cbn [negb].
      rewrite (Hver version Hv). cbn [rbind].
      apply Z.eqb_neq in Hne. now rewrite Hne.
    + intros Hsig Hv Hlen.
      rewrite bool_decide_eq_true_2 by exact Hsig. cbn [negb].
      rewrite (Hver 2 Hv). cbn [rbind Z.eqb negb Pos.eqb].
      pose proof (file_read_all file Hlen) as R.
      destruct (file_read _ _) as [rest [mem|e]]; cbn [snd] in R; congruence.
    + intros Hsig Hv Hlen.
      rewrite bool_decide_eq_true_2 by exact Hsig. cbn [negb].
      rewrite (Hver 2 Hv). cbn [rbind Z.eqb negb Pos.eqb].
      pose proof (file_read_too_short file Hlen) as R.
      destruct (file_read _ _) as [rest [mem|e]]; cbn [snd] in R; congruence.
  - intros s. unfold init.
    destruct (negb _); [discriminate|].
    rewrite sna_file_read_header.
    destruct (negb (bool_decide _)); [discriminate|].
    destruct (getitem (take 256 file) 16) as [version|]; [|discriminate].
    cbn [rbind]. destruct (negb _); [discriminate|].
    destruct (Z.lt_ge_cases (len file) 255) as [Hshort|Hlong].
    + pose proof (file_read_too_short file Hshort) as R.
      destruct (file_read _ _) as [rest [mem|e]]; cbn [snd] in R;
        [discriminate | discriminate].
    + pose proof (file_read_all file Hlong) as R.
      destruct (file_read _ _) as [rest [mem|e]]; cbn [snd] in R;
        [|discriminate].
      intros [= <-]. injection R as ->. split; [reflexivity|].
      split; [exact Hlong|].
      unfold write, bind, file_write. cbn [fst header memory app].
      apply take_drop.
Qed.

Lemma snapshot_file_roundtrip_witness :
  let file := header blank64 ++ [1; 2; 3] in
  init (Some file) 64 = Ok (mkSnapshot (take 256 file) (drop 256 file))
  /\ write (mkSnapshot (take 256 file) (drop 256 file)) = file
  /\ init (Some (take 200 (header blank64))) 64 = Raise ValueError
  /\ init (Some (replicate 300 0)) 64 = Raise SnaFileFormatError.
Proof.
  intros file.
  assert (init (Some file) 64
          = Ok (mkSnapshot (take 256 file) (drop 256 file))) as Hinit.
  { apply (proj1 (proj2 (snapshot_file_roundtrip file 64))).
    - now left.
    - vm_compute. reflexivity.
    - vm_compute. reflexivity.
    - vm_compute. discriminate. }
  split; [exact Hinit|]. split; [|split].
  - apply (proj2 (proj2 (snapshot_file_roundtrip file 64))). exact Hinit.
  - apply (proj1 (proj2 (snapshot_file_roundtrip
                           (take 200 (header blank64)) 64))).
    + now left.
    + vm_compute. reflexivity.
    + vm_compute. reflexivity.
    + vm_compute. reflexivity.
  - apply (proj1 (proj2 (snapshot_file_roundtrip (replicate 300 0) 64)));
      [now left|].
    vm_compute. discriminate.
Defined.

(** The blank constructor writes the header only. *)
Lemma init_blank_header_only (ram_size : Z) (mem : list Z) :
  ram_size = 64 \/ ram_size = 128 ->
  exists h,
    init_blank ram_size (mkSnapshot (replicate 256 0) mem)
    = (mkSnapshot h mem, Ok tt)
    /\ len h = 256
    /\ forall m,
         snd (get_ram_size (mkSnapshot h m)) = Ok ram_size
         /\ snd (get_screen_mode (mkSnapshot h m)) = Ok 1
         /\ snd (get_rom_status (mkSnapshot h m)) = Ok (false, false)
         /\ snd (get_inks (mkSnapshot h m)) = Ok (replicate 16 20)
         /\ snd (get_border (mkSnapshot h m)) = Ok 20
         /\ snd (get_crtc_registers (mkSnapshot h m))
            = Ok [63; 40; 46; 142; 38; 0; 25; 30; 0; 7; 0; 0; 48; 0; 192; 0;
                  0; 0]
         /\ getslice h 0 8 = encode_ascii "MV - SNA"
         /\ getitem h 0x10 = Ok 2.
Proof.
  intros [-> | ->]; eexists; (split; [vm_compute; reflexivity|]);
    (split; [vm_compute; reflexivity|]); intros m;
    repeat split; vm_compute; reflexivity.
Qed.

(** X20: [Snapshot(ram_size=...)] succeeds exactly for 64 and 128.  The
    blank snapshot has a 256-byte header and [ram_size * 1024] bytes of
    memory, reports that RAM size, screen mode 1, both ROMs disabled,
    all inks and the border at hardware colour 20 and the default CRTC
    registers, and carries the signature and version that the file
    constructor asks for. *)
Theorem blank_snapshot_defaults (ram_size : Z) :
  (ram_size <> 64 -> ram_size <> 128 -> init None ram_size = Raise ValueError)
  /\ (ram_size = 64 \/ ram_size = 128 ->
      exists s,
        init None ram_size = Ok s
        /\ len (header s) = 256
        /\ len (memory s) = ram_size * 1024
        /\ snd (get_ram_size s) = Ok ram_size
        /\ snd (get_screen_mode s) = Ok 1
        /\ snd (get_rom_status s) = Ok (false, false)
        /\ snd (get_inks s) = Ok (replicate 16 20)
        /\ snd (get_border s) = Ok 20
        /\ snd (get_crtc_registers s)
           = Ok [63; 40; 46; 142; 38; 0; 25; 30; 0; 7; 0; 0; 48; 0; 192; 0;
                 0; 0]
        /\ init (Some (write s)) ram_size = Ok s).
Proof.
  split.
  - intros H64 H128. unfold init.
    apply Z.eqb_neq in H64, H128. now rewrite H64, H128.
  - intros Hram.
    set (mem := replicate (Z.to_nat (ram_size * 1024)) 0).
    destruct (init_blank_header_only ram_size mem Hram)
      as (h & Hinit & Hlen & Hget).
    destruct (Hget mem) as (G1 & G2 & G3 & G4 & G5 & G6 & Hsig & Hver).
    exists (mkSnapshot h mem).
    assert (init None ram_size = Ok (mkSnapshot h mem)) as Hnew.
    { unfold init, zeroed. fold mem. rewrite Hinit.
      now destruct Hram as [-> | ->]. }
    assert (len mem = ram_size * 1024) as Hmem.
    { unfold len, mem. rewrite length_replicate. lia. }
    repeat (split; [assumption|]).
    assert (length h = 256%nat) as Hlen' by (unfold len in Hlen; lia).
    assert (take 256 (h ++ mem) = h) as Htake
      by (now apply take_app_length').
    assert (drop 256 (h ++ mem) = mem) as Hdrop
      by (now apply drop_app_length').
    assert (write (mkSnapshot h mem) = h ++ mem) as -> by reflexivity.
    unfold init. destruct Hram as [-> | ->]; cbn [Z.eqb Pos.eqb orb negb];
      rewrite sna_file_read_header, Htake, Hdrop, Hsig,
        bool_decide_eq_true_2, Hver by reflexivity;
      cbn [negb rbind Z.eqb Pos.eqb];
      pose proof (file_read_all (h ++ mem)
                    ltac:(rewrite len_app; pose proof (len_nonneg mem); lia))
        as R;
      rewrite Hdrop in R;
      destruct (file_read _ _) as [rest [m|e]]; cbn [snd] in R; congruence.
Qed.

Lemma blank_snapshot_defaults_witness :
  init None 32 = Raise ValueError
  /\ exists s,
       init None 128 = Ok s
       /\ len (header s) = 256
       /\ len (memory s) = 128 * 1024
       /\ snd (get_ram_size s) = Ok 128.
Proof.
  split.
  - apply (proj1 (blank_snapshot_defaults 32)); lia.
  - destruct (proj2 (blank_snapshot_defaults 128) (or_intror eq_refl))
      as (s & H1 & H2 & H3 & H4 & _).
    exists s. repeat split; assumption.
Defined.

End SnapshotConstructor.

Section ByteFields.
Import cpcsnapshot.

(** X21: [set_machine_type] accepts 0, 1 and 2, which
    [get_machine_type] then returns, and raises [ValueError] for every
    other value, the "unknown" type 3 included, although
    [get_machine_type] returns a 3 found in the header;
    [set_upper_rom_number] accepts every byte, which
    [get_upper_rom_number] then returns. *)
Theorem machine_type_and_rom_number (s : Snapshot) (value : Z) :
  0x6e <= len (header s) ->
  (0 <= value <= 2 ->
   exists s', set_machine_type value s = (s', Ok tt)
              /\ memory s' = memory s
              /\ snd (get_machine_type s') = Ok value)
  /\ (~ (0 <= value <= 2) ->
      set_machine_type value s = (s, Raise ValueError))
  /\ (header s !! 0x6d%nat = Some 3 -> snd (get_machine_type s) = Ok 3)
  /\ (0 <= value <= 255 ->
      exists s', set_upper_rom_number value s = (s', Ok tt)
                 /\ memory s' = memory s
                 /\ snd (get_upper_rom_number s') = Ok value)
  /\ (~ (0 <= value <= 255) ->
      set_upper_rom_number value s = (s, Raise ValueError)).
Proof.
  intros Hlen. split; [|split; [|split; [|split]]].
  - intros Hv.
    exists (mkSnapshot (<[Z.to_nat 0x6d := value]> (header s)) (memory s)).
    split; [|split; [reflexivity|]].
    + unfold set_machine_type.
      rewrite (proj2 (in_range_spec value 0 3)) by lia. cbn [negb].
      apply header_set_nonneg; lia.
    + unfold get_machine_type. now rewrite header_get_set_same by lia.
  - intros Hv. unfold set_machine_type.
    rewrite (proj2 (in_range_false value 0 3)) by lia. reflexivity.
  - intros H3. unfold get_machine_type.
    now rewrite (header_get_ok s 0x6d 3) by (lia || exact H3).
  - intros Hv.
    exists (mkSnapshot (<[Z.to_nat 0x55 := value]> (header s)) (memory s)).
    split; [|split; [reflexivity|]].
    + unfold set_upper_rom_number.
      rewrite (proj2 (in_range_spec value 0 256)) by lia. cbn [negb].
      apply header_set_nonneg; lia.
    + unfold get_upper_rom_number. now rewrite header_get_set_same by lia.
  - intros Hv. unfold set_upper_rom_number.
    rewrite (proj2 (in_range_false value 0 256)) by lia. reflexivity.
Qed.

Lemma machine_type_and_rom_number_witness :
  (exists s', set_machine_type 2 blank64 = (s', Ok tt)
              /\ memory s' = memory blank64
              /\ snd (get_machine_type s') = Ok 2)
  /\ set_machine_type 3 blank64 = (blank64, Raise ValueError)
  /\ (exists s', set_upper_rom_number 7 blank64 = (s', Ok tt)
                 /\ memory s' = memory blank64
                 /\ snd (get_upper_rom_number s') = Ok 7).
Proof.
  assert (0x6e <= len (header blank64)) as H by (vm_compute; discriminate).
  split; [|split].
  - apply (proj1 (machine_type_and_rom_number blank64 2 H)). lia.
  - apply (proj1 (proj2 (machine_type_and_rom_number blank64 3 H))). lia.
  - apply (proj1 (proj2 (proj2 (proj2
             (machine_type_and_rom_number blank64 7 H))))). lia.
Defined.

End ByteFields.

(** ** Disk images: more on sectors and tracks *)
Section DiskImageErrors.
Import cpcdiskimage.

Lemma read_sector_loop_absent (d : DiskImage) (track sector : Z) infos :
  Forall (fun x => sec_R x <> sector) infos ->
  forall ptr,
    read_sector_loop d track sector infos ptr
    = Raise (InvalidSectorError track sector).
Proof.
  induction 1 as [|x infos Hx _ IH]; intros ptr; [reflexivity|].
  cbn [read_sector_loop]. apply Z.eqb_neq in Hx. now rewrite Hx.
Qed.

Lemma write_sector_loop_absent (track sector : Z) (data : list Z) infos :
  Forall (fun x => sec_R x <> sector) infos ->
  forall ptr d,
    write_sector_loop track sector data infos ptr d
    = (d, Raise (InvalidSectorError track sector)).
Proof.
  induction 1 as [|x infos Hx _ IH]; intros ptr d; [reflexivity|].
  cbn [write_sector_loop]. apply Z.eqb_neq in Hx. now rewrite Hx.
Qed.

(** X22: [write_sector] raises the invalid-track error for a track
    outside the track count and the no-data error for a track whose
    size byte is 0; on a track with data, when no descriptor carries
    the sector id, [read_sector] and [write_sector] both raise the
    sector-not-found error.  The image is unchanged in every case. *)
Theorem sector_errors (d : DiskImage) (track sector n : Z) (data : list Z) :
  number_of_tracks d = Ok n ->
  (~ (0 <= track < n) ->
   write_sector track sector data d = (d, Raise (InvalidTrackError track)))
  /\ (0 <= track < n -> getitem (header d) (0x34 + track) = Ok 0 ->
      write_sector track sector data d = (d, Raise (TrackDataError track)))
  /\ (forall sz infos,
        get_track_info_block_size d track = Ok sz -> sz <> 0 ->
        get_sector_info d track = Ok infos ->
        Forall (fun x => sec_R x <> sector) infos ->
        read_sector d track sector = Raise (InvalidSectorError track sector)
        /\ write_sector track sector data d
           = (d, Raise (InvalidSectorError track sector))).
Proof.
  intros Hcount. split; [|split].
  - intros H. unfold write_sector, bind, lift.
    now rewrite (validate_out_of_range d track n Hcount H).
  - intros H Hb. unfold write_sector, bind, lift.
    rewrite (validate_in_range d track n Hcount H).
    rewrite (size_in_range d track n Hcount 0 H Hb). reflexivity.
  - intros sz infos Hsz Hnz Hinfo Habsent.
    destruct (sector_info_ok_offset track d sz infos Hsz Hnz Hinfo)
      as [off Hoff].
    apply Z.eqb_neq in Hnz. split.
    + unfold read_sector.
      rewrite (size_ok_validate track d sz Hsz), Hsz. cbn [rbind].
      rewrite Hnz, Hinfo, Hoff. cbn [rbind].
      now apply read_sector_loop_absent.
    + unfold write_sector, bind, lift.
      rewrite (size_ok_validate track d sz Hsz), Hsz, Hnz, Hinfo, Hoff.
      now apply write_sector_loop_absent.
Qed.

Lemma sector_errors_witness :
  let d := image_of file_two_sectors in
  write_sector 2 0x21 [] d = (d, Raise (InvalidTrackError 2))
  /\ write_sector 0 0x21 [] d = (d, Raise (TrackDataError 0))
  /\ read_sector d 1 0x23 = Raise (InvalidSectorError 1 0x23)
  /\ write_sector 1 0x23 [] d = (d, Raise (InvalidSectorError 1 0x23)).
Proof.
  intros d.
  split; [|split].
  - apply (proj1 (sector_errors d 2 0x21 2 [] eq_refl)). lia.
  - apply (proj1 (proj2 (sector_errors d 0 0x21 2 [] eq_refl)));
      [lia | reflexivity].
  - apply (proj2 (proj2 (sector_errors d 1 0x23 2 [] eq_refl)) 0x300
             [mkSectorInfo 1 0 0x21 1 0 0 0x100;
              mkSectorInfo 1 0 0x22 1 0 0 0x100]);
      [reflexivity | lia | reflexivity |].
    repeat constructor; cbn; lia.
Defined.

End DiskImageErrors.

Section TrackOffsets.
Import cpcdiskimage.

Lemma size_of_track (d : DiskImage) (n track b : Z) :
  number_of_tracks d = Ok n -> 0 <= track < n ->
  header d !! Z.to_nat (0x34 + track) = Some b ->
  get_track_info_block_size d track = Ok (b * 0x100).
Proof.
  intros Hcount Hin Hb.
  apply (size_in_range d track n Hcount b Hin).
  apply getitem_nonneg; [lia | exact Hb].
Qed.

Lemma sum_track_sizes_spec (d : DiskImage) (n : Z) :
  number_of_tracks d = Ok n ->
  forall (k : nat) (start acc : Z),
    0 <= start -> start + Z.of_nat k <= n ->
    0x34 + start + Z.of_nat k <= len (header d) ->
    sum_track_sizes d (seqZ start (Z.of_nat k)) acc
    = Ok (acc + 0x100 * foldr Z.add 0
                  (take k (drop (Z.to_nat (0x34 + start)) (header d)))).
Proof.
  intros Hcount. induction k as [|k IH]; intros start acc Hs Hn Hlen.
  - rewrite seqZ_nil by lia. rewrite take_0. cbn [sum_track_sizes foldr].
    f_equal. lia.
  - replace (Z.of_nat (S k)) with (1 + Z.of_nat k) in * by lia.
    rewrite seqZ_cons_len by lia. cbn [sum_track_sizes].
    unfold len in Hlen.
    destruct (lookup_lt_is_Some_2 (header d) (Z.to_nat (0x34 + start))
                ltac:(lia)) as [b Hb].
    rewrite (size_of_track d n start b Hcount ltac:(lia) Hb). cbn [rbind].
    rewrite IH by (unfold len; lia).
    rewrite (drop_S _ b _ Hb). cbn [take foldr].
    replace (Z.to_nat (0x34 + (start + 1)))
      with (S (Z.to_nat (0x34 + start))) by lia.
    f_equal. lia.
Qed.

(** X23: the offset of a track with data is 0x100 times the sum of the
    size bytes of the tracks before it, so tracks without data take no
    room; for a track whose size byte is 0 the offset is the no-data
    error. *)
Theorem track_offset_is_sum_of_sizes (d : DiskImage) (n track b : Z) :
  number_of_tracks d = Ok n -> 0 <= track < n ->
  getitem (header d) (0x34 + track) = Ok b ->
  (b <> 0 ->
   get_track_info_block_offset d track
   = Ok (0x100 * foldr Z.add 0 (getslice (header d) 0x34 (0x34 + track))))
  /\ (b = 0 ->
      get_track_info_block_offset d track = Raise (TrackDataError track)).
Proof.
  intros Hcount Hin Hb.
  pose proof (size_in_range d track n Hcount b Hin Hb) as Hsz.
  unfold get_track_info_block_offset.
  rewrite (validate_in_range d track n Hcount Hin), Hsz. cbn [rbind].
  split.
  - intros Hnz. destruct (Z.eqb_spec (b * 0x100) 0); [lia|].
    apply getitem_inv in Hb as [_ Hlt]; [|lia].
    replace track with (Z.of_nat (Z.to_nat track)) at 1 by lia.
    rewrite (sum_track_sizes_spec d n Hcount) by lia.
    rewrite getslice_nonneg by lia. rewrite Z.add_0_l.
    replace (52 + track - 52) with track by lia. reflexivity.
  - intros ->. reflexivity.
Qed.

Lemma track_offset_is_sum_of_sizes_witness :
  let d := image_of (disk_header 4 [3; 0; 5; 2]) in
  get_track_info_block_offset d 3 = Ok (0x100 * (3 + 0 + 5))
  /\ get_track_info_block_offset d 1 = Raise (TrackDataError 1).
Proof.
  intros d. split.
  - apply (proj1 (track_offset_is_sum_of_sizes d 4 3 2 eq_refl
                    ltac:(lia) eq_refl)). lia.
  - apply (proj2 (track_offset_is_sum_of_sizes d 4 1 0 eq_refl
                    ltac:(lia) eq_refl)). reflexivity.
Defined.

(** X24: in a 256-byte header the size table ends with track 203; for
    a track from 204 on that the track count still admits, the size,
    the sector list and a read all raise [IndexError]. *)
Theorem track_beyond_size_table (d : DiskImage) (n track sector : Z) :
  number_of_tracks d = Ok n -> len (header d) = 256 ->
  204 <= track < n ->
  get_track_info_block_size d track = Raise IndexError
  /\ get_sector_info d track = Raise IndexError
  /\ read_sector d track sector = Raise IndexError.
Proof.
  intros Hcount Hlen Hin.
  assert (get_track_info_block_size d track = Raise IndexError) as Hsz.
  { unfold get_track_info_block_size.
    rewrite (validate_in_range d track n Hcount) by lia. cbn [rbind].
    unfold getitem, norm_index.
    destruct (Z.ltb_spec (0x34 + track) 0); [lia|].
    rewrite (proj2 (in_range_false (0x34 + track) 0 (len (header d))))
      by lia.
    reflexivity. }
  split; [exact Hsz|]. split.
  - unfold get_sector_info.
    rewrite (validate_in_range d track n Hcount) by lia. now rewrite Hsz.
  - unfold read_sector.
    rewrite (validate_in_range d track n Hcount) by lia. now rewrite Hsz.
Qed.

Lemma track_beyond_size_table_witness :
  let d := image_of (disk_header 255 []) in
  get_track_info_block_size d 204 = Raise IndexError
  /\ get_sector_info d 204 = Raise IndexError
  /\ read_sector d 204 0x21 = Raise IndexError.
Proof.
  intros d. apply (track_beyond_size_table d 255 204 0x21);
    [reflexivity | reflexivity | lia].
Defined.

End TrackOffsets.

Section ReadAfterWrite.
Import cpcdiskimage.

Lemma size_header_only (d1 d2 : DiskImage) (track : Z) :
  header d1 = header d2 ->
  get_track_info_block_size d1 track = get_track_info_block_size d2 track.
Proof.
  intros H. unfold get_track_info_block_size, _validate_track_number,
    number_of_tracks. now rewrite H.
Qed.

Lemma sum_track_sizes_header_only (d1 d2 : DiskImage) (tracks : list Z) :
  header d1 = header d2 ->
  forall acc, sum_track_sizes d1 tracks acc = sum_track_sizes d2 tracks acc.
Proof.
  intros H. induction tracks as [|i tracks IH]; intros acc; [reflexivity|].
  cbn [sum_track_sizes]. rewrite (size_header_only d1 d2 i H).
  destruct (get_track_info_block_size d2 i); [apply IH | reflexivity].
Qed.

Lemma offset_header_only (d1 d2 : DiskImage) (track : Z) :
  header d1 = header d2 ->
  get_track_info_block_offset d1 track = get_track_info_block_offset d2 track.
Proof.
  intros H. unfold get_track_info_block_offset, _validate_track_number,
    number_of_tracks.
  rewrite H, (size_header_only d1 d2 track H).
  now rewrite (sum_track_sizes_header_only d1 d2 _ H).
Qed.

Lemma getitem_overwrite_before (b data : list Z) (off i : Z) :
  0 <= i < off -> off + len data <= len b ->
  getitem (overwrite b off data) i = getitem b i.
Proof.
  intros Hi Hfit. unfold getitem, norm_index.
  rewrite overwrite_keeps_len by lia.
  destruct (Z.ltb_spec i 0); [lia|].
  destruct (in_range i 0 (len b)); [|reflexivity].
  unfold overwrite, len in *.
  rewrite lookup_app_l by (rewrite length_take; lia).
  now rewrite lookup_take_lt by lia.
Qed.

Lemma read_sector_infos_agree (tib tib' : list Z) (limit : Z) :
  (forall i, 0 <= i < limit -> getitem tib' i = getitem tib i) ->
  forall (n : nat) (p : Z),
    0 <= p -> p + 8 * Z.of_nat n <= limit ->
    read_sector_infos tib' n p = read_sector_infos tib n p.
Proof.
  intros Hagree. induction n as [|n IH]; intros p Hp Hlim; [reflexivity|].
  cbn [read_sector_infos].
  rewrite !Hagree by lia. rewrite IH by lia. reflexivity.
Qed.

(** X25: after [write_sector] has stored [data] in a sector whose size
    code stands for its declared length, [read_sector] returns [data];
    the sector list of the track is as before.  This needs the
    descriptors of the track to end within its 0x100-byte header and
    the sector to lie inside the buffer. *)
Theorem read_sector_after_write_sector
    (d : DiskImage) (track sector : Z) (data : list Z)
    (sz off count : Z) (pre post : list SectorInfo) (si : SectorInfo) :
  get_track_info_block_size d track = Ok sz -> sz <> 0 ->
  get_track_info_block_offset d track = Ok off -> 0 <= off ->
  getitem (track_info_block d) (off + 0x15) = Ok count ->
  0x18 + 8 * count <= 0x100 ->
  get_sector_info d track = Ok (pre ++ si :: post) ->
  Forall (fun x => sec_R x <> sector) pre -> sec_R si = sector ->
  0 <= sizes_before pre ->
  len data = sec_size si -> 128 * 2 ^ sec_N si = sec_size si ->
  forallb is_byte data = true ->
  off + 0x100 + sizes_before pre + len data <= len (track_info_block d) ->
  exists d',
    write_sector track sector data d = (d', Ok tt)
    /\ header d' = header d
    /\ get_sector_info d' track = get_sector_info d track
    /\ read_sector d' track sector = Ok data.
Proof.
  intros Hsz Hnz Hoff Hoff0 Hcount Hfits Hinfo Hpre Hsi Hsizes Hlen Hcode
    Hbytes Hin.
  set (ptr := off + 0x100 + sizes_before pre) in *.
  set (tib := track_info_block d) in *.
  set (d' := mkDiskImage (header d) (overwrite tib ptr data)).
  pose proof (len_nonneg data) as Hdn.
  assert (forall i, 0 <= i < ptr ->
            getitem (track_info_block d') i = getitem tib i) as Hagree
    by (intros i Hi; apply getitem_overwrite_before; lia).
  assert (get_track_info_block_size d' track = Ok sz) as Hsz'
    by (now rewrite (size_header_only d' d)).
  assert (get_track_info_block_offset d' track = Ok off) as Hoff'
    by (now rewrite (offset_header_only d' d)).
  assert (get_sector_info d' track = get_sector_info d track) as Hsame.
  { unfold get_sector_info.
    rewrite (size_ok_validate track d' sz Hsz'), Hsz'.
    rewrite (size_ok_validate track d sz Hsz), Hsz. cbn [rbind].
    destruct (sz =? 0); [reflexivity|].
    rewrite Hoff', Hoff. cbn [rbind]. fold tib.
    rewrite Hagree by lia. rewrite Hcount. cbn [rbind].
    apply getitem_inv in Hcount as Hc; [|lia].
    destruct (Z.le_gt_cases 0 count).
    - apply (read_sector_infos_agree tib _ ptr Hagree); lia.
    - now replace (Z.to_nat count) with 0%nat by lia. }
  exists d'. split; [|split; [reflexivity|split; [exact Hsame|]]].
  - rewrite (write_sector_found track sector data d sz off pre si post)
      by assumption.
    apply Z.eqb_eq in Hlen. rewrite Hlen.
    unfold set_track_info_block_slice. fold tib ptr.
    rewrite setslice_nonneg by (assumption || lia). reflexivity.
  - rewrite (read_sector_found track sector d' sz off pre si post);
      try assumption; [|now rewrite Hsame].
    fold ptr. cbn [track_info_block d']. rewrite Hcode, <- Hlen.
    f_equal. apply overwrite_readback; lia.
Qed.

Lemma read_sector_after_write_sector_witness :
  let d := image_of file_two_sectors in
  exists d',
    write_sector 1 0x22 (replicate 0x100 9) d = (d', Ok tt)
    /\ header d' = header d
    /\ get_sector_info d' 1 = get_sector_info d 1
    /\ read_sector d' 1 0x22 = Ok (replicate 0x100 9).
Proof.
  intros d.
  apply (read_sector_after_write_sector d 1 0x22 (replicate 0x100 9)
           0x300 0 2 [mkSectorInfo 1 0 0x21 1 0 0 0x100] []
           (mkSectorInfo 1 0 0x22 1 0 0 0x100));
    try reflexivity; try lia; try (vm_compute; discriminate).
  repeat constructor; cbn; lia.
Defined.

End ReadAfterWrite.

(** ** Reading runs of sectors *)
Section ReadSectors.
Import cpcdiskimage config.

Lemma sector_position_here (track sector : Z) :
  0x21 <= sector <= 0x2f -> sector_position track sector 0 = (track, sector).
Proof.
  intros Hs. unfold sector_position. rewrite Z.add_0_r.
  rewrite Z.div_small, Z.mod_small by lia. f_equal; lia.
Qed.

Lemma sector_position_next (track sector k : Z) :
  0x21 <= sector <= 0x2f -> 0 <= k ->
  sector_position track sector (k + 1)
  = if 0x2f <? sector + 1 then sector_position (track + 1) 0x21 k
    else sector_position track (sector + 1) k.
Proof.
  intros Hs Hk. unfold sector_position.
  destruct (Z.ltb_spec 0x2f (sector + 1)).
  - assert (sector = 0x2f) as -> by lia.
    replace (0x2f - 0x21 + (k + 1)) with (k + 1 * 15) by lia.
    rewrite Z.div_add, Z.mod_add by lia.
    replace (0x21 - 0x21 + k) with k by lia. f_equal. lia.
  - now replace (sector + 1 - 0x21 + k) with (sector - 0x21 + (k + 1)) by lia.
Qed.

Lemma read_sectors_loop_walk (d : DiskImage) (payloads : list (list Z)) :
  forall (track sector : Z) (data : list Z),
    0x21 <= sector <= 0x2f ->
    (forall (k : nat) payload,
        payloads !! k = Some payload ->
        read_sector d (fst (sector_position track sector (Z.of_nat k)))
          (snd (sector_position track sector (Z.of_nat k))) = Ok payload) ->
    read_sectors_loop d (length payloads) track sector data
    = Ok (data ++ concat payloads).
Proof.
  induction payloads as [|payload payloads IH];
    intros track sector data Hs Hread.
  - cbn. now rewrite app_nil_r.
  - cbn [length read_sectors_loop concat].
    pose proof (Hread 0%nat payload eq_refl) as H0.
    change (Z.of_nat 0) with 0 in H0.
    rewrite sector_position_here in H0 by lia. cbn [fst snd] in H0.
    rewrite H0. cbn [rbind]. rewrite app_assoc.
    assert (forall (k : nat) p,
              payloads !! k = Some p ->
              read_sector d
                (fst (sector_position track sector (Z.of_nat k + 1)))
                (snd (sector_position track sector (Z.of_nat k + 1)))
              = Ok p) as Hnext.
    { intros k p Hk. specialize (Hread (S k) p Hk).
      now replace (Z.of_nat (S k)) with (Z.of_nat k + 1) in Hread by lia. }
    destruct (Z.ltb_spec 0x2f (sector + 1)) as [Hwrap|Hstay].
    + apply IH; [lia|]. intros k p Hk. specialize (Hnext k p Hk).
      rewrite sector_position_next in Hnext by lia.
      destruct (Z.ltb_spec 0x2f (sector + 1)); [exact Hnext | lia].
    + apply IH; [lia|]. intros k p Hk. specialize (Hnext k p Hk).
      rewrite sector_position_next in Hnext by lia.
      destruct (Z.ltb_spec 0x2f (sector + 1)); [lia | exact Hnext].
Qed.

(** X26: started at a sector id in 0x21..0x2F, [read_sectors] reads
    sector number [k] of the run from track
    [start_track + (start_sector - 0x21 + k) / 15], sector id
    [0x21 + (start_sector - 0x21 + k) mod 15]: when these reads return
    [payloads], it returns their concatenation, reversed as a whole
    when [reverse_data] is set. *)
Theorem read_sectors_walks_fifteen_per_track
    (d : DiskImage) (start_track start_sector : Z)
    (payloads : list (list Z)) (reverse_data : bool) :
  0x21 <= start_sector <= 0x2f ->
  (forall (k : nat) payload,
      payloads !! k = Some payload ->
      read_sector d
        (fst (sector_position start_track start_sector (Z.of_nat k)))
        (snd (sector_position start_track start_sector (Z.of_nat k)))
      = Ok payload) ->
  read_sectors d start_track start_sector (len payloads) reverse_data
  = Ok (if reverse_data then rev (concat payloads) else concat payloads).
Proof.
  intros Hs Hread. unfold read_sectors, len. rewrite Nat2Z.id.
  now rewrite (read_sectors_loop_walk d payloads start_track start_sector []
                 Hs Hread).
Qed.

Lemma read_sectors_walks_fifteen_per_track_witness :
  sector_position 1 0x2f 1 = (2, 0x21)
  /\ read_sectors (image_of file_track_boundary) 1 0x2f 2 true
     = Ok (rev (replicate 0x100 0x2f ++ replicate 0x100 0x21))
  /\ read_sectors (image_of file_track_boundary) 1 0x2f 2 false
     = Ok (replicate 0x100 0x2f ++ replicate 0x100 0x21).
Proof.
  split; [reflexivity|]. split.
  - rewrite <- (app_nil_r (replicate 0x100 0x21)).
    apply (read_sectors_walks_fifteen_per_track (image_of file_track_boundary)
             1 0x2f [replicate 0x100 0x2f; replicate 0x100 0x21] true).
    + lia.
    + intros [|[|k]] payload Hk; try discriminate;
        injection Hk as <-; vm_compute; reflexivity.
  - rewrite <- (app_nil_r (replicate 0x100 0x21)).
    apply (read_sectors_walks_fifteen_per_track (image_of file_track_boundary)
             1 0x2f [replicate 0x100 0x2f; replicate 0x100 0x21] false).
    + lia.
    + intros [|[|k]] payload Hk; try discriminate;
        injection Hk as <-; vm_compute; reflexivity.
Defined.

End ReadSectors.

(** ** Snapshots: firmware colours in bulk, interrupts *)
Section FirmwareBulk.
Import cpcsnapshot.

Lemma set_firmware_inks_loop_app (pre hws rest : list Z) :
  Forall2 (fun c hw => 0 <= c <= 31 /\ 0 <= hw <= 31
                       /\ list_index firmware_inks c = Ok hw) pre hws ->
  forall ink s,
    0 <= ink ->
    0x2f + ink + len pre <= len (header s) ->
    set_firmware_inks_loop ink (pre ++ rest) s
    = set_firmware_inks_loop (ink + len pre) rest
        (mkSnapshot (overwrite (header s) (0x2f + ink) hws) (memory s)).
Proof.
  induction 1 as [|c hw pre hws (Hc & Hhw & Hidx) _ IH]; intros ink s Hi Hh.
  - rewrite overwrite_nil. change (len (@nil Z)) with 0.
    rewrite Z.add_0_r. now destruct s.
  - rewrite len_cons in *. pose proof (len_nonneg pre).
    cbn [app set_firmware_inks_loop].
    rewrite (proj2 (in_range_spec c 0 32)) by lia. cbn [negb].
    unfold bind at 1. unfold lift at 1. rewrite Hidx.
    unfold bind at 1. rewrite header_set_nonneg by lia.
    rewrite IH; cbn [header memory];
      [| lia | unfold len in *; rewrite length_insert; lia].
    replace (ink + 0x2f) with (0x2f + ink) by lia.
    replace (0x2f + (ink + 1)) with (0x2f + ink + 1) by lia.
    rewrite overwrite_cons by lia.
    now replace (ink + 1 + len pre) with (ink + (1 + len pre)) by lia.
Qed.

Lemma firmware_indices (inks : list Z) :
  Forall (fun c => 0 <= c <= 31) inks ->
  exists hws,
    Forall2 (fun c hw => 0 <= c <= 31 /\ 0 <= hw <= 31
                         /\ list_index firmware_inks c = Ok hw) inks hws
    /\ Forall2 (fun c hw => getitem firmware_inks hw = Ok c) inks hws.
Proof.
  induction 1 as [|c inks Hc _ (hws & IH1 & IH2)].
  - exists []. split; constructor.
  - destruct (firmware_index c Hc) as (hw & Hidx & Hhw & Htab).
    exists (hw :: hws). split; constructor; auto.
Qed.

(** X27: [set_firmware_inks] with 1 to 16 firmware colours in 0..31
    succeeds, and [get_firmware_ink] then returns, for each ink number
    of the list, the colour given for it. *)
Theorem set_firmware_inks_then_get (s : Snapshot) (inks : list Z) :
  1 <= len inks <= 16 -> Forall (fun c => 0 <= c <= 31) inks ->
  0x3f <= len (header s) ->
  exists s',
    set_firmware_inks inks s = (s', Ok tt)
    /\ memory s' = memory s
    /\ forall (ink : nat) colour,
         inks !! ink = Some colour ->
         get_firmware_ink (Z.of_nat ink) s' = (s', Ok colour).
Proof.
  intros Hn Hall Hlen.
  destruct (firmware_indices inks Hall) as (hws & Hidx & Htab).
  pose proof (Forall2_length Hidx) as Hl.
  exists (mkSnapshot (overwrite (header s) 0x2f hws) (memory s)).
  split; [|split; [reflexivity|]].
  - unfold set_firmware_inks.
    rewrite (proj2 (in_range_spec (len inks) 1 17)) by lia. cbn [negb].
    rewrite <- (app_nil_r inks) at 1.
    rewrite (set_firmware_inks_loop_app inks hws []) by (assumption || lia).
    reflexivity.
  - intros ink colour Hink.
    destruct (Forall2_lookup_l _ _ _ _ _ Htab Hink) as (hw & Hhw & Hc).
    destruct (Forall2_lookup_lr _ _ _ _ _ _ Hidx Hink Hhw) as (_ & Hr & _).
    apply lookup_lt_Some in Hink as Hlt.
    unfold get_firmware_ink, bind.
    rewrite (header_get_ok _ (Z.of_nat ink + 0x2f) hw); [|lia|].
    + unfold lift. now rewrite ink_mask_plain, Hc.
    + cbn [header]. unfold overwrite, len in *.
      replace (Z.to_nat (Z.of_nat ink + 0x2f)) with (0x2f + ink)%nat by lia.
      rewrite lookup_app_r by (rewrite length_take; lia).
      rewrite length_take, Nat.min_l by lia.
      rewrite lookup_app_l by lia.
      now replace (0x2f + ink - Z.to_nat 0x2f)%nat with ink by lia.
Qed.

Lemma set_firmware_inks_then_get_witness :
  exists s',
    set_firmware_inks [10; 15; 25; 0] blank64 = (s', Ok tt)
    /\ memory s' = memory blank64
    /\ forall (ink : nat) colour,
         [10; 15; 25; 0] !! ink = Some colour ->
         get_firmware_ink (Z.of_nat ink) s' = (s', Ok colour).
Proof.
  apply (set_firmware_inks_then_get blank64 [10; 15; 25; 0]).
  - vm_compute. split; discriminate.
  - repeat constructor; lia.
  - vm_compute. discriminate.
Defined.

End FirmwareBulk.

Section Interrupts.
Import cpcsnapshot.

Lemma interrupt_byte_table :
  forallb (fun c =>
    let on := Z.lor (Z.land c 0xfe) 0x01 in
    let off := Z.land c 0xfe in
    is_byte on && is_byte off
    && (Z.lor (Z.land on 0xfe) 0x01 =? on) && (Z.land off 0xfe =? off)
    && (Z.land on 0x01 =? 1) && (Z.land off 0x01 =? 0)
    && (Z.land on 0xfe =? Z.land c 0xfe)) (seqZ 0 256) = true.
Proof. vm_compute. reflexivity. Qed.

(** X6: [enable_interrupts] and [disable_interrupts] succeed and leave
    the two interrupt flag bytes 0x1B and 0x1C equal: bit 0 is set,
    respectively cleared, and the other bits are those byte 0x1B had,
    so the former content of byte 0x1C is lost.  Nothing else
    changes. *)
Theorem interrupt_flags_follow_first_byte (s : Snapshot) (b : Z) :
  0x1c < len (header s) -> header s !! 0x1b%nat = Some b ->
  let on := Z.lor (Z.land b 0xfe) 0x01 in
  let off := Z.land b 0xfe in
  enable_interrupts s
  = (mkSnapshot (<[0x1c%nat := on]> (<[0x1b%nat := on]> (header s)))
       (memory s), Ok tt)
  /\ disable_interrupts s
     = (mkSnapshot (<[0x1c%nat := off]> (<[0x1b%nat := off]> (header s)))
          (memory s), Ok tt)
  /\ Z.land on 0x01 = 1 /\ Z.land off 0x01 = 0
  /\ Z.land on 0xfe = off.
Proof.
  intros Hlen Hb on off.
  assert (0 <= b mod 256 < 0 + 256) as Hc
    by (pose proof (Z.mod_pos_bound b 256); lia).
  pose proof interrupt_byte_table as T. rewrite forallb_forall in T.
  specialize (T (b mod 256) (in_seqZ_range _ 0 256 Hc)). cbv zeta in T.
  rewrite <- !(land_low8 b) in T by reflexivity.
  fold on in T. fold off in T.
  rewrite !andb_true_iff, !Z.eqb_eq in T.
  destruct T as [[[[[[Bon Boff] Eon] Eoff] On1] Off1] Onfe].
  apply in_range_spec in Bon, Boff.
  assert (forall v, <[0x1b%nat := v]> (header s) !! 0x1b%nat = Some v) as Hnew
    by (intros v; apply list_lookup_insert_eq; unfold len in Hlen; lia).
  split; [|split; [|repeat split; assumption]].
  - unfold enable_interrupts, bind.
    rewrite (header_get_ok s 0x1b b) by (lia || exact Hb).
    fold on. rewrite header_set_nonneg by lia.
    rewrite (header_get_ok _ 0x1b on) by (lia || apply Hnew).
    rewrite Eon. rewrite header_set_nonneg; [reflexivity| |lia].
    cbn [header]. unfold len in *. rewrite length_insert. lia.
  - unfold disable_interrupts, bind.
    rewrite (header_get_ok s 0x1b b) by (lia || exact Hb).
    fold off. rewrite header_set_nonneg by lia.
    rewrite (header_get_ok _ 0x1b off) by (lia || apply Hnew).
    rewrite Eoff. rewrite header_set_nonneg; [reflexivity| |lia].
    cbn [header]. unfold len in *. rewrite length_insert. lia.
Qed.

Lemma interrupt_flags_follow_first_byte_witness :
  let s := mkSnapshot (<[0x1c%nat := 0x80]> (header blank64)) [] in
  enable_interrupts s
  = (mkSnapshot (<[0x1c%nat := 1]> (<[0x1b%nat := 1]> (header s))) [], Ok tt)
  /\ disable_interrupts s
     = (mkSnapshot (<[0x1c%nat := 0]> (<[0x1b%nat := 0]> (header s))) [],
        Ok tt).
Proof.
  intros s.
  destruct (interrupt_flags_follow_first_byte s 0) as (He & Hd & _);
    [vm_compute; reflexivity | reflexivity |].
  split; [exact He | exact Hd].
Defined.

End Interrupts.
